(** * SinGAN: the staged training loop of [mmagic/models/editors/singan/singan.py]

    A shallow embedding of the [SinGAN] class: its attributes are a record,
    its methods are computations in a state-and-exception monad, and the
    collaborators the class only calls (the two networks, autograd, the
    optimizers, the random generator, the pickle file) are the fields of a
    class, with a log of the calls made to them.

    Tensors hold real numbers: the arithmetic of the losses is the one of
    the formulas, not the rounding of a floating-point unit. A forward pass
    and an optimizer step are taken to return; [check_and_load_prev_weight]
    and [gather_log_vars] may raise. [forward], which no property below
    speaks about, is left out. *)

From Stdlib Require Import ZArith List String Ascii Reals Lra Lia Bool DecimalString.
From stdpp Require Import base gmap strings list fin_maps.
Import ListNotations.

Local Open Scope Z_scope.

(** ** Python values and operators *)

Module Py.

(** [str(z)] as an f-string prints it: decimal, with a minus sign. *)
Definition str (z : Z) : string := NilZero.string_of_int (Z.to_int z).

(** [sub in s] on strings. *)
Definition contains (sub s : string) : bool :=
  match String.index 0 sub s with
  | Some _ => true
  | None => false
  end.

(** [l[i]]: a negative index counts from the end; [None] stands for the
    [IndexError] of an index out of range. *)
Definition getitem {A : Type} (l : list A) (i : Z) : option A :=
  let n := Z.of_nat (length l) in
  if (0 <=? i) && (i <? n) then nth_error l (Z.to_nat i)
  else if (- n <=? i) && (i <? 0) then nth_error l (Z.to_nat (n + i))
  else None.

(** [s[-2:]] on a sequence. *)
Definition last2 {A : Type} (l : list A) : list A :=
  skipn (length l - 2)%nat l.

(** A [dict] with string keys and float values, in insertion order. *)
Definition dict := list (string * R).

Fixpoint setitem (d : dict) (k : string) (v : R) : dict :=
  match d with
  | [] => [(k, v)]
  | (k', v') :: d' =>
      if String.eqb k' k then (k, v) :: d' else (k', v') :: setitem d' k v
  end.

(** [d.pop(k, None)], the popped value dropped. *)
Definition pop (d : dict) (k : string) : dict :=
  List.filter (fun kv => negb (String.eqb (fst kv) k)) d.

(** [d.update(e)]. *)
Definition update (d e : dict) : dict :=
  fold_left (fun acc kv => setitem acc (fst kv) (snd kv)) e d.

End Py.

(** ** Tensors and the torch functions the class calls *)

Record Tensor : Type := mkTensor {
  shape : list nat;
  data : list R   (* row-major *)
}.

Module Torch.
Local Open Scope R_scope.

Definition numel (s : list nat) : nat := fold_right Nat.mul 1%nat s.

Definition rsum (l : list R) : R := fold_right Rplus 0 l.

(** [t.mean()] *)
Definition rmean (l : list R) : R := rsum l / INR (length l).
Definition mean (t : Tensor) : R := rmean (data t).

(** [torch.zeros_like(t)] *)
Definition zeros_like (t : Tensor) : Tensor :=
  mkTensor (shape t) (repeat 0 (numel (shape t))).

Definition same_shape (a b : Tensor) : bool :=
  bool_decide (shape a = shape b).

(** Elementwise [(a - b) ** 2] on tensors of one shape. *)
Definition sq_diff (a b : Tensor) : list R :=
  map (fun xy => (fst xy - snd xy) ^ 2) (combine (data a) (data b)).

(** [alpha * real + (1 - alpha) * fake] with [alpha] of shape (B,1,1,1)
    broadcast over (B,C,H,W): every entry of sample [b] is weighted by
    [alpha[b]]. *)
Definition lerp_per_sample (alpha : list R) (real fake : Tensor) : Tensor :=
  let per := numel (tl (shape real)) in
  mkTensor (shape real)
    (map (fun jxy =>
            let a := nth (fst jxy / per)%nat alpha 0 in
            a * fst (snd jxy) + (1 - a) * snd (snd jxy))
         (combine (seq 0 (length (data real)))
                  (combine (data real) (data fake)))).

(** [t.norm(2, dim=1)] of a tensor of shape (B,C,rest...): the Euclidean
    norm across the channels at every position; [None] when the tensor
    has no dimension 1. *)
Definition norm2_dim1 (t : Tensor) : option Tensor :=
  match shape t with
  | b :: c :: rest =>
      let s := numel rest in
      Some (mkTensor (b :: rest)
        (flat_map (fun bi =>
           map (fun si =>
                  sqrt (rsum (map (fun ci =>
                                nth ((bi * c + ci) * s + si)%nat (data t) 0 ^ 2)
                              (seq 0 c))))
               (seq 0 s))
           (seq 0 b)))
  | _ => None
  end.

(** [((t - 1) ** 2).mean()] *)
Definition mean_sq_dev1 (l : list R) : R :=
  rmean (map (fun x => (x - 1) ^ 2) l).

End Torch.

(** ** The object and its collaborators *)

Inductive Role : Type := Generator | Discriminator.

Inductive RandMode : Type := Rand | Recon.

(** What the generator returns: a tensor, or a dict with [fake_img] and
    [prev_res_list]. *)
Inductive GenOutput : Type :=
| OutTensor (t : Tensor)
| OutDict (fake_img : Tensor) (prev_res_list : list Tensor).

(** A network as far as this class sees it: parameters and buffers. A
    distribution wrapper resolves through [.module] to the same network. *)
Record Net : Type := mkNet {
  params : list R;
  buffers : list R
}.

(** [OptimWrapper]: only [_accumulative_counts] is read here. *)
Record OptimWrapper : Type := mkOptim {
  accumulative_counts : Z
}.

(** Calls made to the collaborators, in order. *)
Inductive Event : Type :=
| CheckAndLoadPrevWeight (r : Role) (stage : Z)
| BuildSchedulers (stage : Z)
| UpdateParams (r : Role)
| SetRequiresGrad (r : Role) (flag : bool)
| InitializeCountStatus (total : Z)
| EmaUpdateParameters
| EmaSyncBuffers
| EmaSyncParameters
| SchedulerStep (r : Role)
| PrintLog (msg : string).

Lemma Event_eq_dec (a b : Event) : {a = b} + {a <> b}.
Proof.
  decide equality; try apply Z.eq_dec; try apply string_dec;
    try apply Bool.bool_dec; decide equality.
Defined.

Inductive Exn : Type :=
| ZeroDivisionError
| KeyError (key : string)
| IndexError
| ValueError
| TypeError
| AttributeError (name : string)
| AssertionError (msg : string)
| OptimLookupError (key : string)
| ShapeError
| CollaboratorError (who : string)
| FileNotFoundError (path : string).

(** The constructor arguments and what [BaseGAN.__init__] derives from
    [ema_config]. *)
Record Config : Type := mkConfig {
  generator_steps : Z;
  discriminator_steps : Z;
  num_scales : option Z;
  iters_per_scale : Z;
  noise_weight_init : R;
  lr_scheduler_args : bool;      (* truthiness of the argument *)
  pkl_data : option string;      (* test_pkl_data *)
  with_ema_gen : bool;
  ema_start : Z;
  update_buffers : bool;         (* generator_ema.update_buffers *)
  ema_decay : R
}.

Definition set_num_scales (v : option Z) (c : Config) : Config :=
  mkConfig (generator_steps c) (discriminator_steps c) v (iters_per_scale c)
    (noise_weight_init c) (lr_scheduler_args c) (pkl_data c) (with_ema_gen c)
    (ema_start c) (update_buffers c) (ema_decay c).

(** The attributes that change, the networks, the position in the random
    stream and the call log. *)
Record State : Type := mkState {
  curr_stage : Z;
  noise_weights : list R;
  fixed_noises : list Tensor;
  reals : list Tensor;
  loaded_test_pkl : bool;
  schedulers : option Z;         (* gen_scheduler / disc_scheduler, once built *)
  generator : Net;
  discriminator : Net;
  generator_ema : Net;
  disc_requires_grad : bool;
  rng : nat;
  calls : list Event
}.

Definition set_curr_stage (v : Z) (s : State) : State :=
  mkState v (noise_weights s) (fixed_noises s) (reals s) (loaded_test_pkl s)
    (schedulers s) (generator s) (discriminator s) (generator_ema s)
    (disc_requires_grad s) (rng s) (calls s).
Definition set_noise_weights (v : list R) (s : State) : State :=
  mkState (curr_stage s) v (fixed_noises s) (reals s) (loaded_test_pkl s)
    (schedulers s) (generator s) (discriminator s) (generator_ema s)
    (disc_requires_grad s) (rng s) (calls s).
Definition set_fixed_noises (v : list Tensor) (s : State) : State :=
  mkState (curr_stage s) (noise_weights s) v (reals s) (loaded_test_pkl s)
    (schedulers s) (generator s) (discriminator s) (generator_ema s)
    (disc_requires_grad s) (rng s) (calls s).
Definition set_reals (v : list Tensor) (s : State) : State :=
  mkState (curr_stage s) (noise_weights s) (fixed_noises s) v (loaded_test_pkl s)
    (schedulers s) (generator s) (discriminator s) (generator_ema s)
    (disc_requires_grad s) (rng s) (calls s).
Definition set_loaded_test_pkl (v : bool) (s : State) : State :=
  mkState (curr_stage s) (noise_weights s) (fixed_noises s) (reals s) v
    (schedulers s) (generator s) (discriminator s) (generator_ema s)
    (disc_requires_grad s) (rng s) (calls s).
Definition set_schedulers (v : option Z) (s : State) : State :=
  mkState (curr_stage s) (noise_weights s) (fixed_noises s) (reals s)
    (loaded_test_pkl s) v (generator s) (discriminator s) (generator_ema s)
    (disc_requires_grad s) (rng s) (calls s).
Definition set_generator (v : Net) (s : State) : State :=
  mkState (curr_stage s) (noise_weights s) (fixed_noises s) (reals s)
    (loaded_test_pkl s) (schedulers s) v (discriminator s) (generator_ema s)
    (disc_requires_grad s) (rng s) (calls s).
Definition set_discriminator (v : Net) (s : State) : State :=
  mkState (curr_stage s) (noise_weights s) (fixed_noises s) (reals s)
    (loaded_test_pkl s) (schedulers s) (generator s) v (generator_ema s)
    (disc_requires_grad s) (rng s) (calls s).
Definition set_generator_ema (v : Net) (s : State) : State :=
  mkState (curr_stage s) (noise_weights s) (fixed_noises s) (reals s)
    (loaded_test_pkl s) (schedulers s) (generator s) (discriminator s) v
    (disc_requires_grad s) (rng s) (calls s).
Definition set_disc_requires_grad (v : bool) (s : State) : State :=
  mkState (curr_stage s) (noise_weights s) (fixed_noises s) (reals s)
    (loaded_test_pkl s) (schedulers s) (generator s) (discriminator s)
    (generator_ema s) v (rng s) (calls s).
Definition set_rng (v : nat) (s : State) : State :=
  mkState (curr_stage s) (noise_weights s) (fixed_noises s) (reals s)
    (loaded_test_pkl s) (schedulers s) (generator s) (discriminator s)
    (generator_ema s) (disc_requires_grad s) v (calls s).
Definition set_calls (v : list Event) (s : State) : State :=
  mkState (curr_stage s) (noise_weights s) (fixed_noises s) (reals s)
    (loaded_test_pkl s) (schedulers s) (generator s) (discriminator s)
    (generator_ema s) (disc_requires_grad s) (rng s) v.

(** ** Computations: state passing, with exceptions that keep the state
    reached when they were raised *)

Inductive Res (A : Type) : Type :=
| Ok (a : A) (s : State)
| Raise (e : Exn) (s : State).
Arguments Ok {A} a s.
Arguments Raise {A} e s.

Definition M (A : Type) : Type := State -> Res A.

Definition ret {A : Type} (a : A) : M A := fun s => Ok a s.

Definition bind {A B : Type} (m : M A) (k : A -> M B) : M B :=
  fun s =>
    match m s with
    | Ok a s' => k a s'
    | Raise e s' => Raise e s'
    end.

Definition raise {A : Type} (e : Exn) : M A := fun s => Raise e s.

Definition gets {A : Type} (f : State -> A) : M A := fun s => Ok (f s) s.

Definition modify (f : State -> State) : M unit := fun s => Ok tt (f s).

Definition emit (e : Event) : M unit :=
  modify (fun s => set_calls (calls s ++ [e]) s).

Definition final {A : Type} (r : Res A) : State :=
  match r with
  | Ok _ s => s
  | Raise _ s => s
  end.

Notation "'let*' x ':=' c 'in' k" := (bind c (fun x => k))
  (at level 10, x pattern, c at level 100, k at level 200).

Definition of_option {A : Type} (o : option A) (e : Exn) : M A :=
  match o with
  | Some a => ret a
  | None => raise e
  end.

(** [a % b] on integers. *)
Definition py_mod (a b : Z) : M Z :=
  if b =? 0 then raise ZeroDivisionError else ret (a mod b).

(** [assert c, msg] *)
Definition py_assert (c : bool) (msg : string) : M unit :=
  if c then ret tt else raise (AssertionError msg).

(** [l[i]] on a list attribute. *)
Definition list_get (l : list Tensor) (i : Z) : M Tensor :=
  of_option (Py.getitem l i) IndexError.

(** [d[k]] on the batch. *)
Definition dict_get (d : gmap string Tensor) (k : string) : M Tensor :=
  of_option (d !! k) (KeyError k).

(** [optim_wrapper[k]] *)
Definition optim_get (ow : gmap string OptimWrapper) (k : string)
  : M OptimWrapper :=
  of_option (ow !! k) (OptimLookupError k).

(** [F.mse_loss(input, target)]. torch broadcasts shapes that differ but
    are compatible; the model covers equal shapes. *)
Definition mse_loss (input target : Tensor) : M R :=
  if Torch.same_shape input target
  then ret (Torch.rmean (Torch.sq_diff input target))
  else raise ShapeError.

(** [mmengine]'s [BaseModel.parse_losses]: log every entry, and sum the
    entries whose name contains ['loss'] (Python's [sum] starts at 0). *)
Definition parse_losses (losses : Py.dict) : R * Py.dict :=
  let loss :=
    fold_left (fun acc kv =>
                 if Py.contains "loss" (fst kv) then (acc + snd kv)%R else acc)
              losses 0%R in
  (loss, ("loss", loss) :: losses).

(** The content of the pickle file of [test_pkl_data]. *)
Record PklData : Type := mkPkl {
  pkl_fixed_noises : list Tensor;
  pkl_noise_weights : list R;
  pkl_curr_stage : Z
}.

Definition gen_key (stage : Z) : string := "generator_" +:+ Py.str stage.
Definition disc_key (stage : Z) : string := "discriminator_" +:+ Py.str stage.
Definition real_key (s : nat) : string := "real_scale" +:+ Py.str (Z.of_nat s).

Definition _warning_msg : string :=
  "SinGAN do set batch size as 1 during training and do not support gradient accumulation.".

(** [__init__]: the attributes of a fresh object. *)
Definition init_state (g d e : Net) (seed : nat) : State :=
  mkState (-1) [1%R] [] [] false None g d e true seed [].

(** ** The collaborators

    What the class calls and does not define: the networks, autograd, the
    random generator, the optimizers, the log gathering of the base class
    and the pickle file. *)

Class Collaborators : Type := {
  (** [generator(input, fixed_noises, noise_weights, rand_mode, curr_scale)]
      on the given parameters, from the given position of the random
      stream, and the number of random draws such a call makes. *)
  gen_forward :
    Net -> Tensor -> list Tensor -> list R -> RandMode -> Z -> nat -> GenOutput;
  gen_draws : RandMode -> Z -> nat;
  (** [discriminator(image, curr_scale)] *)
  disc_forward : Net -> Tensor -> Z -> Tensor;
  (** [autograd.grad] of the discriminator's summed output with respect to
      its input image. *)
  disc_input_grad : Net -> Tensor -> Z -> Tensor;
  (** [F.interpolate(image, size)] *)
  interpolate : Tensor -> list nat -> Tensor;
  (** The streams [torch.randn] and [torch.rand] draw from. *)
  randn_src : nat -> R;
  rand_src : nat -> R;
  (** The network an [update_params(loss)] leaves behind. *)
  optim_update : Role -> OptimWrapper -> R -> State -> Net;
  (** The network a [check_and_load_prev_weight(stage)] leaves behind, or
      [None] when it raises. *)
  load_prev_weight : Role -> Z -> Net -> option Net;
  (** [BaseGAN.gather_log_vars], [None] when it raises. *)
  gather_log_vars : list Py.dict -> option Py.dict;
  (** [pickle.load(open(path, 'rb'))] *)
  read_pkl : string -> option PklData
}.

(** [OptimWrapperDict(generator=..., discriminator=...)] *)
Record OptimPair : Type := mkPair {
  optim_generator : OptimWrapper;
  optim_discriminator : OptimWrapper
}.

(** ** The methods of [SinGAN] *)

Section SinGAN.

Context {env : Collaborators}.
Variable cfg : Config.

(** *** Random tensors *)

Definition draw (src : nat -> R) (shp : list nat) : M Tensor :=
  fun s =>
    let n := Torch.numel shp in
    Ok (mkTensor shp (map src (seq (rng s) n))) (set_rng (rng s + n)%nat s).

Definition randn (shp : list nat) : M Tensor := draw randn_src shp.
Definition rand (shp : list nat) : M Tensor := draw rand_src shp.

(** *** [construct_fixed_noises] *)

(** [h, w = real.shape[-2:]] *)
Definition unpack_hw (real : Tensor) : M (nat * nat) :=
  match Py.last2 (shape real) with
  | [h; w] => ret (h, w)
  | _ => raise ValueError
  end.

Fixpoint construct_from (i : nat) (rs : list Tensor) : M unit :=
  match rs with
  | [] => ret tt
  | real :: rest =>
      let* hw := unpack_hw real in
      let* noise :=
        (if (i =? 0)%nat
         then randn [1%nat; 1%nat; fst hw; snd hw]
         else ret (Torch.zeros_like real)) in
      let* _ := modify (fun s => set_fixed_noises (fixed_noises s ++ [noise]) s) in
      construct_from (S i) rest
  end.

Definition construct_fixed_noises : M unit :=
  let* rs := gets reals in construct_from 0 rs.

(** *** [load_test_pkl] and [test_step] *)

Definition load_test_pkl : M unit :=
  match pkl_data cfg with
  | Some path =>
      let* d := of_option (read_pkl path) (FileNotFoundError path) in
      let* _ := modify (set_fixed_noises (pkl_fixed_noises d)) in
      let* _ := modify (set_noise_weights (pkl_noise_weights d)) in
      let* _ := modify (set_curr_stage (pkl_curr_stage d)) in
      let* _ := emit (PrintLog ("Load pkl data from " +:+ path)) in
      modify (set_loaded_test_pkl true)
  | None => ret tt
  end.

(** [super().test_step(data)] is [BaseGAN]'s, a parameter here. *)
Definition test_step {Data Samples : Type}
    (base_test_step : Data -> M Samples) (data : Data) : M Samples :=
  let* loaded := gets loaded_test_pkl in
  let* _ := (if negb loaded then load_test_pkl else ret tt) in
  base_test_step data.

(** *** The losses *)

Definition gen_loss (disc_pred_fake recon_imgs : Tensor) : M (R * Py.dict) :=
  let loss_gen := (- Torch.mean disc_pred_fake)%R in
  let* stage := gets curr_stage in
  let* rs := gets reals in
  let* target := list_get rs stage in
  let* mse := mse_loss recon_imgs target in
  ret (parse_losses [("loss_gen", loss_gen); ("loss_mse", (10 * mse)%R)]).

Definition disc_loss (disc_pred_fake disc_pred_real fake_data real_data : Tensor)
  : M (R * Py.dict) :=
  let loss_disc_fake := Torch.mean disc_pred_fake in
  let loss_disc_real := (- Torch.mean disc_pred_real)%R in
  (* batch_size = real_data.size(0) *)
  let* batch_size := of_option (head (shape real_data)) IndexError in
  let* alpha := rand [batch_size; 1%nat; 1%nat; 1%nat] in
  (* the broadcast of alpha is modelled for 4-D images of one shape *)
  let* _ := (if Torch.same_shape real_data fake_data
                && (length (shape real_data) =? 4)%nat
             then ret tt else raise ShapeError) in
  let interpolates := Torch.lerp_per_sample (data alpha) real_data fake_data in
  let* stage := gets curr_stage in
  let* d := gets discriminator in
  let gradients := disc_input_grad d interpolates stage in
  (* norm_mode is 'pixel' *)
  let* norms := of_option (Torch.norm2_dim1 gradients) IndexError in
  let gradients_penalty := Torch.mean_sq_dev1 (data norms) in
  ret (parse_losses [("loss_disc_fake", loss_disc_fake);
                     ("loss_disc_real", loss_disc_real);
                     ("loss_gp", (0.1 * gradients_penalty)%R)]).

(** *** One update round of each network *)

Definition call_generator (input : Tensor) (mode : RandMode) : M GenOutput :=
  fun s =>
    Ok (gen_forward (generator s) input (fixed_noises s) (noise_weights s)
          mode (curr_stage s) (rng s))
       (set_rng (rng s + gen_draws mode (curr_stage s))%nat s).

(** The update rounds pass the generator's output on as a tensor. *)
Definition as_tensor (o : GenOutput) : M Tensor :=
  match o with
  | OutTensor t => ret t
  | OutDict _ _ => raise TypeError
  end.

Definition update_params (r : Role) (w : OptimWrapper) (loss : R) : M unit :=
  let* _ := modify (fun s =>
              match r with
              | Generator => set_generator (optim_update r w loss s) s
              | Discriminator => set_discriminator (optim_update r w loss s) s
              end) in
  emit (UpdateParams r).

Definition train_generator (inputs : gmap string Tensor)
    (optimizer_wrapper : OptimWrapper) : M Py.dict :=
  let* input_sample := dict_get inputs "input_sample" in
  let* fake_out := call_generator input_sample Rand in
  let* fake_imgs := as_tensor fake_out in
  let* stage := gets curr_stage in
  let* d := gets discriminator in
  let disc_pred_fake_g := disc_forward d fake_imgs stage in
  let* input_sample' := dict_get inputs "input_sample" in
  let* recon_out := call_generator input_sample' Recon in
  let* recon_imgs := as_tensor recon_out in
  let* parsed := gen_loss disc_pred_fake_g recon_imgs in
  let* _ := update_params Generator optimizer_wrapper (fst parsed) in
  ret (snd parsed).

Definition train_discriminator (inputs : gmap string Tensor)
    (optimizer_wrapper : OptimWrapper) : M Py.dict :=
  let* input_sample := dict_get inputs "input_sample" in
  let* fake_out := call_generator input_sample Rand in
  let* stage := gets curr_stage in
  let* rs := gets reals in
  let* real_imgs := list_get rs stage in
  let* fake_imgs := as_tensor fake_out in
  let* d := gets discriminator in
  let disc_pred_fake := disc_forward d fake_imgs stage in
  let disc_pred_real := disc_forward d real_imgs stage in
  let* parsed := disc_loss disc_pred_fake disc_pred_real fake_imgs real_imgs in
  let* _ := update_params Discriminator optimizer_wrapper (fst parsed) in
  ret (snd parsed).

(** *** The shadow of the generator *)

Definition blend (decay : R) (shadow current : list R) : list R :=
  map (fun ac => (decay * fst ac + (1 - decay) * snd ac)%R)
      (combine shadow current).

(** Modelled from the spec: [generator_ema.update_parameters] of the
    averaged-model class, which is not part of this file. The spec gives
    its rule, [decay * shadow_prev + (1 - decay) * generator_current]
    elementwise, and has the buffers follow the same decay when buffer
    updating is on. *)
Definition ema_update_parameters (src : Net) : M unit :=
  let* _ := modify (fun s =>
    let e := generator_ema s in
    set_generator_ema
      (mkNet (blend (ema_decay cfg) (params e) (params src))
             (if update_buffers cfg
              then blend (ema_decay cfg) (buffers e) (buffers src)
              else buffers e)) s) in
  emit EmaUpdateParameters.

(** Modelled from the spec: [generator_ema.sync_buffers], a plain copy of
    the buffers. *)
Definition ema_sync_buffers (src : Net) : M unit :=
  let* _ := modify (fun s =>
    set_generator_ema (mkNet (params (generator_ema s)) (buffers src)) s) in
  emit EmaSyncBuffers.

(** Modelled from the spec: [generator_ema.sync_parameters], a full copy
    of the parameters. *)
Definition ema_sync_parameters (src : Net) : M unit :=
  let* _ := modify (fun s =>
    set_generator_ema (mkNet (params src) (buffers (generator_ema s))) s) in
  emit EmaSyncParameters.

(** *** [train_gan] *)

(** [for _ in range(n): log_vars_gen_list.append(train_generator(...))] *)
Fixpoint gen_rounds (n : nat) (inputs : gmap string Tensor)
    (w : OptimWrapper) : M (list Py.dict) :=
  match n with
  | O => ret []
  | S n' =>
      let* log_vars_gen := train_generator inputs w in
      let* rest := gen_rounds n' inputs w in
      ret (log_vars_gen :: rest)
  end.

Definition set_requires_grad (flag : bool) : M unit :=
  let* _ := modify (set_disc_requires_grad flag) in
  emit (SetRequiresGrad Discriminator flag).

(** The part of [train_gan] under "only do ema after generator update". *)
Definition ema_after_generator (curr_iter disc_accu_iters : Z) : M unit :=
  if with_ema_gen cfg
     && (ema_start cfg * discriminator_steps cfg * disc_accu_iters
         <=? curr_iter + 1)
  then
    let* g := gets generator in
    let* _ := ema_update_parameters g in
    if negb (update_buffers cfg)
    then let* g' := gets generator in ema_sync_buffers g'
    else ret tt
  else if with_ema_gen cfg
  then let* g := gets generator in ema_sync_parameters g
  else ret tt.

Definition train_gan (curr_iter : Z) (inputs_dict : gmap string Tensor)
    (optim_wrapper : OptimPair) : M Py.dict :=
  let disc_optimizer_wrapper := optim_discriminator optim_wrapper in
  let disc_accu_iters := accumulative_counts disc_optimizer_wrapper in
  let* log_vars := train_discriminator inputs_dict disc_optimizer_wrapper in
  let* m := py_mod (curr_iter + 1)
                   (discriminator_steps cfg * disc_accu_iters) in
  if m =? 0 then
    let* _ := set_requires_grad false in
    let gen_optimizer_wrapper := optim_generator optim_wrapper in
    let gen_accu_iters := accumulative_counts gen_optimizer_wrapper in
    let* _ := emit (InitializeCountStatus
                      (generator_steps cfg * gen_accu_iters)) in
    let* log_vars_gen_list :=
      gen_rounds (Z.to_nat (generator_steps cfg * gen_accu_iters))
                 inputs_dict gen_optimizer_wrapper in
    let* gathered :=
      of_option (gather_log_vars log_vars_gen_list)
                (CollaboratorError "gather_log_vars") in
    let log_vars_gen := Py.pop gathered "loss" in
    let* _ := set_requires_grad true in
    let* _ := ema_after_generator curr_iter disc_accu_iters in
    ret (Py.update log_vars log_vars_gen)
  else ret log_vars.

(** *** [train_step] *)

Definition check_and_load_prev_weight (r : Role) (stage : Z) : M unit :=
  let* _ := emit (CheckAndLoadPrevWeight r stage) in
  let* net := gets (match r with
                    | Generator => generator
                    | Discriminator => discriminator
                    end) in
  let* net' := of_option (load_prev_weight r stage net)
                 (CollaboratorError "check_and_load_prev_weight") in
  modify (match r with
          | Generator => set_generator net'
          | Discriminator => set_discriminator net'
          end).

(** The body of [if curr_iter % (iters_per_scale * discriminator_steps) == 0]. *)
Definition enter_next_stage (optim_wrapper : gmap string OptimWrapper)
  : M unit :=
  let* _ := modify (fun s => set_curr_stage (curr_stage s + 1) s) in
  let* stage := gets curr_stage in
  let* _ := check_and_load_prev_weight Generator stage in
  let* _ := check_and_load_prev_weight Discriminator stage in
  let* curr_gen_optim := optim_get optim_wrapper (gen_key stage) in
  let* curr_disc_optim := optim_get optim_wrapper (disc_key stage) in
  let* _ := py_assert (accumulative_counts curr_gen_optim =? 1)
                      _warning_msg in
  let* _ := py_assert (accumulative_counts curr_disc_optim =? 1)
                      _warning_msg in
  if lr_scheduler_args cfg
  then
    let* _ := modify (set_schedulers (Some stage)) in
    emit (BuildSchedulers stage)
  else ret tt.

(** [[inputs_dict[f'real_scale{s}'] for s in range(scales)]] *)
Fixpoint collect_reals (inputs_dict : gmap string Tensor) (ss : list nat)
  : M (list Tensor) :=
  match ss with
  | [] => ret []
  | s :: rest =>
      let* r := dict_get inputs_dict (real_key s) in
      let* rs := collect_reals inputs_dict rest in
      ret (r :: rs)
  end.

(** "setup fixed noises and reals pyramid" *)
Definition setup_pyramids (inputs_dict : gmap string Tensor) : M unit :=
  let keys := List.filter (fun kv => Py.contains "real_scale" (fst kv))
                          (map_to_list inputs_dict) in
  let scales := length keys in
  let* rs := collect_reals inputs_dict (seq 0 scales) in
  let* _ := modify (set_reals rs) in
  construct_fixed_noises.

(** "update noise weight"; [torch.no_grad()] and [detach()] change no
    value. *)
Definition update_noise_weight (inputs_dict : gmap string Tensor) : M unit :=
  let* input_sample := dict_get inputs_dict "input_sample" in
  let* out := call_generator input_sample Recon in
  let g_recon := match out with
                 | OutTensor t => t
                 | OutDict fake_img _ => fake_img
                 end in
  let* stage := gets curr_stage in
  let* rs := gets reals in
  let* next := list_get rs (stage + 1) in
  let g_recon' := interpolate g_recon (Py.last2 (shape next)) in
  let* mse := mse_loss g_recon' next in
  let rmse := sqrt mse in
  modify (fun s =>
    set_noise_weights
      (noise_weights s ++ [(noise_weight_init cfg * rmse)%R]) s).

Definition scheduler_step : M unit :=
  let* sch := gets schedulers in
  match sch with
  | Some _ =>
      let* _ := emit (SchedulerStep Discriminator) in
      emit (SchedulerStep Generator)
  | None => raise (AttributeError "disc_scheduler")
  end.

(** [curr_iter] is the ['iter'] entry of the message hub; [data] is the
    batch as the data preprocessor returns it. *)
Definition train_step (curr_iter : Z) (inputs_dict : gmap string Tensor)
    (optim_wrapper : gmap string OptimWrapper) : M Py.dict :=
  let window := iters_per_scale cfg * discriminator_steps cfg in
  let* m := py_mod curr_iter window in
  let* _ := (if m =? 0 then enter_next_stage optim_wrapper else ret tt) in
  (* get current optimizer_wrapper *)
  let* stage := gets curr_stage in
  let* g := optim_get optim_wrapper (gen_key stage) in
  let* d := optim_get optim_wrapper (disc_key stage) in
  let curr_optimizer_wrapper := mkPair g d in
  let* n_reals := gets (fun s => length (reals s)) in
  let* _ := (if (curr_iter =? 0) || (n_reals =? 0)%nat
             then setup_pyramids inputs_dict else ret tt) in
  (* standard train step *)
  let* log_vars := train_gan curr_iter inputs_dict curr_optimizer_wrapper in
  let* stage' := gets curr_stage in
  let log_vars := Py.setitem log_vars "curr_stage" (IZR stage') in
  (* update noise weight *)
  let* m' := py_mod (curr_iter + 1) window in
  let* n_reals' := gets (fun s => length (reals s)) in
  let* _ := (if (m' =? 0) && (stage' <? Z.of_nat n_reals' - 1)
             then update_noise_weight inputs_dict else ret tt) in
  (* call scheduler when all submodules are fully updated *)
  let* m'' := py_mod (curr_iter + 1) (discriminator_steps cfg) in
  let* _ := (if m'' =? 0
             then if lr_scheduler_args cfg then scheduler_step else ret tt
             else ret tt) in
  ret log_vars.

(** The training loop of the runner: [train_step] once per iteration,
    the counter starting at 0; an exception ends the run. *)
Fixpoint train_loop (n : nat) (batch : nat -> gmap string Tensor)
    (optim_wrapper : gmap string OptimWrapper) : M unit :=
  match n with
  | O => ret tt
  | S n' =>
      let* _ := train_loop n' batch optim_wrapper in
      let* _ := train_step (Z.of_nat n') (batch n') optim_wrapper in
      ret tt
  end.

End SinGAN.

(** ** Observations and views of the methods

    Names for what the properties below speak about: the attributes a
    computation leaves alone, the two halves of [train_step], the calls a
    tick makes, the weight a calibration appends. *)

(** [keeps f m]: whatever the outcome of [m], the observation [f] of the
    state is as before. *)
Definition keeps {A B : Type} (f : State -> B) (m : M A) : Prop :=
  forall s, f (final (m s)) = f s.

Section Views.

Context {env : Collaborators}.
Variable cfg : Config.

(** The attributes an update round leaves alone. *)
Definition attrs (s : State) :=
  (curr_stage s, noise_weights s, fixed_noises s, reals s,
   loaded_test_pkl s).

(** What follows the increment in the stage transition. *)
Definition after_increment (optim_wrapper : gmap string OptimWrapper)
  : M unit :=
  let* stage := gets curr_stage in
  let* _ := check_and_load_prev_weight Generator stage in
  let* _ := check_and_load_prev_weight Discriminator stage in
  let* curr_gen_optim := optim_get optim_wrapper (gen_key stage) in
  let* curr_disc_optim := optim_get optim_wrapper (disc_key stage) in
  let* _ := py_assert (accumulative_counts curr_gen_optim =? 1)
                      _warning_msg in
  let* _ := py_assert (accumulative_counts curr_disc_optim =? 1)
                      _warning_msg in
  if lr_scheduler_args cfg
  then
    let* _ := modify (set_schedulers (Some stage)) in
    emit (BuildSchedulers stage)
  else ret tt.

(** [train_step] after its stage transition. *)
Definition after_transition (curr_iter : Z) (inputs_dict : gmap string Tensor)
    (optim_wrapper : gmap string OptimWrapper) : M Py.dict :=
  let window := iters_per_scale cfg * discriminator_steps cfg in
  let* stage := gets curr_stage in
  let* g := optim_get optim_wrapper (gen_key stage) in
  let* d := optim_get optim_wrapper (disc_key stage) in
  let curr_optimizer_wrapper := mkPair g d in
  let* n_reals := gets (fun s => length (reals s)) in
  let* _ := (if (curr_iter =? 0) || (n_reals =? 0)%nat
             then setup_pyramids inputs_dict else ret tt) in
  let* log_vars := train_gan cfg curr_iter inputs_dict curr_optimizer_wrapper in
  let* stage' := gets curr_stage in
  let log_vars := Py.setitem log_vars "curr_stage" (IZR stage') in
  let* m' := py_mod (curr_iter + 1) window in
  let* n_reals' := gets (fun s => length (reals s)) in
  let* _ := (if (m' =? 0) && (stage' <? Z.of_nat n_reals' - 1)
             then update_noise_weight cfg inputs_dict else ret tt) in
  let* m'' := py_mod (curr_iter + 1) (discriminator_steps cfg) in
  let* _ := (if m'' =? 0
             then if lr_scheduler_args cfg then scheduler_step else ret tt
             else ret tt) in
  ret log_vars.

(** Whether the tick at [i] enters the next stage. *)
Definition transition_fires (i : Z) : bool :=
  let window := iters_per_scale cfg * discriminator_steps cfg in
  negb (window =? 0) && (i mod window =? 0).

(** Whether the tick at [i] updates the generator. *)
Definition generator_fires (i acc_d : Z) : bool :=
  (i + 1) mod (discriminator_steps cfg * acc_d) =? 0.

(** The calls of the part under "only do ema after generator update". *)
Definition ema_calls (i acc_d : Z) : list Event :=
  if with_ema_gen cfg
     && (ema_start cfg * discriminator_steps cfg * acc_d <=? i + 1)
  then EmaUpdateParameters
       :: (if update_buffers cfg then [] else [EmaSyncBuffers])
  else if with_ema_gen cfg then [EmaSyncParameters] else [].

(** The shadow the part under "only do ema after generator update"
    leaves, from the shadow before it and the generator. *)
Definition shadow_after (i acc_d : Z) (shadow gen : Net) : Net :=
  if with_ema_gen cfg
     && (ema_start cfg * discriminator_steps cfg * acc_d <=? i + 1)
  then mkNet (blend (ema_decay cfg) (params shadow) (params gen))
             (if update_buffers cfg
              then blend (ema_decay cfg) (buffers shadow) (buffers gen)
              else buffers gen)
  else if with_ema_gen cfg
  then mkNet (params gen) (buffers shadow)
  else shadow.

(** The calls of one [train_gan]. *)
Definition train_gan_calls (i : Z) (ow : OptimPair) : list Event :=
  let acc_d := accumulative_counts (optim_discriminator ow) in
  let total :=
    generator_steps cfg * accumulative_counts (optim_generator ow) in
  UpdateParams Discriminator
  :: (if generator_fires i acc_d
      then [SetRequiresGrad Discriminator false;
            InitializeCountStatus total]
           ++ repeat (UpdateParams Generator) (Z.to_nat total)
           ++ [SetRequiresGrad Discriminator true]
           ++ ema_calls i acc_d
      else []).

(** The image a generator call returned, out of its dict if it is one. *)
Definition fake_img_of (o : GenOutput) : Tensor :=
  match o with
  | OutTensor t => t
  | OutDict fake_img _ => fake_img
  end.

(** The weight [update_noise_weight] appends, from the upsampled
    reconstruction and the next real image. *)
Definition calibrated_weight (recon_upsampled real_next : Tensor) : R :=
  (noise_weight_init cfg
   * sqrt (Torch.rmean (Torch.sq_diff recon_upsampled real_next)))%R.

(** The upsampled reconstruction at the state [s]: a 'recon' call of the
    generator at the current stage, resampled to the size of [next]. *)
Definition recon_upsampled (input : Tensor) (s : State) (pos : nat)
    (next : Tensor) : Tensor :=
  interpolate
    (fake_img_of (gen_forward (generator s) input (fixed_noises s)
                    (noise_weights s) Recon (curr_stage s) pos))
    (Py.last2 (shape next)).

(** The condition of "update noise weight", on the state the tick ends
    in. *)
Definition calibration_fires (i : Z) (s' : State) : bool :=
  ((i + 1) mod (iters_per_scale cfg * discriminator_steps cfg) =? 0)
  && (curr_stage s' <? Z.of_nat (length (reals s')) - 1).

End Views.

(** ** The spec's formulas

    Written after the words of the specification, to be compared with what
    the methods compute. *)

(** "floor(i / window) clipped to [-1, num_scales - 1]" *)
Definition spec_stage (i window n_scales : Z) : Z :=
  Z.max (-1) (Z.min (n_scales - 1) (i / window)).

(** "the penalty is (norm_2(grad D(interpolated)) - 1)^2 averaged over the
    batch": one 2-norm per sample, over all the entries of its gradient. *)
Definition spec_gradient_penalty (g : Tensor) : R :=
  let b := hd 0%nat (shape g) in
  let per := Torch.numel (tl (shape g)) in
  Torch.rmean
    (map (fun bi =>
            (sqrt (Torch.rsum
                     (map (fun j => (nth (bi * per + j)%nat (data g) 0 ^ 2)%R)
                          (seq 0 per)))
             - 1) ^ 2)%R
         (seq 0 b)).

(** ** More views: the calls around the update rounds *)

Section MoreViews.

Context {env : Collaborators}.
Variable cfg : Config.

(** The calls of the stage transition of a tick that ends in [stage]. *)
Definition transition_calls (i stage : Z) : list Event :=
  if transition_fires cfg i
  then [CheckAndLoadPrevWeight Generator stage;
        CheckAndLoadPrevWeight Discriminator stage]
       ++ (if lr_scheduler_args cfg then [BuildSchedulers stage] else [])
  else [].

(** The calls of "call scheduler when all submodules are fully updated". *)
Definition scheduler_calls (i : Z) : list Event :=
  if ((i + 1) mod discriminator_steps cfg =? 0) && lr_scheduler_args cfg
  then [SchedulerStep Discriminator; SchedulerStep Generator]
  else [].

End MoreViews.

(** The two pyramids of the object. *)
Definition pyramids (s : State) : list Tensor * list Tensor :=
  (reals s, fixed_noises s).

(** [len([k for k in inputs_dict.keys() if 'real_scale' in k])] *)
Definition n_real_keys (inputs_dict : gmap string Tensor) : nat :=
  length (List.filter (fun kv => Py.contains "real_scale" (fst kv))
                      (map_to_list inputs_dict)).

(** An image has a height and a width. *)
Definition has_hw (t : Tensor) : Prop := (2 <= length (shape t))%nat.

(** [new] is [old], or [old] with one more element at its end. *)
Definition appended_at_most_one {A : Type} (old new : list A) : Prop :=
  new = old \/ exists x, new = old ++ [x].

(** Whatever its outcome, [m] appends at most one noise weight. *)
Definition appends_weight {A : Type} (m : M A) : Prop :=
  forall s,
    appended_at_most_one (noise_weights s) (noise_weights (final (m s))).



(** ** Inference: [forward]

    [forward] reads an [inputs] dict, asks the base class which networks to
    sample from, calls them and hands their images to the data
    preprocessor. *)

(** The values of an [inputs] dict: [None], ints, strings, and any other
    object, known by what [format] prints for it and equal to no int.
    [forward] reads the first three and passes the others on to the
    generator. *)
Inductive PyVal : Type :=
| VNone
| VInt (n : Z)
| VStr (s : string)
| VObj (repr : string).

(** [f'{v}'] *)
Definition py_format (v : PyVal) : string :=
  match v with
  | VNone => "None"
  | VInt n => Py.str n
  | VStr s => s
  | VObj r => r
  end.

(** [v == 1] *)
Definition py_eq_one (v : PyVal) : bool :=
  match v with
  | VInt n => n =? 1
  | _ => false
  end.

(** [d.pop(k, default)]: the value, and the dict that is left. *)
Definition dict_pop (d : gmap string PyVal) (k : string) (dflt : PyVal)
  : PyVal * gmap string PyVal :=
  (default dflt (d !! k), delete k d).

(** What [forward] is given as [inputs]. *)
Inductive ForwardInputs : Type :=
| InDict (d : gmap string PyVal)
| InTensor (t : Tensor).

(** [t[0]] on a tensor: [None] stands for the [IndexError] of a tensor
    without dimensions or with an empty first one. *)
Definition tensor_first (t : Tensor) : option Tensor :=
  match shape t with
  | [] => None
  | O :: _ => None
  | S _ :: sh =>
      Some (mkTensor sh (firstn (fold_right Nat.mul 1%nat sh) (data t)))
  end.

(** The fields [forward] sets on a sample for one network;
    [prev_res_list] is set only for a generator that returns a dict. *)
Record SampleFields : Type := mkFields {
  fake_img : Tensor;
  prev_res_list : option (list Tensor)
}.

(** [gen_sample.fake_img] and [gen_sample.prev_res_list], or the same under
    [gen_sample.ema] and [gen_sample.orig]. *)
Inductive SampleBody : Type :=
| Single (f : SampleFields)
| Dual (ema orig : SampleFields).

(** A [DataSample] as [forward] leaves it: the data sample it was updated
    from, if any, the fields set on it, and [sample_model]. *)
Record GenSample (D : Type) : Type := mkSample {
  updated_from : option D;
  body : SampleBody;
  sample_model : string
}.
Arguments mkSample {D} _ _ _.
Arguments updated_from {D} _.
Arguments body {D} _.
Arguments sample_model {D} _.

(** What [forward] calls and does not define, over data samples of type
    [D]. *)
Class Inference (D : Type) : Type := {
  (** [self._get_valid_model(inputs)] of the base class, [None] when it
      raises. *)
  get_valid_model : Config -> State -> gmap string PyVal -> option string;
  (** [generator(None, fixed_noises=..., noise_weights=..., rand_mode=...,
      num_batches=1, curr_scale=..., **gen_kwargs)] on the given network
      from the given position of the random stream: the output, [None]
      when the call raises, and the number of random draws made. *)
  gen_sample :
    Net -> list Tensor -> list R -> PyVal -> PyVal -> gmap string PyVal ->
    nat -> option GenOutput * nat;
  (** [self.data_preprocessor.destruct(batch, data_samples)], [None] when
      it raises. *)
  dp_destruct : Tensor -> option (list D) -> option Tensor
}.

(** The keywords the generator call spells out and that [forward] does not
    pop from the kwargs it adds with [**]. *)
Definition spelled_keywords : list string :=
  ["fixed_noises"; "noise_weights"; "rand_mode"].

(** A keyword of the call is given a second time by [**gen_kwargs]. *)
Definition repeated_keyword (gen_kwargs : gmap string PyVal) : bool :=
  existsb (fun k => bool_decide (is_Some (gen_kwargs !! k)))
          spelled_keywords.

(** [data_samples[idx]] under [if data_samples:], at [idx = 0]. *)
Definition update_source {D : Type} (data_samples : option (list D))
  : option D :=
  match data_samples with
  | Some (x :: _) => Some x
  | _ => None
  end.

(** The same computation from a state changed by [f]. *)
Definition res_with {A : Type} (f : State -> State) (r : Res A) : Res A :=
  match r with
  | Ok a s => Ok a (f s)
  | Raise e s => Raise e (f s)
  end.

(** All of the object but the position of the random stream. *)
Definition but_rng (s : State) : State := set_rng 0 s.

Section Forward.

Context {D : Type} {inf : Inference D}.
Variable cfg : Config.

(** One call of a generator network for a sample. Python refuses a
    repeated keyword before the network runs. *)
Definition call_for_sample (net : Net) (mode curr_scale : PyVal)
    (gen_kwargs : gmap string PyVal) : M GenOutput :=
  if repeated_keyword gen_kwargs
  then raise TypeError
  else
    fun s =>
      let (o, n) :=
        gen_sample net (fixed_noises s) (noise_weights s) mode curr_scale
          gen_kwargs (rng s) in
      let s' := set_rng (rng s + n)%nat s in
      match o with
      | Some out => Ok out s'
      | None => Raise (CollaboratorError "generator") s'
      end.

(** [self.generator_ema]: the attribute exists with an EMA
    configuration. *)
Definition get_generator_ema : M Net :=
  if with_ema_gen cfg
  then gets generator_ema
  else raise (AttributeError "generator_ema").

Definition destruct_one (t : Tensor) (data_samples : option (list D))
  : M Tensor :=
  of_option (dp_destruct t data_samples) (CollaboratorError "destruct").

(** [[self.data_preprocessor.destruct(r, data_samples) for r in l]] *)
Fixpoint destruct_all (l : list Tensor) (data_samples : option (list D))
  : M (list Tensor) :=
  match l with
  | [] => ret []
  | r :: l' =>
      let* r' := destruct_one r data_samples in
      let* l'' := destruct_all l' data_samples in
      ret (r' :: l'')
  end.

Definition first_of (t : Tensor) : M Tensor :=
  of_option (tensor_first t) IndexError.

(** [[r[idx] for r in l]] at [idx = 0] *)
Fixpoint first_of_all (l : list Tensor) : M (list Tensor) :=
  match l with
  | [] => ret []
  | r :: l' =>
      let* r' := first_of r in
      let* l'' := first_of_all l' in
      ret (r' :: l'')
  end.

(** What the loop over [range(num_batches)] reads from one destructed
    output. *)
Definition fields_of (o : GenOutput) : M SampleFields :=
  match o with
  | OutDict f p =>
      let* f0 := first_of f in
      let* p0 := first_of_all p in
      ret (mkFields f0 (Some p0))
  | OutTensor t =>
      let* t0 := first_of t in
      ret (mkFields t0 None)
  end.

(** The branch [sample_model in ['ema', 'orig']]. *)
Definition sample_single (sample_model : string) (mode curr_scale : PyVal)
    (gen_kwargs : gmap string PyVal) (data_samples : option (list D))
  : M (list (GenSample D)) :=
  let* net :=
    if String.eqb sample_model "ema" then get_generator_ema
    else gets generator in
  let* outputs := call_for_sample net mode curr_scale gen_kwargs in
  let* outputs :=
    match outputs with
    | OutDict fake prev =>
        let* fake' := destruct_one fake data_samples in
        let* prev' := destruct_all prev data_samples in
        (* the first [gen_sample], dropped by the loop below *)
        let* _ := destruct_one fake' data_samples in
        ret (OutDict fake' prev')
    | OutTensor t =>
        let* t' := destruct_one t data_samples in
        ret (OutTensor t')
    end in
  let* f := fields_of outputs in
  ret [mkSample (update_source data_samples) (Single f) sample_model].

(** The branch of any other [sample_model]: both networks, the
    generator first. Whether the outputs are dicts is asked of the
    generator's output alone. *)
Definition sample_both (sample_model : string) (mode curr_scale : PyVal)
    (gen_kwargs : gmap string PyVal) (data_samples : option (list D))
  : M (list (GenSample D)) :=
  let* net := gets generator in
  let* outputs_orig := call_for_sample net mode curr_scale gen_kwargs in
  let* net_ema := get_generator_ema in
  let* outputs_ema := call_for_sample net_ema mode curr_scale gen_kwargs in
  let* outputs :=
    match outputs_orig with
    | OutDict fake prev =>
        let* fake' := destruct_one fake data_samples in
        let* prev' := destruct_all prev data_samples in
        match outputs_ema with
        | OutDict efake eprev =>
            let* efake' := destruct_one efake data_samples in
            let* eprev' := destruct_all eprev data_samples in
            ret (OutDict fake' prev', OutDict efake' eprev')
        | OutTensor _ => raise IndexError   (* a tensor indexed by a str *)
        end
    | OutTensor t =>
        let* t' := destruct_one t data_samples in
        match outputs_ema with
        | OutTensor te =>
            let* te' := destruct_one te data_samples in
            ret (OutTensor t', OutTensor te')
        | OutDict _ _ =>           (* [destruct] is given tensors *)
            raise (CollaboratorError "destruct")
        end
    end in
  let* fe := fields_of (snd outputs) in
  let* fo := fields_of (fst outputs) in
  ret [mkSample (update_source data_samples) (Dual fe fo) sample_model].

Definition forward (inputs : ForwardInputs)
    (data_samples : option (list D)) (mode : PyVal)
  : M (list (GenSample D)) :=
  match inputs with
  | InTensor _ =>
      raise (AssertionError
               "SinGAN only support dict type inputs in forward function.")
  | InDict d =>
      let '(num_batches, gen_kwargs) :=
        dict_pop d "num_batches" (VInt 1) in
      let* _ :=
        py_assert (py_eq_one num_batches)
          ("SinGAN only support 'num_batches' as 1, but receive "
           +:+ py_format num_batches +:+ ".") in
      let* sample_model :=
        (fun s =>
           of_option (get_valid_model cfg s d)
                     (CollaboratorError "_get_valid_model") s) in
      let gen_kwargs := delete "sample_model" gen_kwargs in
      let '(mode, gen_kwargs) := dict_pop gen_kwargs "mode" mode in
      let mode := match mode with VNone => VStr "rand" | _ => mode end in
      let* stage := gets curr_stage in
      let '(curr_scale, gen_kwargs) :=
        dict_pop gen_kwargs "curr_scale" (VInt stage) in
      (* [x.to(device)] leaves the values as they are *)
      let* _ := modify (fun s => set_fixed_noises (fixed_noises s) s) in
      if String.eqb sample_model "ema" || String.eqb sample_model "orig"
      then sample_single sample_model mode curr_scale gen_kwargs
                         data_samples
      else sample_both sample_model mode curr_scale gen_kwargs
                       data_samples
  end.

End Forward.

(** What [forward] resolves from the dict and its [mode] argument. *)
Definition resolved_mode (d : gmap string PyVal) (mode : PyVal) : PyVal :=
  let m := default mode (d !! "mode") in
  match m with
  | VNone => VStr "rand"
  | _ => m
  end.

Definition resolved_scale (d : gmap string PyVal) (s : State) : PyVal :=
  default (VInt (curr_stage s)) (d !! "curr_scale").

(** The entries [forward] passes on to the generator. *)
Definition passed_kwargs (d : gmap string PyVal) : gmap string PyVal :=
  delete "curr_scale"
    (delete "mode" (delete "sample_model" (delete "num_batches" d))).

(** The keys [forward] pops. *)
Definition popped_keys : list string :=
  ["num_batches"; "sample_model"; "mode"; "curr_scale"].

(** [m] run from a state changed by [f] is [m] run from the state, changed
    by [f] afterwards. *)
Definition commutes {A : Type} (f : State -> State) (m : M A) : Prop :=
  forall s, m (f s) = res_with f (m s).

(** A change of the state that the generator calls do not see. *)
Definition unseen (f : State -> State) : Prop :=
  (forall s, fixed_noises (f s) = fixed_noises s)
  /\ (forall s, noise_weights (f s) = noise_weights s)
  /\ (forall s, rng (f s) = rng s)
  /\ (forall n s, set_rng n (f s) = f (set_rng n s)).

Section ForwardViews.

Context {D : Type} {inf : Inference D}.

(** The fields [f] of a sample are read from the output [o] of a
    network: its image, destructed once, at index 0; the intermediate
    results only for a dict, one per result of the network. *)
Definition read_from (ds : option (list D)) (o : GenOutput)
    (f : SampleFields) : Prop :=
  match o with
  | OutTensor t =>
      exists t', dp_destruct t ds = Some t'
                 /\ tensor_first t' = Some (fake_img f)
                 /\ prev_res_list f = None
  | OutDict fk pv =>
      exists fk' pv', dp_destruct fk ds = Some fk'
                      /\ tensor_first fk' = Some (fake_img f)
                      /\ prev_res_list f = Some pv'
                      /\ length pv' = length pv
  end.

End ForwardViews.

(** ** A small concrete instance

    Two scales of one channel, a generator that returns the fixed noise of
    the current scale, a discriminator that scores 0, optimizers that leave
    the parameters as they are. *)

Definition demo_env : Collaborators := {|
  gen_forward := fun _ _ fixed _ _ stage _ =>
    match Py.getitem fixed stage with
    | Some t => OutTensor t
    | None => OutTensor (mkTensor [] [])
    end;
  gen_draws := fun _ _ => 0%nat;
  disc_forward := fun _ _ _ => mkTensor [1%nat] [0%R];
  disc_input_grad := fun _ x _ => x;
  interpolate := fun _ size =>
    mkTensor ([1%nat; 1%nat] ++ size) (repeat 0%R (Torch.numel size));
  randn_src := fun n => INR n;
  rand_src := fun _ => 0%R;
  optim_update := fun r _ _ s =>
    match r with
    | Generator => generator s
    | Discriminator => discriminator s
    end;
  load_prev_weight := fun _ _ n => Some n;
  gather_log_vars := fun l => Some (List.concat l);
  read_pkl := fun _ => None
|}.

Definition demo_cfg (gs ds ips : Z) (nwi : R) (ema : bool) (start : Z)
  : Config :=
  mkConfig gs ds (Some 1) ips nwi false None ema start false (1 / 2)%R.

Definition demo_real0 : Tensor := mkTensor [1; 1; 1; 1]%nat [1%R].
Definition demo_real1 : Tensor := mkTensor [1; 1; 1; 2]%nat [1%R; 2%R].

Definition demo_batch : gmap string Tensor :=
  <["input_sample" := mkTensor [1; 1; 1; 1]%nat [0%R]]>
    (<["real_scale0" := demo_real0]> (<["real_scale1" := demo_real1]> ∅)).

Definition demo_optims (n : Z) : gmap string OptimWrapper :=
  <["generator_0" := mkOptim n]>
    (<["discriminator_0" := mkOptim n]>
       (<["generator_1" := mkOptim 1]>
          (<["discriminator_1" := mkOptim 1]> ∅))).

Definition demo_net : Net := mkNet [1%R; 2%R] [3%R].
Definition demo_shadow : Net := mkNet [5%R; 6%R] [7%R].

Definition demo_init : State := init_state demo_net demo_net demo_shadow 0.

(** The object once the pyramids are set, at stage 0. *)
Definition demo_trained : State :=
  mkState 0 [1%R]
    [mkTensor [1; 1; 1; 1]%nat [0%R]; Torch.zeros_like demo_real1]
    [demo_real0; demo_real1] false None demo_net demo_net demo_shadow true
    0 [].

(** Scores and images for the discriminator loss: one sample, one channel,
    two pixels. *)
Definition demo_scores : Tensor := mkTensor [1%nat] [0%R].
Definition demo_fake : Tensor := mkTensor [1; 1; 1; 2]%nat [1%R; 0%R].
Definition demo_real : Tensor := mkTensor [1; 1; 1; 2]%nat [5%R; 5%R].

(** The gradient the discriminator loss penalises on them: the instance's
    discriminator has the interpolated image itself as its gradient. *)
Definition demo_gradient : Tensor :=
  @disc_input_grad demo_env (discriminator demo_trained)
    (Torch.lerp_per_sample (map (@rand_src demo_env) (seq 0 1))
       demo_real demo_fake) 0.

(** The instance with a pickle file at [singan.pkl], holding a two-scale
    snapshot at stage 1. *)
Definition demo_pkl : PklData :=
  mkPkl [demo_real0; demo_real1] [1%R; 2%R] 1.

Definition demo_env_pkl : Collaborators := {|
  gen_forward := @gen_forward demo_env;
  gen_draws := @gen_draws demo_env;
  disc_forward := @disc_forward demo_env;
  disc_input_grad := @disc_input_grad demo_env;
  interpolate := @interpolate demo_env;
  randn_src := @randn_src demo_env;
  rand_src := @rand_src demo_env;
  optim_update := @optim_update demo_env;
  load_prev_weight := @load_prev_weight demo_env;
  gather_log_vars := @gather_log_vars demo_env;
  read_pkl := fun path =>
    if String.eqb path "singan.pkl" then Some demo_pkl else None
|}.

Definition demo_cfg_pkl (path : string) : Config :=
  mkConfig 1 1 (Some 1) 2 (1 / 10)%R false (Some path) false 0 false
    (1 / 2)%R.

(** The instance with a log gathering that raises. *)
Definition demo_env_nogather : Collaborators := {|
  gen_forward := @gen_forward demo_env;
  gen_draws := @gen_draws demo_env;
  disc_forward := @disc_forward demo_env;
  disc_input_grad := @disc_input_grad demo_env;
  interpolate := @interpolate demo_env;
  randn_src := @randn_src demo_env;
  rand_src := @rand_src demo_env;
  optim_update := @optim_update demo_env;
  load_prev_weight := @load_prev_weight demo_env;
  gather_log_vars := fun _ => None;
  read_pkl := @read_pkl demo_env
|}.

(** The instance for inference: a base class that reads ['sample_model']
    alone, with ['ema'] or ['orig'] as the default, a generator that returns
    a one-pixel image holding its first parameter and draws once, a
    preprocessor that returns the batch. *)
Definition demo_inference : Inference unit := {|
  get_valid_model := fun cfg _ d =>
    match d !! "sample_model" with
    | None | Some VNone =>
        Some (if with_ema_gen cfg then "ema" else "orig")
    | Some (VStr m) =>
        if String.eqb m "orig" then Some m
        else if String.eqb m "ema" || String.eqb m "ema/orig"
             then (if with_ema_gen cfg then Some m else None)
             else None
    | Some _ => None
    end;
  gen_sample := fun net _ _ _ _ _ _ =>
    (Some (OutTensor (mkTensor [1; 1; 1; 1]%nat [nth 0 (params net) 0%R])),
     1%nat);
  dp_destruct := fun t _ => Some t
|}.

Definition demo_inputs : gmap string PyVal :=
  <["num_batches" := VInt 1]> (<["sample_model" := VStr "ema/orig"]> ∅).

(** * Properties *)

(** ** Reasoning about computations *)

Lemma bind_Ok {A B : Type} (m : M A) (k : A -> M B) s b s' :
  bind m k s = Ok b s' ->
  exists a s1, m s = Ok a s1 /\ k a s1 = Ok b s'.
Proof.
  unfold bind. destruct (m s) as [a s1 | e s1]; intros H.
  - exists a, s1. split; [reflexivity | exact H].
  - discriminate H.
Qed.

Lemma keeps_ret {A B : Type} (f : State -> B) (a : A) : keeps f (ret a).
Proof. intros s. reflexivity. Qed.

Lemma keeps_raise {A B : Type} (f : State -> B) (e : Exn) :
  keeps f (@raise A e).
Proof. intros s. reflexivity. Qed.

Lemma keeps_gets {A B : Type} (f : State -> B) (g : State -> A) :
  keeps f (gets g).
Proof. intros s. reflexivity. Qed.

Lemma keeps_modify {B : Type} (f : State -> B) (g : State -> State) :
  (forall s, f (g s) = f s) -> keeps f (modify g).
Proof. intros H s. apply H. Qed.

Lemma keeps_bind {A B C : Type} (f : State -> C) (m : M A) (k : A -> M B) :
  keeps f m -> (forall a, keeps f (k a)) -> keeps f (bind m k).
Proof.
  intros Hm Hk s. unfold bind. specialize (Hm s).
  destruct (m s) as [a s1 | e s1]; simpl in *.
  - rewrite Hk. exact Hm.
  - exact Hm.
Qed.

Lemma keeps_of_option {A B : Type} (f : State -> B) (o : option A) e :
  keeps f (of_option o e).
Proof. destruct o; intros s; reflexivity. Qed.

(** The observation after [bind m k] is the one after [m] when the
    continuation keeps it. *)
Lemma final_bind_keeps {A B C : Type} (f : State -> C) (m : M A)
    (k : A -> M B) s :
  (forall a, keeps f (k a)) -> f (final (bind m k s)) = f (final (m s)).
Proof.
  intros Hk. unfold bind. destruct (m s) as [a s1 | e s1]; simpl.
  - apply Hk.
  - reflexivity.
Qed.

Lemma keeps_Ok {A B : Type} (f : State -> B) (m : M A) s a s' :
  keeps f m -> m s = Ok a s' -> f s' = f s.
Proof. intros H E. specialize (H s). rewrite E in H. exact H. Qed.

(** One step of a frame proof: split a bind, close a primitive, or case on
    the scrutinee of a conditional. *)
Ltac keeps_step :=
  lazymatch goal with
  | |- keeps _ (bind _ _) => apply keeps_bind; [ | intros ? ]
  | |- keeps _ (ret _) => apply keeps_ret
  | |- keeps _ (raise _) => apply keeps_raise
  | |- keeps _ (gets _) => apply keeps_gets
  | |- keeps _ (of_option _ _) => apply keeps_of_option
  | |- keeps _ (modify _) => apply keeps_modify; intros ?; reflexivity
  | |- keeps _ (if ?c then _ else _) => destruct c
  | |- keeps _ (match ?x with _ => _ end) => destruct x
  end.

Ltac keeps_prim :=
  unfold emit, py_mod, py_assert, list_get, dict_get, optim_get, mse_loss;
  repeat keeps_step.

Section Frames.

Context {env : Collaborators}.
Variable cfg : Config.

Lemma keeps_attrs_proj {A : Type} (m : M A) :
  keeps attrs m ->
  keeps curr_stage m /\ keeps noise_weights m /\ keeps fixed_noises m
  /\ keeps reals m /\ keeps loaded_test_pkl m.
Proof.
  intros H. repeat split; intros s; specialize (H s); unfold attrs in H;
    congruence.
Qed.

Lemma call_generator_keeps {B : Type} (f : State -> B) input mode :
  (forall n s, f (set_rng n s) = f s) ->
  keeps f (call_generator input mode).
Proof. intros H s. unfold call_generator. simpl. apply H. Qed.

Lemma draw_keeps {B : Type} (f : State -> B) src shp :
  (forall n s, f (set_rng n s) = f s) -> keeps f (draw src shp).
Proof. intros H s. unfold draw. simpl. apply H. Qed.

Lemma gen_loss_keeps {B : Type} (f : State -> B) d r :
  keeps f (gen_loss d r).
Proof. unfold gen_loss. keeps_prim. Qed.

Lemma disc_loss_keeps {B : Type} (f : State -> B) pf pr fd rd :
  (forall n s, f (set_rng n s) = f s) ->
  keeps f (disc_loss pf pr fd rd).
Proof.
  intros H. unfold disc_loss, rand.
  apply keeps_bind; [keeps_prim | intros ?].
  apply keeps_bind; [apply draw_keeps, H | intros ?].
  keeps_prim.
Qed.

Lemma update_params_keeps_attrs r w loss :
  keeps attrs (update_params r w loss).
Proof. unfold update_params. destruct r; keeps_prim. Qed.

Lemma update_params_keeps_ema r w loss :
  keeps generator_ema (update_params r w loss).
Proof. unfold update_params. destruct r; keeps_prim. Qed.

Lemma train_generator_keeps_attrs inputs w :
  keeps attrs (train_generator inputs w).
Proof.
  unfold train_generator, as_tensor.
  repeat first
    [ apply call_generator_keeps; intros; reflexivity
    | apply gen_loss_keeps
    | apply update_params_keeps_attrs
    | progress keeps_prim ].
Qed.

Lemma train_generator_keeps_ema inputs w :
  keeps generator_ema (train_generator inputs w).
Proof.
  unfold train_generator, as_tensor.
  repeat first
    [ apply call_generator_keeps; intros; reflexivity
    | apply gen_loss_keeps
    | apply update_params_keeps_ema
    | progress keeps_prim ].
Qed.

Lemma train_discriminator_keeps_attrs inputs w :
  keeps attrs (train_discriminator inputs w).
Proof.
  unfold train_discriminator, as_tensor.
  repeat first
    [ apply call_generator_keeps; intros; reflexivity
    | apply disc_loss_keeps; intros; reflexivity
    | apply update_params_keeps_attrs
    | progress keeps_prim ].
Qed.

Lemma train_discriminator_keeps_ema inputs w :
  keeps generator_ema (train_discriminator inputs w).
Proof.
  unfold train_discriminator, as_tensor.
  repeat first
    [ apply call_generator_keeps; intros; reflexivity
    | apply disc_loss_keeps; intros; reflexivity
    | apply update_params_keeps_ema
    | progress keeps_prim ].
Qed.

Lemma gen_rounds_keeps_attrs n inputs w :
  keeps attrs (gen_rounds n inputs w).
Proof.
  induction n as [| n IH]; simpl.
  - apply keeps_ret.
  - apply keeps_bind; [apply train_generator_keeps_attrs | intros ?].
    apply keeps_bind; [exact IH | intros ?]. apply keeps_ret.
Qed.

Lemma gen_rounds_keeps_ema n inputs w :
  keeps generator_ema (gen_rounds n inputs w).
Proof.
  induction n as [| n IH]; simpl.
  - apply keeps_ret.
  - apply keeps_bind; [apply train_generator_keeps_ema | intros ?].
    apply keeps_bind; [exact IH | intros ?]. apply keeps_ret.
Qed.

Lemma ema_after_generator_keeps_attrs i acc :
  keeps attrs (ema_after_generator cfg i acc).
Proof.
  unfold ema_after_generator, ema_update_parameters, ema_sync_buffers,
    ema_sync_parameters.
  keeps_prim.
Qed.

Lemma train_gan_keeps_attrs i inputs ow :
  keeps attrs (train_gan cfg i inputs ow).
Proof.
  unfold train_gan, set_requires_grad.
  repeat first
    [ apply train_discriminator_keeps_attrs
    | apply gen_rounds_keeps_attrs
    | apply ema_after_generator_keeps_attrs
    | progress keeps_prim ].
Qed.

End Frames.

Section StageControl.

Context {env : Collaborators}.
Variable cfg : Config.

Lemma construct_from_keeps {B : Type} (f : State -> B) i rs :
  (forall n s, f (set_rng n s) = f s) ->
  (forall v s, f (set_fixed_noises v s) = f s) ->
  keeps f (construct_from i rs).
Proof.
  intros Hr Hf. revert i. induction rs as [| real rest IH]; intros i; simpl.
  - apply keeps_ret.
  - apply keeps_bind; [unfold unpack_hw; keeps_prim | intros hw].
    apply keeps_bind.
    { destruct (i =? 0)%nat; [apply draw_keeps, Hr | apply keeps_ret]. }
    intros noise. apply keeps_bind; [ | intros _; apply IH].
    apply keeps_modify. intros s. apply Hf.
Qed.

Lemma collect_reals_keeps {B : Type} (f : State -> B) inputs ss :
  keeps f (collect_reals inputs ss).
Proof.
  induction ss as [| k rest IH]; simpl.
  - apply keeps_ret.
  - apply keeps_bind; [keeps_prim | intros ?].
    apply keeps_bind; [exact IH | intros ?]. apply keeps_ret.
Qed.

Lemma setup_pyramids_keeps {B : Type} (f : State -> B) inputs :
  (forall n s, f (set_rng n s) = f s) ->
  (forall v s, f (set_fixed_noises v s) = f s) ->
  (forall v s, f (set_reals v s) = f s) ->
  keeps f (setup_pyramids inputs).
Proof.
  intros Hr Hf Hre. unfold setup_pyramids, construct_fixed_noises.
  apply keeps_bind; [apply collect_reals_keeps | intros rs].
  apply keeps_bind; [apply keeps_modify; intros s; apply Hre | intros _].
  apply keeps_bind; [apply keeps_gets | intros rs'].
  apply construct_from_keeps; assumption.
Qed.

Lemma update_noise_weight_keeps {B : Type} (f : State -> B) inputs :
  (forall n s, f (set_rng n s) = f s) ->
  (forall v s, f (set_noise_weights v s) = f s) ->
  keeps f (update_noise_weight cfg inputs).
Proof.
  intros Hr Hn. unfold update_noise_weight.
  apply keeps_bind; [keeps_prim | intros ?].
  apply keeps_bind; [apply call_generator_keeps, Hr | intros ?].
  do 4 (apply keeps_bind; [keeps_prim | intros ?]).
  apply keeps_modify. intros s. apply Hn.
Qed.

Lemma scheduler_step_keeps {B : Type} (f : State -> B) :
  (forall v s, f (set_calls v s) = f s) -> keeps f scheduler_step.
Proof.
  intros Hc. unfold scheduler_step, emit.
  apply keeps_bind; [apply keeps_gets | intros [z |]].
  - apply keeps_bind; [ | intros _]; apply keeps_modify; intros s; apply Hc.
  - apply keeps_raise.
Qed.

Lemma check_and_load_prev_weight_keeps {B : Type} (f : State -> B) r k :
  (forall v s, f (set_calls v s) = f s) ->
  (forall v s, f (set_generator v s) = f s) ->
  (forall v s, f (set_discriminator v s) = f s) ->
  keeps f (check_and_load_prev_weight r k).
Proof.
  intros Hc Hg Hd. unfold check_and_load_prev_weight, emit.
  apply keeps_bind; [apply keeps_modify; intros s; apply Hc | intros _].
  apply keeps_bind; [apply keeps_gets | intros net].
  apply keeps_bind; [apply keeps_of_option | intros net'].
  apply keeps_modify. intros s. destruct r; [apply Hg | apply Hd].
Qed.

Lemma enter_next_stage_unfold ow :
  enter_next_stage cfg ow =
  (let* _ := modify (fun s => set_curr_stage (curr_stage s + 1) s) in
   after_increment cfg ow).
Proof. reflexivity. Qed.

Lemma after_increment_keeps {B : Type} (f : State -> B) ow :
  (forall v s, f (set_calls v s) = f s) ->
  (forall v s, f (set_generator v s) = f s) ->
  (forall v s, f (set_discriminator v s) = f s) ->
  (forall v s, f (set_schedulers v s) = f s) ->
  keeps f (after_increment cfg ow).
Proof.
  intros Hc Hg Hd Hs. unfold after_increment.
  apply keeps_bind; [apply keeps_gets | intros k].
  do 2 (apply keeps_bind;
        [apply check_and_load_prev_weight_keeps; assumption | intros _]).
  do 4 (apply keeps_bind; [keeps_prim | intros ?]).
  destruct (lr_scheduler_args cfg); [ | apply keeps_ret].
  apply keeps_bind; [apply keeps_modify; intros s; apply Hs | intros _].
  unfold emit. apply keeps_modify. intros s. apply Hc.
Qed.

Lemma enter_next_stage_stage ow s :
  curr_stage (final (enter_next_stage cfg ow s)) = curr_stage s + 1.
Proof.
  rewrite enter_next_stage_unfold.
  rewrite (final_bind_keeps curr_stage).
  - reflexivity.
  - intros _. apply after_increment_keeps; intros; reflexivity.
Qed.

Lemma enter_next_stage_keeps {B : Type} (f : State -> B) ow :
  (forall v s, f (set_calls v s) = f s) ->
  (forall v s, f (set_generator v s) = f s) ->
  (forall v s, f (set_discriminator v s) = f s) ->
  (forall v s, f (set_schedulers v s) = f s) ->
  (forall v s, f (set_curr_stage v s) = f s) ->
  keeps f (enter_next_stage cfg ow).
Proof.
  intros Hc Hg Hd Hs Hst. rewrite enter_next_stage_unfold.
  apply keeps_bind; [apply keeps_modify; intros s; apply Hst | intros _].
  apply after_increment_keeps; assumption.
Qed.

Lemma train_step_unfold i inputs ow :
  train_step cfg i inputs ow =
  (let* m := py_mod i (iters_per_scale cfg * discriminator_steps cfg) in
   let* _ := (if m =? 0 then enter_next_stage cfg ow else ret tt) in
   after_transition cfg i inputs ow).
Proof. reflexivity. Qed.

Lemma after_transition_keeps_stage i inputs ow :
  keeps curr_stage (after_transition cfg i inputs ow).
Proof.
  unfold after_transition.
  do 4 (apply keeps_bind; [keeps_prim | intros ?]).
  apply keeps_bind.
  { destruct (_ || _); [ | apply keeps_ret].
    apply setup_pyramids_keeps; intros; reflexivity. }
  intros _. apply keeps_bind.
  { apply (keeps_attrs_proj _ (train_gan_keeps_attrs cfg i inputs _)). }
  intros lv. do 3 (apply keeps_bind; [keeps_prim | intros ?]).
  apply keeps_bind.
  { destruct (_ && _); [ | apply keeps_ret].
    apply update_noise_weight_keeps; intros; reflexivity. }
  intros _. apply keeps_bind; [keeps_prim | intros ?].
  apply keeps_bind; [ | intros _; apply keeps_ret].
  destruct (_ =? 0); [ | apply keeps_ret].
  destruct (lr_scheduler_args cfg); [ | apply keeps_ret].
  apply scheduler_step_keeps; intros; reflexivity.
Qed.

(** One tick, whatever its outcome: the stage is the old one, plus one
    exactly when the transition fires. *)
Lemma train_step_stage i inputs ow s :
  curr_stage (final (train_step cfg i inputs ow s)) =
  curr_stage s + (if transition_fires cfg i then 1 else 0).
Proof.
  rewrite train_step_unfold. unfold transition_fires, py_mod.
  set (w := iters_per_scale cfg * discriminator_steps cfg).
  destruct (w =? 0) eqn:Ew; simpl.
  - unfold bind, raise. simpl. lia.
  - unfold bind at 1. unfold ret at 1.
    rewrite (final_bind_keeps curr_stage).
    2: { intros _. apply after_transition_keeps_stage. }
    destruct (i `mod` w =? 0);
      try rewrite enter_next_stage_stage; simpl; lia.
Qed.

End StageControl.

(** Inverting a computation that returned: case on every scrutinee the
    hypothesis exposes, dropping the branches that raise, and read the
    final state off the equation that is left. *)
Ltac run_inv H :=
  cbn beta iota in H;
  lazymatch type of H with
  | context [match ?x with _ => _ end] =>
      let E := fresh "E" in
      destruct x eqn:E; try discriminate H; run_inv E; run_inv H
  | Ok _ _ = Ok _ _ => injection H as H1 H2; subst
  | Raise _ _ = Raise _ _ => injection H as H1 H2; subst
  | Some _ = Some _ => injection H as H; subst
  | _ => idtac
  end.

Ltac unfold_prims H :=
  unfold emit, py_mod, py_assert, list_get, dict_get, optim_get, mse_loss,
    as_tensor in H;
  unfold bind, gets, modify, of_option in H;
  unfold ret, raise in H.

Ltac unfold_prims_goal :=
  unfold emit, py_mod, py_assert, list_get, dict_get, optim_get, mse_loss,
    as_tensor;
  unfold bind, gets, modify, of_option;
  unfold ret, raise.

Section UpdateRounds.

Context {env : Collaborators}.
Variable cfg : Config.

Lemma train_discriminator_Ok inputs w s lv s' :
  train_discriminator inputs w s = Ok lv s' ->
  Py.getitem (reals s) (curr_stage s) <> None
  /\ calls s' = calls s ++ [UpdateParams Discriminator]
  /\ generator s' = generator s.
Proof.
  intros H. unfold train_discriminator, call_generator, disc_loss,
    update_params, rand, draw in H.
  unfold_prims H. simpl in H. run_inv H.
  simpl. repeat split; congruence.
Qed.

Lemma train_generator_Ok inputs w s lv s' :
  train_generator inputs w s = Ok lv s' ->
  calls s' = calls s ++ [UpdateParams Generator]
  /\ disc_requires_grad s' = disc_requires_grad s.
Proof.
  intros H. unfold train_generator, call_generator, gen_loss,
    update_params in H.
  unfold_prims H. simpl in H. run_inv H.
  simpl. split; reflexivity.
Qed.

Lemma gen_rounds_Ok n inputs w s l s' :
  gen_rounds n inputs w s = Ok l s' ->
  calls s' = calls s ++ repeat (UpdateParams Generator) n.
Proof.
  revert s l s'. induction n as [| n IH]; intros s l s' H; simpl in H.
  - injection H as _ <-. rewrite app_nil_r. reflexivity.
  - apply bind_Ok in H. destruct H as (lv & s1 & H1 & H).
    apply bind_Ok in H. destruct H as (rest & s2 & H2 & H).
    injection H as _ <-.
    apply train_generator_Ok in H1. destruct H1 as [H1 _].
    apply IH in H2. rewrite H2, H1. simpl.
    rewrite <- app_assoc. reflexivity.
Qed.

Lemma ema_after_generator_Ok i acc s u s' :
  ema_after_generator cfg i acc s = Ok u s' ->
  calls s' = calls s ++ ema_calls cfg i acc
  /\ generator s' = generator s
  /\ disc_requires_grad s' = disc_requires_grad s
  /\ generator_ema s' = shadow_after cfg i acc (generator_ema s) (generator s).
Proof.
  unfold ema_after_generator, ema_calls, shadow_after,
    ema_update_parameters, ema_sync_buffers, ema_sync_parameters.
  intros H. unfold_prims H.
  destruct (with_ema_gen cfg && _); [ | destruct (with_ema_gen cfg)];
    [ destruct (update_buffers cfg) | | ]; simpl in H;
    injection H as _ <-; simpl; rewrite ?app_nil_r, <- ?app_assoc;
    repeat split; reflexivity.
Qed.

(** A [train_gan] that returned: the divisor of its counter is not 0,
    the stage has a real image, and its calls and shadow are the ones of
    [train_gan_calls] and [shadow_after]. *)
Lemma train_gan_Ok i inputs ow s lv s' :
  train_gan cfg i inputs ow s = Ok lv s' ->
  let acc_d := accumulative_counts (optim_discriminator ow) in
  discriminator_steps cfg * acc_d <> 0
  /\ Py.getitem (reals s) (curr_stage s) <> None
  /\ calls s' = calls s ++ train_gan_calls cfg i ow
  /\ (if generator_fires cfg i acc_d
      then disc_requires_grad s' = true
           /\ generator_ema s' = shadow_after cfg i acc_d (generator_ema s)
                                   (generator s')
      else generator_ema s' = generator_ema s).
Proof.
  intros H. cbv zeta. unfold train_gan in H.
  apply bind_Ok in H. destruct H as (lv0 & s1 & H1 & H).
  pose proof (keeps_Ok generator_ema _ _ _ _
                (train_discriminator_keeps_ema inputs _) H1) as He1.
  apply train_discriminator_Ok in H1. destruct H1 as (Hget & Hc1 & _).
  apply bind_Ok in H. destruct H as (m & s2 & H2 & H).
  unfold py_mod in H2.
  destruct (_ =? 0) eqn:Ew in H2; [discriminate H2 | ].
  injection H2 as <- <-. apply Z.eqb_neq in Ew.
  split; [exact Ew | ]. split; [exact Hget | ].
  unfold train_gan_calls, generator_fires.
  destruct (_ =? 0).
  - unfold set_requires_grad in H. unfold_prims H. simpl in H.
    run_inv H.
    pose proof (keeps_Ok generator_ema _ _ _ _
                  (gen_rounds_keeps_ema _ inputs _) E) as He2.
    apply gen_rounds_Ok in E. simpl in E, He2.
    apply ema_after_generator_Ok in E0.
    destruct E0 as (E0 & Hg & Hrg & Hema).
    simpl in E0, Hg, Hrg, Hema. split; [ | split; [exact Hrg | ]].
    + rewrite E0, E, Hc1. simpl. rewrite <- !app_assoc. reflexivity.
    + rewrite Hema, Hg, He2, He1. reflexivity.
  - injection H as _ <-. split; [ | exact He1].
    rewrite Hc1. reflexivity.
Qed.

End UpdateRounds.

Section Calibration.

Context {env : Collaborators}.
Variable cfg : Config.

Lemma update_noise_weight_Ok inputs s u s' :
  update_noise_weight cfg inputs s = Ok u s' ->
  exists input next,
    inputs !! "input_sample" = Some input
    /\ Py.getitem (reals s) (curr_stage s + 1) = Some next
    /\ shape (recon_upsampled input s (rng s) next) = shape next
    /\ noise_weights s' =
       noise_weights s
       ++ [calibrated_weight cfg (recon_upsampled input s (rng s) next) next]
    /\ generator s' = generator s
    /\ fixed_noises s' = fixed_noises s
    /\ reals s' = reals s
    /\ curr_stage s' = curr_stage s
    /\ calls s' = calls s.
Proof.
  intros H. unfold update_noise_weight, call_generator in H.
  unfold_prims H. simpl in H. run_inv H.
  all: match goal with
       | Ei : _ !! _ = Some ?a, Er : Py.getitem _ _ = Some ?n |- _ =>
           exists a, n
       end.
  all: match goal with
       | Es : Torch.same_shape _ _ = true |- _ =>
           unfold Torch.same_shape in Es; apply bool_decide_eq_true in Es
       end.
  all: unfold recon_upsampled, calibrated_weight.
  all: match goal with
       | Eg : gen_forward _ _ _ _ _ _ _ = _ |- _ => rewrite Eg
       end.
  all: simpl; repeat split; try reflexivity; assumption.
Qed.

Lemma scheduler_step_Ok s u s' :
  scheduler_step s = Ok u s' -> attrs s' = attrs s
  /\ generator s' = generator s /\ generator_ema s' = generator_ema s.
Proof.
  intros H. unfold scheduler_step in H. unfold_prims H. run_inv H.
  repeat split.
Qed.

Lemma after_transition_Ok i inputs ow s lv s' :
  after_transition cfg i inputs ow s = Ok lv s' ->
  curr_stage s' = curr_stage s
  /\ Py.getitem (reals s') (curr_stage s') <> None
  /\ iters_per_scale cfg * discriminator_steps cfg <> 0
  /\ (if calibration_fires cfg i s'
      then exists input next pos,
          inputs !! "input_sample" = Some input
          /\ Py.getitem (reals s') (curr_stage s' + 1) = Some next
          /\ let up := recon_upsampled input
                         (set_noise_weights (noise_weights s) s') pos next in
             shape up = shape next
             /\ noise_weights s' =
                noise_weights s ++ [calibrated_weight cfg up next]
      else noise_weights s' = noise_weights s).
Proof.
  intros H.
  pose proof (keeps_Ok curr_stage _ _ _ _
                (after_transition_keeps_stage cfg i inputs ow) H) as Hst.
  split; [exact Hst | ].
  unfold after_transition in H.
  apply bind_Ok in H. destruct H as (k & s0 & E & H).
  injection E as <- <-.
  apply bind_Ok in H. destruct H as (g & s0 & E & H).
  unfold optim_get, of_option in E.
  destruct (ow !! _); [ | discriminate E]. injection E as <- <-.
  apply bind_Ok in H. destruct H as (d & s0 & E & H).
  unfold optim_get, of_option in E.
  destruct (ow !! _); [ | discriminate E]. injection E as <- <-.
  apply bind_Ok in H. destruct H as (n & s0 & E & H).
  injection E as <- <-.
  apply bind_Ok in H. destruct H as (u & s1 & Esetup & H).
  assert (Hs1 : curr_stage s1 = curr_stage s
                /\ noise_weights s1 = noise_weights s).
  { destruct (_ || _).
    - split.
      + apply (keeps_Ok curr_stage _ _ _ _
                 (setup_pyramids_keeps curr_stage inputs
                    ltac:(reflexivity) ltac:(reflexivity)
                    ltac:(reflexivity)) Esetup).
      + apply (keeps_Ok noise_weights _ _ _ _
                 (setup_pyramids_keeps noise_weights inputs
                    ltac:(reflexivity) ltac:(reflexivity)
                    ltac:(reflexivity)) Esetup).
    - injection Esetup as _ <-. split; reflexivity. }
  destruct Hs1 as [Hs1 Hn1].
  apply bind_Ok in H. destruct H as (lv1 & s2 & Egan & H).
  pose proof (keeps_Ok attrs _ _ _ _
                (train_gan_keeps_attrs cfg i inputs _) Egan) as Ha2.
  apply train_gan_Ok in Egan. destruct Egan as (_ & Hget & _).
  unfold attrs in Ha2. injection Ha2 as Hst2 Hn2 Hf2 Hr2 _.
  apply bind_Ok in H. destruct H as (k' & s0 & E & H).
  injection E as <- <-.
  apply bind_Ok in H. destruct H as (m' & s0 & E & H).
  unfold py_mod in E.
  destruct (_ =? 0) eqn:Ew in E; [discriminate E | ].
  injection E as <- <-. apply Z.eqb_neq in Ew.
  apply bind_Ok in H. destruct H as (n' & s0 & E & H).
  injection E as <- <-.
  apply bind_Ok in H. destruct H as (u' & s3 & Ecal & H).
  apply bind_Ok in H. destruct H as (m'' & s0 & E & H).
  unfold py_mod in E.
  destruct (_ =? 0) in E; [discriminate E | ]. injection E as <- <-.
  apply bind_Ok in H. destruct H as (u'' & s4 & Esch & H).
  injection H as _ <-.
  assert (Hs4 : attrs s4 = attrs s3 /\ generator s4 = generator s3).
  { destruct (_ =? 0) in Esch;
      [destruct (lr_scheduler_args cfg) | ];
      try (injection Esch as _ <-; split; reflexivity).
    apply scheduler_step_Ok in Esch. destruct Esch as (? & ? & _).
    split; assumption. }
  destruct Hs4 as [Ha4 Hg4]. unfold attrs in Ha4.
  injection Ha4 as Hst4 Hn4 Hf4 Hr4 _.
  unfold calibration_fires.
  destruct (_ && _) eqn:Ecnd in Ecal.
  - apply update_noise_weight_Ok in Ecal.
    destruct Ecal as (input & next & Hin & Hnext & Hshape & Hw & Hg3
                      & Hf3 & Hr3 & Hst3 & _).
    rewrite Hst4, Hr4, Hst3, Hr3, Ecnd.
    split; [congruence | ]. split; [exact Ew | ].
    exists input, next, (rng s2). split; [exact Hin | ].
    split; [exact Hnext | ].
    assert (Hup : recon_upsampled input
                    (set_noise_weights (noise_weights s) s4) (rng s2) next
                  = recon_upsampled input s2 (rng s2) next).
    { unfold recon_upsampled. simpl.
      rewrite Hg4, Hg3, Hf4, Hf3, Hst4, Hst3. do 3 f_equal. congruence. }
    cbv zeta. rewrite Hup. split; [exact Hshape | ].
    rewrite Hn4, Hw. congruence.
  - injection Ecal as _ <-.
    rewrite Hst4, Hr4, Ecnd.
    split; [congruence | ]. split; [exact Ew | ]. congruence.
Qed.

End Calibration.

Section Runs.

Context {env : Collaborators}.
Variable cfg : Config.

Lemma getitem_in_range {A : Type} (l : list A) (i : Z) :
  Py.getitem l i <> None ->
  - Z.of_nat (length l) <= i < Z.of_nat (length l).
Proof.
  unfold Py.getitem. intros H.
  destruct ((0 <=? i) && (i <? Z.of_nat (length l))) eqn:E1.
  - apply andb_true_iff in E1. lia.
  - destruct ((- Z.of_nat (length l) <=? i) && (i <? 0)) eqn:E2.
    + apply andb_true_iff in E2. lia.
    + contradiction H. reflexivity.
Qed.

Lemma div_step (n w : Z) :
  0 < w ->
  n / w = (n - 1) / w + (if n mod w =? 0 then 1 else 0).
Proof.
  intros Hw. pose proof (Z.div_mod n w ltac:(lia)) as Hdm.
  pose proof (Z.mod_pos_bound n w Hw) as Hb.
  destruct (n mod w =? 0) eqn:E.
  - apply Z.eqb_eq in E.
    assert ((n - 1) / w = n / w - 1); [ | lia].
    symmetry. apply (Z.div_unique _ _ _ (w - 1)); lia.
  - apply Z.eqb_neq in E.
    assert ((n - 1) / w = n / w); [ | lia].
    symmetry. apply (Z.div_unique _ _ _ (n mod w - 1)); lia.
Qed.

(** A tick that returns has gone through both halves. *)
Lemma train_step_Ok i inputs ow s lv s' :
  train_step cfg i inputs ow s = Ok lv s' ->
  exists s1,
    after_transition cfg i inputs ow s1 = Ok lv s'
    /\ noise_weights s1 = noise_weights s
    /\ generator_ema s1 = generator_ema s.
Proof.
  rewrite train_step_unfold. intros H.
  apply bind_Ok in H. destruct H as (m & s0 & E & H).
  unfold py_mod in E. destruct (_ =? 0) in E; [discriminate E | ].
  injection E as <- <-.
  apply bind_Ok in H. destruct H as (u & s1 & E & H).
  exists s1. split; [exact H | ].
  destruct (_ =? 0) in E.
  - split.
    + apply (keeps_Ok noise_weights _ _ _ _
               (enter_next_stage_keeps cfg noise_weights ow
                  ltac:(reflexivity) ltac:(reflexivity) ltac:(reflexivity)
                  ltac:(reflexivity) ltac:(reflexivity)) E).
    + apply (keeps_Ok generator_ema _ _ _ _
               (enter_next_stage_keeps cfg generator_ema ow
                  ltac:(reflexivity) ltac:(reflexivity) ltac:(reflexivity)
                  ltac:(reflexivity) ltac:(reflexivity)) E).
  - injection E as _ <-. split; reflexivity.
Qed.

Lemma train_loop_stage n batch ow s0 s' :
  0 < iters_per_scale cfg * discriminator_steps cfg ->
  train_loop cfg n batch ow s0 = Ok tt s' ->
  curr_stage s' =
  curr_stage s0 + 1
  + (Z.of_nat n - 1) / (iters_per_scale cfg * discriminator_steps cfg).
Proof.
  intros Hw. revert s'. induction n as [| n IH]; intros s' H.
  - simpl in H. injection H as <-.
    replace ((Z.of_nat 0 - 1) / _) with (-1); [lia | ].
    apply (Z.div_unique _ _ _
      (iters_per_scale cfg * discriminator_steps cfg - 1)); lia.
  - simpl in H.
    apply bind_Ok in H. destruct H as ([] & s1 & E1 & H).
    apply bind_Ok in H. destruct H as (lv & s2 & E2 & H).
    injection H as <-.
    pose proof (train_step_stage cfg (Z.of_nat n) (batch n) ow s1) as Hst.
    rewrite E2 in Hst. simpl in Hst. rewrite Hst, (IH _ E1).
    unfold transition_fires.
    replace (Z.of_nat (S n) - 1) with (Z.of_nat n) by lia.
    rewrite (div_step (Z.of_nat n) _ Hw).
    destruct (_ =? 0) eqn:E0; [apply Z.eqb_eq in E0; lia | ].
    simpl. lia.
Qed.

(** The last tick of a run that returned found its stage's image. *)
Lemma train_loop_in_range n batch ow s0 s' :
  train_loop cfg (S n) batch ow s0 = Ok tt s' ->
  Py.getitem (reals s') (curr_stage s') <> None.
Proof.
  intros H. simpl in H.
  apply bind_Ok in H. destruct H as ([] & s1 & E1 & H).
  apply bind_Ok in H. destruct H as (lv & s2 & E2 & H).
  injection H as <-.
  apply train_step_Ok in E2. destruct E2 as (s3 & E2 & _).
  apply after_transition_Ok in E2. tauto.
Qed.

End Runs.

Section Losses.

Context {env : Collaborators}.

Lemma numel_b111 (b : nat) : Torch.numel [b; 1; 1; 1]%nat = b.
Proof. unfold Torch.numel. simpl. lia. Qed.

(** The value of [disc_loss] on 4-D images of one shape. *)
Lemma disc_loss_value (f r fake real : Tensor) (s : State)
    (b c h w : nat) (norms : Tensor) :
  shape real = [b; c; h; w] ->
  shape fake = shape real ->
  Torch.norm2_dim1
    (disc_input_grad (discriminator s)
       (Torch.lerp_per_sample (map rand_src (seq (rng s) b)) real fake)
       (curr_stage s)) = Some norms ->
  exists log_vars,
    disc_loss f r fake real s =
    Ok ((Torch.mean f - Torch.mean r
         + 0.1 * Torch.mean_sq_dev1 (data norms))%R, log_vars)
       (set_rng (rng s + b) s).
Proof.
  intros Hreal Hfake Hnorm.
  unfold disc_loss, rand, draw. unfold_prims_goal.
  rewrite Hreal.
  cbn -[Torch.numel Torch.lerp_per_sample Torch.norm2_dim1 parse_losses
        Torch.same_shape].
  rewrite numel_b111.
  unfold Torch.same_shape. rewrite Hfake.
  rewrite bool_decide_eq_true_2 by reflexivity.
  cbn -[Torch.lerp_per_sample Torch.norm2_dim1 parse_losses].
  rewrite Hnorm. unfold parse_losses. simpl.
  eexists. f_equal. f_equal. ring.
Qed.

End Losses.

(** Square roots of sums that are 0 or 1. *)
Ltac sqrt_01 :=
  repeat match goal with
         | |- context [sqrt ?x] =>
             first
               [ assert (sqrt x = 1%R) as ->
                   by (replace x with 1%R by lra; apply sqrt_1)
               | assert (sqrt x = 0%R) as ->
                   by (replace x with 0%R by lra; apply sqrt_0) ]
         end.

Section FixedNoises.

Context {env : Collaborators}.

Lemma last2_two {A : Type} (l : list A) :
  (2 <= length l)%nat -> exists h w, Py.last2 l = [h; w].
Proof.
  intros Hl. unfold Py.last2.
  assert (Hlen : length (skipn (length l - 2) l) = 2%nat)
    by (rewrite length_skipn; lia).
  destruct (skipn (length l - 2) l) as [| h [| w [| x t]]];
    try discriminate Hlen.
  exists h, w. reflexivity.
Qed.

Lemma numel_11hw (h w : nat) :
  Torch.numel [1; 1; h; w]%nat = (h * w)%nat.
Proof. unfold Torch.numel. simpl. lia. Qed.

(** From the second image on, the loop appends one all-zero tensor per
    image and draws nothing. *)
Lemma construct_from_tail (i : nat) (rs : list Tensor) (s : State) :
  Forall (fun real => (2 <= length (shape real))%nat) rs ->
  construct_from (S i) rs s =
  Ok tt (set_fixed_noises (fixed_noises s ++ map Torch.zeros_like rs) s).
Proof.
  revert i s. induction rs as [| real rest IH]; intros i s Hall.
  - simpl. unfold ret. rewrite app_nil_r. destruct s; reflexivity.
  - inversion Hall as [| ? ? Hreal Hrest]; subst.
    destruct (last2_two _ Hreal) as (h & w & Hhw).
    simpl. unfold unpack_hw. rewrite Hhw.
    unfold bind, ret, modify. rewrite (IH (S i) _ Hrest).
    simpl. rewrite <- app_assoc. reflexivity.
Qed.

(** The whole loop on a pyramid whose first image is [real0]. *)
Lemma construct_fixed_noises_value (s : State) real0 rest h w :
  reals s = real0 :: rest ->
  Py.last2 (shape real0) = [h; w] ->
  Forall (fun real => (2 <= length (shape real))%nat) rest ->
  construct_fixed_noises s =
  Ok tt
    (set_fixed_noises
       (fixed_noises s
        ++ mkTensor [1; 1; h; w]%nat
             (map randn_src (seq (rng s) (h * w)))
           :: map Torch.zeros_like rest)
       (set_rng (rng s + h * w) s)).
Proof.
  intros Hr Hhw Hall. unfold construct_fixed_noises.
  unfold bind at 1. unfold gets. rewrite Hr.
  simpl. unfold unpack_hw. rewrite Hhw.
  unfold bind, ret, modify, randn, draw. rewrite numel_11hw.
  rewrite (construct_from_tail 0 rest _ Hall).
  simpl. rewrite <- app_assoc. reflexivity.
Qed.

End FixedNoises.

(** * The claims *)

(** ** C1: the stage along the ticks *)

(** C1 (amended). With [window = iters_per_scale * discriminator_steps]:
    whatever a tick at index [i] does (return or raise), it leaves the stage
    as it was or one higher, and one higher exactly when [window] is not 0
    and [i mod window = 0]. For a positive window, after a run of the ticks
    [0..n] from a fresh object that all returned, the stage is
    [floor(n / window)], it lies within [0, len(reals) - 1], and so it is
    also the value the clipped formula gives. Nothing clips: only ticks that
    return are covered. *)
Theorem train_step_stage_schedule `{Collaborators} (cfg : Config) :
  let window := iters_per_scale cfg * discriminator_steps cfg in
  (forall i inputs ow s,
      let s' := final (train_step cfg i inputs ow s) in
      curr_stage s <= curr_stage s' <= curr_stage s + 1
      /\ (curr_stage s' = curr_stage s + 1
          <-> window <> 0 /\ i mod window = 0))
  /\ (forall n batch ow g d e seed s',
         0 < window ->
         train_loop cfg (S n) batch ow (init_state g d e seed) = Ok tt s' ->
         curr_stage s' = Z.of_nat n / window
         /\ 0 <= curr_stage s' <= Z.of_nat (length (reals s')) - 1
         /\ curr_stage s' =
            spec_stage (Z.of_nat n) window (Z.of_nat (length (reals s')))).
Proof.
  cbv zeta. split.
  - intros i inputs ow s. rewrite train_step_stage. unfold transition_fires.
    destruct (_ =? 0) eqn:Ew; simpl.
    + apply Z.eqb_eq in Ew. split; [lia | ]. split; [lia | tauto].
    + apply Z.eqb_neq in Ew. destruct (_ =? 0) eqn:Em.
      * apply Z.eqb_eq in Em. split; [lia | ]. tauto.
      * apply Z.eqb_neq in Em. split; [lia | ]. split; [lia | tauto].
  - intros n batch ow g d e seed s' Hw Hrun.
    pose proof (train_loop_stage cfg _ _ _ _ _ Hw Hrun) as Hst.
    pose proof (getitem_in_range _ _ (train_loop_in_range cfg _ _ _ _ _ Hrun))
      as Hrange.
    simpl in Hst. replace (Z.of_nat (S n) - 1) with (Z.of_nat n) in Hst by lia.
    assert (Hq : 0 <= Z.of_nat n / (iters_per_scale cfg * discriminator_steps cfg)).
    { apply Z.div_pos; lia. }
    assert (Hs : curr_stage s'
                 = Z.of_nat n / (iters_per_scale cfg * discriminator_steps cfg))
      by lia.
    split; [exact Hs | ]. split; [lia | ].
    unfold spec_stage. lia.
Qed.

(** Four ticks of the two-scale instance with a window of 2 end in stage 1. *)
Lemma train_step_stage_schedule_witness :
  exists s',
    @train_loop demo_env (demo_cfg 1 1 2 (1 / 10) false 0) 4
      (fun _ => demo_batch) (demo_optims 1) demo_init = Ok tt s'
    /\ curr_stage s' = 1.
Proof.
  destruct (@train_loop demo_env (demo_cfg 1 1 2 (1 / 10) false 0) 4
              (fun _ => demo_batch) (demo_optims 1) demo_init)
    as [[] s' | e s'] eqn:E.
  - exists s'. split; [reflexivity | ].
    destruct (@train_step_stage_schedule demo_env
                (demo_cfg 1 1 2 (1 / 10) false 0)) as [_ Hrun].
    destruct (Hrun 3%nat _ _ _ _ _ _ s' ltac:(reflexivity) E) as (Hs & _).
    rewrite Hs. reflexivity.
  - vm_compute in E. discriminate E.
Defined.

(** C1 as stated fails: with two scales and a window of 2, the tick at
    index 4 raises and leaves the stage at 2, where the clipped formula
    gives 1. *)
Lemma stage_not_clipped :
  exists e s',
    @train_loop demo_env (demo_cfg 1 1 2 (1 / 10) false 0) 5
      (fun _ => demo_batch) (demo_optims 1) demo_init = Raise e s'
    /\ length (reals s') = 2%nat
    /\ curr_stage s' = 2
    /\ curr_stage s' <> spec_stage 4 (2 * 1) (Z.of_nat (length (reals s'))).
Proof.
  destruct (@train_loop demo_env (demo_cfg 1 1 2 (1 / 10) false 0) 5
              (fun _ => demo_batch) (demo_optims 1) demo_init)
    as [[] s' | e s'] eqn:E.
  - vm_compute in E. discriminate E.
  - exists e, s'. split; [reflexivity | ].
    vm_compute in E. injection E as <- <-.
    repeat split. vm_compute. discriminate.
Qed.

(** ** C2: the alternation inside one tick *)

(** C2. A [train_gan] that returns has made these calls, in this order: one
    discriminator update round; then, exactly when
    [(i + 1) mod (discriminator_steps * disc_accum) = 0], the freezing of
    the discriminator, [generator_steps * gen_accum] generator update rounds
    in a row (none for a count that is not positive, as [range] has it), the
    unfreezing, and the calls of the shadow model. When the counter fires the
    discriminator ends unfrozen; when it does not, no generator round ran. *)
Theorem train_gan_alternation `{Collaborators} (cfg : Config)
    (i : Z) (inputs : gmap string Tensor) (ow : OptimPair) (s : State)
    (lv : Py.dict) (s' : State) :
  train_gan cfg i inputs ow s = Ok lv s' ->
  let acc_d := accumulative_counts (optim_discriminator ow) in
  let total :=
    generator_steps cfg * accumulative_counts (optim_generator ow) in
  let fires := (i + 1) mod (discriminator_steps cfg * acc_d) =? 0 in
  calls s' =
    calls s
    ++ UpdateParams Discriminator
       :: (if fires
           then [SetRequiresGrad Discriminator false;
                 InitializeCountStatus total]
                ++ repeat (UpdateParams Generator) (Z.to_nat total)
                ++ [SetRequiresGrad Discriminator true]
                ++ ema_calls cfg i acc_d
           else [])
  /\ (fires = true -> disc_requires_grad s' = true)
  /\ (fires = false ->
      count_occ Event_eq_dec (skipn (length (calls s)) (calls s'))
        (UpdateParams Generator) = 0%nat)
  /\ count_occ Event_eq_dec (ema_calls cfg i acc_d) (UpdateParams Generator)
     = 0%nat.
Proof.
  intros H0. cbv zeta.
  apply train_gan_Ok in H0. cbv zeta in H0.
  destruct H0 as (_ & _ & Hc & Hf).
  unfold train_gan_calls, generator_fires in Hc.
  unfold generator_fires in Hf.
  split; [exact Hc | ]. split; [ | split].
  - intros E. rewrite E in Hf. tauto.
  - intros E. rewrite Hc, E. rewrite skipn_app, skipn_all, Nat.sub_diag.
    reflexivity.
  - unfold ema_calls.
    destruct (with_ema_gen cfg && _); [destruct (update_buffers cfg) | ];
      [ | | destruct (with_ema_gen cfg)]; reflexivity.
Qed.

(** One tick of the instance with 3 generator steps: one discriminator
    round, then three generator rounds between freeze and unfreeze. *)
Lemma train_gan_alternation_witness :
  exists lv s',
    @train_gan demo_env (demo_cfg 3 1 2 (1 / 10) false 0) 0 demo_batch
      (mkPair (mkOptim 1) (mkOptim 1)) demo_trained = Ok lv s'
    /\ calls s' =
       [UpdateParams Discriminator; SetRequiresGrad Discriminator false;
        InitializeCountStatus 3; UpdateParams Generator;
        UpdateParams Generator; UpdateParams Generator;
        SetRequiresGrad Discriminator true].
Proof.
  destruct (@train_gan demo_env (demo_cfg 3 1 2 (1 / 10) false 0) 0 demo_batch
              (mkPair (mkOptim 1) (mkOptim 1)) demo_trained)
    as [lv s' | e s'] eqn:E.
  - exists lv, s'. split; [reflexivity | ].
    destruct (@train_gan_alternation demo_env _ _ _ _ _ _ _ E) as (Hc & _).
    rewrite Hc. reflexivity.
  - vm_compute in E. discriminate E.
Defined.

(** ** C3: the noise-weight sequence *)

(** C3 (amended). The sequence starts as [[1]]. A tick at index [i] that
    returns appends exactly one weight when [(i + 1) mod window = 0] and the
    stage is not the last scale, and leaves the sequence as it was otherwise.
    The appended weight is
    [noise_weight_init * sqrt(mean((recon_upsampled - real_next)^2))], the
    reconstruction being a 'recon' call of the generator at the current
    stage (with the weights as they were) resampled to the size of the next
    real image. It is [>= 0] when [noise_weight_init >= 0]. *)
Theorem noise_weight_calibration `{Collaborators} (cfg : Config) :
  (forall g d e seed, noise_weights (init_state g d e seed) = [1%R])
  /\ (forall i inputs ow s lv s',
         train_step cfg i inputs ow s = Ok lv s' ->
         let window := iters_per_scale cfg * discriminator_steps cfg in
         let last_scale := Z.of_nat (length (reals s')) - 1 in
         ((i + 1) mod window = 0 /\ curr_stage s' <> last_scale ->
          exists input real_next pos,
            inputs !! "input_sample" = Some input
            /\ Py.getitem (reals s') (curr_stage s' + 1) = Some real_next
            /\ let recon :=
                 recon_upsampled input
                   (set_noise_weights (noise_weights s) s') pos real_next in
               let w :=
                 (noise_weight_init cfg
                  * sqrt (Torch.rmean (Torch.sq_diff recon real_next)))%R in
               shape recon = shape real_next
               /\ noise_weights s' = noise_weights s ++ [w]
               /\ ((0 <= noise_weight_init cfg)%R -> (0 <= w)%R))
         /\ (~ ((i + 1) mod window = 0 /\ curr_stage s' <> last_scale) ->
             noise_weights s' = noise_weights s)).
Proof.
  split; [reflexivity | ].
  intros i inputs ow s lv s' Hrun. cbv zeta.
  apply train_step_Ok in Hrun. destruct Hrun as (s1 & Hrun & Hn1 & _).
  apply after_transition_Ok in Hrun.
  destruct Hrun as (_ & Hget & Hw & Hcal).
  apply getitem_in_range in Hget.
  unfold calibration_fires in Hcal. rewrite Hn1 in Hcal.
  destruct (_ =? 0) eqn:Em in Hcal;
    [apply Z.eqb_eq in Em | apply Z.eqb_neq in Em];
    (destruct (_ <? _) eqn:El in Hcal;
     [apply Z.ltb_lt in El | apply Z.ltb_ge in El]); simpl in Hcal.
  - split; [ | intros Hn; exfalso; apply Hn; split; [exact Em | lia]].
    intros _. destruct Hcal as (input & next & pos & Hin & Hnext & Hsh & Hnw).
    exists input, next, pos. split; [exact Hin | ]. split; [exact Hnext | ].
    split; [exact Hsh | ]. split; [exact Hnw | ].
    intros Hpos. apply Rmult_le_pos; [exact Hpos | apply sqrt_pos].
  - split; [intros [_ Hne]; lia | intros _; exact Hcal].
  - split; [intros [He _]; contradiction | intros _; exact Hcal].
  - split; [intros [He _]; contradiction | intros _; exact Hcal].
Qed.

(** The last tick of the first window of the instance appends the second
    weight. *)
Lemma noise_weight_calibration_witness :
  exists lv s',
    @train_step demo_env (demo_cfg 1 1 2 (1 / 10) false 0) 1 demo_batch
      (demo_optims 1) demo_trained = Ok lv s'
    /\ length (noise_weights s') = 2%nat.
Proof.
  destruct (@train_step demo_env (demo_cfg 1 1 2 (1 / 10) false 0) 1
              demo_batch (demo_optims 1) demo_trained)
    as [lv s' | e s'] eqn:E.
  - exists lv, s'. split; [reflexivity | ].
    destruct (@noise_weight_calibration demo_env
                (demo_cfg 1 1 2 (1 / 10) false 0)) as [_ Hstep].
    destruct (Hstep _ _ _ _ _ _ E) as [Happ _].
    destruct Happ as (input & next & pos & _ & _ & _ & Hnw & _).
    + vm_compute in E. injection E as _ <-. split; [reflexivity | ].
      simpl. discriminate.
    + rewrite Hnw. reflexivity.
  - vm_compute in E. discriminate E.
Defined.

(** C3 as stated fails on the sign: with [noise_weight_init = -1] the
    appended weight is negative. *)
Lemma negative_noise_weight :
  exists lv s' w,
    @train_step demo_env (demo_cfg 1 1 2 (-1) false 0) 1 demo_batch
      (demo_optims 1) demo_trained = Ok lv s'
    /\ noise_weights s' = noise_weights demo_trained ++ [w]
    /\ (w < 0)%R.
Proof.
  destruct (@train_step demo_env (demo_cfg 1 1 2 (-1) false 0) 1
              demo_batch (demo_optims 1) demo_trained)
    as [lv s' | e s'] eqn:E.
  - exists lv, s'. vm_compute in E. injection E as _ <-.
    eexists. split; [reflexivity | ]. split; [reflexivity | ].
    match goal with
    | |- (_ * ?t < 0)%R =>
        match t with
        | context [Rcase_abs ?x] =>
            change t with (sqrt x);
            assert (Hx : (0 < sqrt x)%R) by (apply sqrt_lt_R0; lra)
        end
    end.
    lra.
  - vm_compute in E. discriminate E.
Qed.

(** ** C4: the generator loss *)

(** C4. For discriminator scores [d] on the fake images and a
    reconstruction [r] of the shape of the real image [t] of the current
    stage, the generator loss is [-mean(d) + 10 * mean((r - t)^2)]. *)
Theorem gen_loss_decomposition (d r t : Tensor) (s : State) :
  Py.getitem (reals s) (curr_stage s) = Some t ->
  shape r = shape t ->
  exists log_vars,
    gen_loss d r s =
    Ok ((- Torch.mean d + 10 * Torch.rmean (Torch.sq_diff r t))%R, log_vars) s.
Proof.
  intros Ht Hshape. unfold gen_loss. unfold_prims_goal.
  rewrite Ht. unfold Torch.same_shape.
  rewrite bool_decide_eq_true_2 by exact Hshape.
  unfold parse_losses. simpl.
  eexists. f_equal. f_equal. ring.
Qed.

(** At stage 0 of the instance, with a reconstruction of the shape of the
    first real image. *)
Lemma gen_loss_decomposition_witness :
  exists log_vars,
    gen_loss (mkTensor [1%nat] [3%R]) (mkTensor [1; 1; 1; 1]%nat [4%R])
      demo_trained =
    Ok ((- Torch.mean (mkTensor [1%nat] [3%R])
         + 10 * Torch.rmean
                  (Torch.sq_diff (mkTensor [1; 1; 1; 1]%nat [4%R]) demo_real0))%R,
        log_vars) demo_trained.
Proof.
  apply (gen_loss_decomposition _ _ demo_real0 demo_trained);
    reflexivity.
Defined.

(** ** C5: the discriminator loss *)

(** C5 (amended). On 4-D real and fake images of one shape (B,C,H,W), the
    discriminator loss is mean fake score minus mean real score plus 0.1
    times the penalty. The interpolated input weighs every entry of sample
    [b] by that sample's own coefficient, the [b]-th of the [B] numbers
    drawn from [torch.rand]. The penalty takes the 2-norm of the gradient
    across the channels at each position of each sample, subtracts 1,
    squares, and averages over all positions of all samples. *)
Theorem disc_loss_decomposition `{Collaborators}
    (f r fake real : Tensor) (s : State) (b c h w : nat) (norms : Tensor) :
  shape real = [b; c; h; w] ->
  shape fake = shape real ->
  let alpha := map rand_src (seq (rng s) b) in
  let interpolated := Torch.lerp_per_sample alpha real fake in
  Torch.norm2_dim1
    (disc_input_grad (discriminator s) interpolated (curr_stage s))
  = Some norms ->
  exists log_vars,
    disc_loss f r fake real s =
    Ok ((Torch.mean f - Torch.mean r
         + 0.1 * Torch.mean_sq_dev1 (data norms))%R, log_vars)
       (set_rng (rng s + b) s).
Proof. cbv zeta. apply disc_loss_value. Qed.

(** On one sample of one channel and two pixels, with the interpolated
    image as the gradient. *)
Lemma disc_loss_decomposition_witness :
  exists norms log_vars,
    Torch.norm2_dim1 demo_gradient = Some norms
    /\ @disc_loss demo_env demo_scores demo_scores demo_fake demo_real
         demo_trained =
       Ok ((Torch.mean demo_scores - Torch.mean demo_scores
            + 0.1 * Torch.mean_sq_dev1 (data norms))%R, log_vars)
          (set_rng (rng demo_trained + 1) demo_trained).
Proof.
  eexists. 
  assert (Hn : Torch.norm2_dim1 demo_gradient = Some ?[norms])
    by reflexivity.
  destruct (@disc_loss_decomposition demo_env demo_scores demo_scores
              demo_fake demo_real demo_trained 1 1 1 2 _
              eq_refl eq_refl Hn) as [lv Hl].
  exists lv. split; [exact Hn | exact Hl].
Defined.

(** C5 as stated fails on the penalty: for a gradient of [1; 0] on the two
    pixels of one sample, the norm of the sample's gradient is 1 and the
    penalty of the spec's formula is 0, while the loss holds the per-pixel
    penalty [((1-1)^2 + (0-1)^2) / 2]. *)
Lemma gradient_penalty_is_per_pixel :
  exists loss log_vars s',
    @disc_loss demo_env demo_scores demo_scores demo_fake demo_real
      demo_trained = Ok (loss, log_vars) s'
    /\ loss <> (Torch.mean demo_scores - Torch.mean demo_scores
                + 0.1 * spec_gradient_penalty demo_gradient)%R.
Proof.
  edestruct (@disc_loss_value demo_env demo_scores demo_scores demo_fake
               demo_real demo_trained 1 1 1 2) as [lv Hl];
    [reflexivity | reflexivity | reflexivity | ].
  eexists _, lv, _. split; [exact Hl | ].
  unfold spec_gradient_penalty, demo_gradient, Torch.mean_sq_dev1,
    Torch.rmean, Torch.mean. cbn.
  sqrt_01. lra.
Qed.

(** ** C6: the shadow of the generator *)

(** C6. In a [train_gan] that returns at index [i], with
    [fires := (i + 1) mod (discriminator_steps * disc_accum) = 0] the
    condition under which the generator rounds run (they are run, one or
    more, exactly then, when [generator_steps * gen_accum] is positive):
    if it fires and EMA is on, then once
    [i + 1 >= ema_start * discriminator_steps * disc_accum] the shadow's
    parameters are [decay * shadow_prev + (1 - decay) * generator_current]
    entry by entry, and with buffer updating off its buffers are the
    generator's; before that threshold the shadow's parameters are the
    generator's. If it does not fire, or EMA is off, the shadow is as it
    was. *)
Theorem ema_shadow_sync `{Collaborators} (cfg : Config)
    (i : Z) (inputs : gmap string Tensor) (ow : OptimPair) (s : State)
    (lv : Py.dict) (s' : State) :
  train_gan cfg i inputs ow s = Ok lv s' ->
  let acc_d := accumulative_counts (optim_discriminator ow) in
  let total :=
    generator_steps cfg * accumulative_counts (optim_generator ow) in
  let fires := (i + 1) mod (discriminator_steps cfg * acc_d) =? 0 in
  let reached :=
    ema_start cfg * discriminator_steps cfg * acc_d <=? i + 1 in
  (0 < total ->
   (fires = true
    <-> In (UpdateParams Generator) (skipn (length (calls s)) (calls s'))))
  /\ (fires = true -> with_ema_gen cfg = true -> reached = true ->
      params (generator_ema s') =
        blend (ema_decay cfg) (params (generator_ema s))
              (params (generator s'))
      /\ (update_buffers cfg = false ->
          buffers (generator_ema s') = buffers (generator s')))
  /\ (fires = true -> with_ema_gen cfg = true -> reached = false ->
      params (generator_ema s') = params (generator s')
      /\ buffers (generator_ema s') = buffers (generator_ema s))
  /\ (fires = false -> generator_ema s' = generator_ema s)
  /\ (with_ema_gen cfg = false -> generator_ema s' = generator_ema s).
Proof.
  intros H0. cbv zeta.
  apply train_gan_Ok in H0. cbv zeta in H0.
  destruct H0 as (_ & _ & Hc & Hf).
  unfold train_gan_calls, generator_fires in Hc.
  unfold generator_fires, shadow_after in Hf.
  destruct (_ =? 0).
  - destruct Hf as [_ Hema].
    split; [ | split; [ | split; [ | split]]].
    + intros Ht. split; [intros _ | reflexivity].
      rewrite Hc, skipn_app, skipn_all, Nat.sub_diag. simpl.
      right. right. right. apply in_or_app. left.
      destruct (Z.to_nat _) eqn:En; [lia | ]. simpl. left. reflexivity.
    + intros _ Hon Hre. rewrite Hon, Hre in Hema. simpl in Hema.
      rewrite Hema. simpl. split; [reflexivity | ].
      intros Hub. rewrite Hub. reflexivity.
    + intros _ Hon Hre. rewrite Hon, Hre in Hema. simpl in Hema.
      rewrite Hema. simpl. split; reflexivity.
    + discriminate.
    + intros Hoff. rewrite Hoff in Hema. simpl in Hema. exact Hema.
  - split; [ | split; [ | split; [ | split]]]; try discriminate.
    + intros _. split; [discriminate | ].
      rewrite Hc, skipn_app, skipn_all, Nat.sub_diag. simpl.
      intros [Hin | []]. discriminate Hin.
    + intros _. exact Hf.
    + intros _. exact Hf.
Qed.

(** Blending the shadow is entry by entry. *)
Lemma blend_nth (decay : R) (shadow current : list R) (k : nat) :
  (k < length shadow)%nat -> (k < length current)%nat ->
  nth k (blend decay shadow current) 0%R =
    (decay * nth k shadow 0 + (1 - decay) * nth k current 0)%R.
Proof.
  unfold blend. revert current k.
  induction shadow as [| a shadow IH]; intros [| c current] k Hs Hc;
    simpl in *; try lia.
  destruct k as [| k]; [reflexivity | ]. apply IH; lia.
Qed.

(** Past the threshold the shadow [5; 6] moves half way to the generator
    [1; 2], and takes its buffers. *)
Lemma ema_shadow_sync_witness :
  exists lv s',
    @train_gan demo_env (demo_cfg 1 1 2 (1 / 10) true 1) 0 demo_batch
      (mkPair (mkOptim 1) (mkOptim 1)) demo_trained = Ok lv s'
    /\ params (generator_ema s') =
         [(1 / 2 * 5 + (1 - 1 / 2) * 1)%R; (1 / 2 * 6 + (1 - 1 / 2) * 2)%R]
    /\ buffers (generator_ema s') = [3%R].
Proof.
  destruct (@train_gan demo_env (demo_cfg 1 1 2 (1 / 10) true 1) 0 demo_batch
              (mkPair (mkOptim 1) (mkOptim 1)) demo_trained)
    as [lv s' | e s'] eqn:E.
  - exists lv, s'. split; [reflexivity | ].
    destruct (@ema_shadow_sync demo_env _ _ _ _ _ _ _ E)
      as (_ & Hupd & _).
    destruct (Hupd eq_refl eq_refl eq_refl) as [Hp Hb].
    assert (Hg : generator s' = demo_net).
    { vm_compute in E. injection E as _ <-. reflexivity. }
    rewrite Hp, (Hb eq_refl), Hg. split; reflexivity.
  - vm_compute in E. discriminate E.
Defined.

(** ** C7: the fixed-noise pyramid *)

(** C7. On an object whose fixed-noise list is still empty and whose real
    images all have a height and a width, [construct_fixed_noises] returns
    and leaves one noise per real image. The first is of shape (1,1,h,w)
    for the height and width of the first real image, and its [h * w]
    entries are the next draws of [torch.randn], one per pixel: the values
    are those of the random stream from where it stood, and the stream has
    moved on by [h * w], so another construction draws others. Every later
    noise is the all-zero tensor of the shape of its real image. *)
Theorem construct_fixed_noises_pyramid `{Collaborators} (s : State) :
  fixed_noises s = [] ->
  Forall (fun real => (2 <= length (shape real))%nat) (reals s) ->
  exists s',
    construct_fixed_noises s = Ok tt s'
    /\ reals s' = reals s
    /\ length (fixed_noises s') = length (reals s)
    /\ (forall real0,
           nth_error (reals s) 0 = Some real0 ->
           exists h w,
             Py.last2 (shape real0) = [h; w]
             /\ nth_error (fixed_noises s') 0 =
                Some (mkTensor [1; 1; h; w]%nat
                        (map randn_src (seq (rng s) (h * w))))
             /\ rng s' = (rng s + h * w)%nat)
    /\ (forall k real,
           (1 <= k)%nat ->
           nth_error (reals s) k = Some real ->
           exists noise,
             nth_error (fixed_noises s') k = Some noise
             /\ noise = Torch.zeros_like real
             /\ shape noise = shape real
             /\ Forall (fun x => x = 0%R) (data noise)).
Proof.
  intros Hempty Hall.
  destruct (reals s) as [| real0 rest] eqn:Hr.
  - exists s. unfold construct_fixed_noises, bind, gets. rewrite Hr. simpl.
    split; [reflexivity | ]. split; [first [reflexivity | exact Hr] | ].
    split; [rewrite Hempty; reflexivity | ].
    split; [intros ? Hn; discriminate Hn | ].
    intros [| k] real Hk Hn; [lia | discriminate Hn].
  - inversion Hall as [| ? ? Hreal0 Hrest]; subst.
    destruct (last2_two _ Hreal0) as (h & w & Hhw).
    eexists. split.
    { apply (construct_fixed_noises_value s real0 rest h w Hr Hhw Hrest). }
    rewrite Hempty. simpl.
    split; [first [reflexivity | exact Hr] | ].
    split; [rewrite length_map; reflexivity | ].
    split.
    + intros r0 Hn. injection Hn as <-. exists h, w.
      split; [exact Hhw | ]. split; reflexivity.
    + intros [| k] real Hk Hn; [lia | ]. simpl in Hn.
      exists (Torch.zeros_like real).
      split; [ | split; [reflexivity | split; [reflexivity | ]]].
      * simpl. rewrite nth_error_map, Hn. reflexivity.
      * unfold Torch.zeros_like. simpl. apply List.Forall_forall.
        intros x Hx. apply repeat_spec in Hx. exact Hx.
Qed.

(** The pyramid of the two-scale instance. *)
Lemma construct_fixed_noises_pyramid_witness :
  exists s',
    @construct_fixed_noises demo_env
      (set_reals [demo_real0; demo_real1] demo_init) = Ok tt s'
    /\ length (fixed_noises s') = 2%nat.
Proof.
  destruct (@construct_fixed_noises_pyramid demo_env
              (set_reals [demo_real0; demo_real1] demo_init))
    as (s' & Hrun & _ & Hlen & _).
  - reflexivity.
  - repeat constructor; simpl; lia.
  - exists s'. split; [exact Hrun | exact Hlen].
Defined.

(** ** C8: a stage beyond [num_scales] *)

(** C8 (amended). [train_step] does not read [num_scales]: it does the same
    whatever its value. On a tick that enters the next stage, the stage is
    incremented first; when both networks load the previous weights and the
    optimizer dictionary has no ['generator_<stage>'] entry for the new
    stage, the tick fails on that lookup, with the stage left incremented. *)
Theorem train_step_ignores_num_scales `{Collaborators} (cfg : Config) :
  (forall ns i inputs ow s,
      train_step (set_num_scales ns cfg) i inputs ow s
      = train_step cfg i inputs ow s)
  /\ (forall i inputs ow s gen' disc',
         let window := iters_per_scale cfg * discriminator_steps cfg in
         let stage := curr_stage s + 1 in
         window <> 0 -> i mod window = 0 ->
         load_prev_weight Generator stage (generator s) = Some gen' ->
         load_prev_weight Discriminator stage (discriminator s) = Some disc' ->
         ow !! gen_key stage = None ->
         exists s',
           train_step cfg i inputs ow s
           = Raise (OptimLookupError (gen_key stage)) s'
           /\ curr_stage s' = stage
           /\ calls s' =
              calls s ++ [CheckAndLoadPrevWeight Generator stage;
                          CheckAndLoadPrevWeight Discriminator stage]).
Proof.
  split; [reflexivity | ].
  intros i inputs ow s gen' disc'. cbv zeta. intros Hw Hm Hlg Hld Hnone.
  rewrite train_step_unfold. unfold py_mod.
  apply Z.eqb_neq in Hw. rewrite Hw. unfold bind at 1. unfold ret at 1.
  rewrite Hm. simpl (0 =? 0). cbv iota.
  unfold bind at 1. rewrite enter_next_stage_unfold.
  unfold after_increment, check_and_load_prev_weight.
  unfold_prims_goal. simpl. rewrite Hlg. simpl. rewrite Hld. simpl.
  rewrite Hnone.
  eexists. split; [reflexivity | ]. simpl.
  rewrite <- app_assoc. split; reflexivity.
Qed.

(** With no optimizer for stage 1, the tick that enters it fails on the
    lookup. *)
Lemma train_step_ignores_num_scales_witness :
  exists s',
    @train_step demo_env (demo_cfg 1 1 2 (1 / 10) false 0) 2 demo_batch ∅
      demo_trained = Raise (OptimLookupError "generator_1") s'
    /\ curr_stage s' = 1.
Proof.
  destruct (@train_step_ignores_num_scales demo_env
              (demo_cfg 1 1 2 (1 / 10) false 0)) as [_ Hfail].
  destruct (Hfail 2 demo_batch ∅ demo_trained demo_net demo_net)
    as (s' & Hrun & Hst & _).
  - simpl. lia.
  - reflexivity.
  - reflexivity.
  - reflexivity.
  - reflexivity.
  - exists s'. split; [exact Hrun | exact Hst].
Defined.

(** C8 as stated fails: with [num_scales = 0], two real images in the batch
    and optimizers for two stages, the tick at index 1 enters stage 1 and
    returns. *)
Lemma training_continues_past_num_scales :
  exists s',
    @train_loop demo_env
      (set_num_scales (Some 0) (demo_cfg 1 1 1 (1 / 10) false 0)) 2
      (fun _ => demo_batch) (demo_optims 1) demo_init = Ok tt s'
    /\ num_scales (set_num_scales (Some 0) (demo_cfg 1 1 1 (1 / 10) false 0))
       = Some 0
    /\ curr_stage s' = 1.
Proof.
  destruct (@train_loop demo_env
              (set_num_scales (Some 0) (demo_cfg 1 1 1 (1 / 10) false 0)) 2
              (fun _ => demo_batch) (demo_optims 1) demo_init)
    as [[] s' | e s'] eqn:E.
  - exists s'. split; [reflexivity | ]. split; [reflexivity | ].
    vm_compute in E. injection E as <-. reflexivity.
  - vm_compute in E. discriminate E.
Qed.

(** ** C9: the accumulation counts at a stage's first tick *)

(** C9 (amended). On the tick that enters a stage, once the stage is
    incremented and both networks have loaded the previous weights: if the
    stage's two optimizers exist and one of them has an accumulation count
    other than 1, the tick raises an assertion error before any update
    round. Its message is the fixed text of [_warning_msg], whatever the
    stage and the counts. *)
Theorem accumulation_count_assertion `{Collaborators} (cfg : Config)
    (i : Z) (inputs : gmap string Tensor) (ow : gmap string OptimWrapper)
    (s : State) (g d : OptimWrapper) (gen' disc' : Net) :
  let window := iters_per_scale cfg * discriminator_steps cfg in
  let stage := curr_stage s + 1 in
  window <> 0 -> i mod window = 0 ->
  load_prev_weight Generator stage (generator s) = Some gen' ->
  load_prev_weight Discriminator stage (discriminator s) = Some disc' ->
  ow !! gen_key stage = Some g ->
  ow !! disc_key stage = Some d ->
  accumulative_counts g <> 1 \/ accumulative_counts d <> 1 ->
  exists s',
    train_step cfg i inputs ow s = Raise (AssertionError _warning_msg) s'
    /\ curr_stage s' = stage
    /\ calls s' =
       calls s ++ [CheckAndLoadPrevWeight Generator stage;
                   CheckAndLoadPrevWeight Discriminator stage].
Proof.
  cbv zeta. intros Hw Hm Hlg Hld Hg Hd Hacc.
  rewrite train_step_unfold. unfold py_mod.
  apply Z.eqb_neq in Hw. rewrite Hw. unfold bind at 1. unfold ret at 1.
  rewrite Hm. simpl (0 =? 0). cbv iota.
  unfold bind at 1. rewrite enter_next_stage_unfold.
  unfold after_increment, check_and_load_prev_weight.
  unfold_prims_goal. simpl. rewrite Hlg. simpl. rewrite Hld. simpl.
  rewrite Hg, Hd.
  destruct (accumulative_counts g =? 1) eqn:Eg.
  - destruct (accumulative_counts d =? 1) eqn:Ed.
    + apply Z.eqb_eq in Eg, Ed. lia.
    + eexists. split; [reflexivity | ]. simpl.
      rewrite <- app_assoc. split; reflexivity.
  - eexists. split; [reflexivity | ]. simpl.
    rewrite <- app_assoc. split; reflexivity.
Qed.

(** The first tick of the instance with accumulation counts of 2 at
    stage 0. *)
Lemma accumulation_count_assertion_witness :
  exists s',
    @train_step demo_env (demo_cfg 1 1 2 (1 / 10) false 0) 0 demo_batch
      (demo_optims 2) demo_init = Raise (AssertionError _warning_msg) s'
    /\ curr_stage s' = 0.
Proof.
  destruct (@accumulation_count_assertion demo_env
              (demo_cfg 1 1 2 (1 / 10) false 0) 0 demo_batch (demo_optims 2)
              demo_init (mkOptim 2) (mkOptim 2) demo_net demo_net)
    as (s' & Hrun & Hst & _).
  - simpl. lia.
  - reflexivity.
  - reflexivity.
  - reflexivity.
  - reflexivity.
  - reflexivity.
  - left. simpl. lia.
  - exists s'. split; [exact Hrun | exact Hst].
Defined.

(** C9 as stated fails on the message: at stage 0 with counts of 2, the
    message of the error holds neither the stage index nor the count
    found. *)
Lemma assertion_message_is_fixed :
  exists msg s',
    @train_step demo_env (demo_cfg 1 1 2 (1 / 10) false 0) 0 demo_batch
      (demo_optims 2) demo_init = Raise (AssertionError msg) s'
    /\ curr_stage s' = 0
    /\ Py.contains (Py.str (curr_stage s')) msg = false
    /\ Py.contains (Py.str 2) msg = false.
Proof.
  destruct (@train_step demo_env (demo_cfg 1 1 2 (1 / 10) false 0) 0 demo_batch
              (demo_optims 2) demo_init) as [lv s' | e s'] eqn:E.
  - vm_compute in E. discriminate E.
  - vm_compute in E. injection E as <- <-.
    eexists _, _. split; [reflexivity | ]. vm_compute. repeat split.
Qed.

(** ** C10: inference without a pickle file *)

(** C10. With [test_pkl_data] left at [None] and nothing loaded yet,
    [test_step] takes the loading branch; [load_test_pkl] returns without
    an error and changes nothing, so that the inference of the base class
    runs on the state as it was (the untrained one included); and when that
    inference does not write [loaded_test_pkl], no number of calls does:
    every later call takes the loading branch again. *)
Theorem test_step_without_pkl `{Collaborators} (cfg : Config)
    {Data Samples : Type} (base_test_step : Data -> M Samples)
    (data : Data) (s : State) :
  pkl_data cfg = None ->
  loaded_test_pkl s = false ->
  load_test_pkl cfg s = Ok tt s
  /\ test_step cfg base_test_step data s
     = (let* _ := load_test_pkl cfg in base_test_step data) s
  /\ test_step cfg base_test_step data s = base_test_step data s
  /\ ((forall d, keeps loaded_test_pkl (base_test_step d)) ->
      forall d, keeps loaded_test_pkl (test_step cfg base_test_step d)).
Proof.
  intros Hpkl Hloaded.
  assert (Hload : forall s0, load_test_pkl cfg s0 = Ok tt s0).
  { intros s0. unfold load_test_pkl. rewrite Hpkl. reflexivity. }
  split; [apply Hload | ].
  split; [ | split].
  - unfold test_step, bind, gets. rewrite Hloaded. reflexivity.
  - unfold test_step, bind, gets. rewrite Hloaded. simpl.
    rewrite Hload. reflexivity.
  - intros Hbase d. unfold test_step.
    apply keeps_bind; [apply keeps_gets | intros loaded].
    apply keeps_bind; [ | intros _; apply Hbase].
    destruct (negb loaded); [ | apply keeps_ret].
    intros s0. rewrite Hload. reflexivity.
Qed.

(** On the fresh, untrained object, with an inference that returns the
    stage it is asked to sample at. *)
Lemma test_step_without_pkl_witness :
  @test_step demo_env (demo_cfg 1 1 2 (1 / 10) false 0) unit Z
    (fun _ => gets curr_stage) tt demo_init = Ok (-1) demo_init.
Proof.
  destruct (@test_step_without_pkl demo_env (demo_cfg 1 1 2 (1 / 10) false 0)
              unit Z (fun _ => gets curr_stage) tt demo_init
              eq_refl eq_refl) as (_ & _ & Hrun & _).
  rewrite Hrun. reflexivity.
Defined.

(** * More of the code *)

Section TickAnatomy.

Context {env : Collaborators}.
Variable cfg : Config.

(** A stage transition that returned. *)
Lemma enter_next_stage_Ok ow s u s' :
  enter_next_stage cfg ow s = Ok u s' ->
  exists g d,
    curr_stage s' = curr_stage s + 1
    /\ ow !! gen_key (curr_stage s') = Some g
    /\ ow !! disc_key (curr_stage s') = Some d
    /\ accumulative_counts g = 1
    /\ accumulative_counts d = 1
    /\ calls s' =
       calls s
       ++ [CheckAndLoadPrevWeight Generator (curr_stage s');
           CheckAndLoadPrevWeight Discriminator (curr_stage s')]
       ++ (if lr_scheduler_args cfg
           then [BuildSchedulers (curr_stage s')] else [])
    /\ attrs (set_curr_stage (curr_stage s) s') = attrs s
    /\ generator_ema s' = generator_ema s
    /\ (lr_scheduler_args cfg = true -> schedulers s' <> None).
Proof.
  intros H. rewrite enter_next_stage_unfold in H.
  unfold after_increment, check_and_load_prev_weight in H.
  unfold_prims H. simpl in H. run_inv H.
  all: match goal with
       | Eg : _ !! gen_key _ = Some ?g, Ed : _ !! disc_key _ = Some ?d
         |- _ => exists g, d
       end.
  all: simpl; rewrite <- ?app_assoc, ?app_nil_r; simpl.
  all: repeat match goal with
              | E : (_ =? 1) = true |- _ => apply Z.eqb_eq in E
              end.
  all: repeat split; try assumption; try reflexivity; try discriminate.
Qed.

(** The steps of a tick that returned, after its stage transition. *)
Lemma after_transition_inv i inputs ow s lv s' :
  after_transition cfg i inputs ow s = Ok lv s' ->
  exists g d s1 lv1 s2 s3,
    ow !! gen_key (curr_stage s) = Some g
    /\ ow !! disc_key (curr_stage s) = Some d
    /\ (if (i =? 0) || (length (reals s) =? 0)%nat
        then setup_pyramids inputs s = Ok tt s1 else s1 = s)
    /\ train_gan cfg i inputs (mkPair g d) s1 = Ok lv1 s2
    /\ lv = Py.setitem lv1 "curr_stage" (IZR (curr_stage s2))
    /\ iters_per_scale cfg * discriminator_steps cfg <> 0
    /\ (if ((i + 1) mod (iters_per_scale cfg * discriminator_steps cfg)
            =? 0)
           && (curr_stage s2 <? Z.of_nat (length (reals s2)) - 1)
        then update_noise_weight cfg inputs s2 = Ok tt s3 else s3 = s2)
    /\ discriminator_steps cfg <> 0
    /\ (if ((i + 1) mod discriminator_steps cfg =? 0)
           && lr_scheduler_args cfg
        then scheduler_step s3 = Ok tt s' else s' = s3).
Proof.
  intros H. unfold after_transition in H.
  apply bind_Ok in H. destruct H as (k & s0 & E & H).
  injection E as <- <-.
  apply bind_Ok in H. destruct H as (g & s0 & E & H).
  unfold optim_get, of_option in E.
  destruct (ow !! gen_key _) as [g' | ] eqn:Eg; [ | discriminate E].
  injection E as <- <-.
  apply bind_Ok in H. destruct H as (d & s0 & E & H).
  unfold optim_get, of_option in E.
  destruct (ow !! disc_key _) as [d' | ] eqn:Ed; [ | discriminate E].
  injection E as <- <-.
  apply bind_Ok in H. destruct H as (n & s0 & E & H).
  injection E as <- <-.
  apply bind_Ok in H. destruct H as ([] & s1 & Esetup & H).
  apply bind_Ok in H. destruct H as (lv1 & s2 & Egan & H).
  apply bind_Ok in H. destruct H as (k' & s0 & E & H).
  injection E as <- <-.
  apply bind_Ok in H. destruct H as (m' & s0 & E & H).
  unfold py_mod in E.
  destruct (_ =? 0) eqn:Ew in E; [discriminate E | ].
  injection E as <- <-. apply Z.eqb_neq in Ew.
  apply bind_Ok in H. destruct H as (n' & s0 & E & H).
  injection E as <- <-.
  apply bind_Ok in H. destruct H as ([] & s3 & Ecal & H).
  apply bind_Ok in H. destruct H as (m'' & s0 & E & H).
  unfold py_mod in E.
  destruct (_ =? 0) eqn:Ed0 in E; [discriminate E | ].
  injection E as <- <-. apply Z.eqb_neq in Ed0.
  apply bind_Ok in H. destruct H as ([] & s4 & Esch & H).
  injection H as <- <-.
  exists g', d', s1, lv1, s2, s3.
  split; [reflexivity | ]. split; [reflexivity | ].
  split.
  { destruct ((i =? 0) || (length (reals s) =? 0)%nat); [exact Esetup | ].
    injection Esetup as <-. reflexivity. }
  split; [exact Egan | ]. split; [reflexivity | ].
  split; [exact Ew | ].
  split.
  { destruct (_ && _); [exact Ecal | ].
    injection Ecal as <-. reflexivity. }
  split; [exact Ed0 | ].
  destruct ((i + 1) mod discriminator_steps cfg =? 0); simpl.
  - destruct (lr_scheduler_args cfg); [exact Esch | ].
    injection Esch as <-. reflexivity.
  - injection Esch as <-. reflexivity.
Qed.

(** The two halves of a tick that returned. *)
Lemma train_step_inv i inputs ow s lv s' :
  train_step cfg i inputs ow s = Ok lv s' ->
  iters_per_scale cfg * discriminator_steps cfg <> 0
  /\ exists s0,
      (if i mod (iters_per_scale cfg * discriminator_steps cfg) =? 0
       then enter_next_stage cfg ow s = Ok tt s0 else s0 = s)
      /\ after_transition cfg i inputs ow s0 = Ok lv s'.
Proof.
  rewrite train_step_unfold. intros H.
  apply bind_Ok in H. destruct H as (m & s1 & E & H).
  unfold py_mod in E. destruct (_ =? 0) eqn:Ew in E; [discriminate E | ].
  injection E as <- <-. apply Z.eqb_neq in Ew. split; [exact Ew | ].
  apply bind_Ok in H. destruct H as ([] & s0 & E & H).
  exists s0. split; [ | exact H].
  destruct (_ =? 0); [exact E | ]. injection E as <-. reflexivity.
Qed.

End TickAnatomy.

Section TickCalls.

Context {env : Collaborators}.
Variable cfg : Config.

Lemma scheduler_step_calls s u s' :
  scheduler_step s = Ok u s' ->
  calls s' =
  calls s ++ [SchedulerStep Discriminator; SchedulerStep Generator].
Proof.
  intros H. unfold scheduler_step in H. unfold_prims H. run_inv H.
  simpl. rewrite <- app_assoc. reflexivity.
Qed.

(** The calls of a tick that returned, with the optimizers it used. *)
Lemma train_step_calls_inv i inputs ow s lv s' :
  train_step cfg i inputs ow s = Ok lv s' ->
  exists g d,
    ow !! gen_key (curr_stage s') = Some g
    /\ ow !! disc_key (curr_stage s') = Some d
    /\ (transition_fires cfg i = true ->
        accumulative_counts g = 1 /\ accumulative_counts d = 1)
    /\ calls s' =
       calls s ++ transition_calls cfg i (curr_stage s')
       ++ train_gan_calls cfg i (mkPair g d) ++ scheduler_calls cfg i.
Proof.
  intros H.
  destruct (train_step_inv cfg _ _ _ _ _ _ H) as (Hw & s0 & Hent & Haft).
  pose proof (keeps_Ok curr_stage _ _ _ _
                (after_transition_keeps_stage cfg i inputs ow) Haft) as Hst.
  destruct (after_transition_inv cfg _ _ _ _ _ _ Haft)
    as (g & d & s1 & lv1 & s2 & s3 & Hg & Hd & Hsetup & Hgan & _ & _
        & Hcal & _ & Hsch).
  exists g, d. rewrite Hst.
  split; [exact Hg | ]. split; [exact Hd | ].
  assert (Hc1 : calls s1 = calls s0).
  { destruct ((i =? 0) || (length (reals s0) =? 0)%nat);
      [ | rewrite Hsetup; reflexivity].
    apply (keeps_Ok calls _ _ _ _
             (setup_pyramids_keeps calls inputs ltac:(reflexivity)
                ltac:(reflexivity) ltac:(reflexivity)) Hsetup). }
  apply train_gan_Ok in Hgan. destruct Hgan as (_ & _ & Hc2 & _).
  assert (Hc3 : calls s3 = calls s2).
  { destruct (((i + 1) mod (iters_per_scale cfg * discriminator_steps cfg)
               =? 0)
              && (curr_stage s2 <? Z.of_nat (length (reals s2)) - 1));
      [ | rewrite Hcal; reflexivity].
    apply update_noise_weight_Ok in Hcal.
    destruct Hcal as (? & ? & Hcal). tauto. }
  assert (Hc4 : calls s' = calls s3 ++ scheduler_calls cfg i).
  { unfold scheduler_calls.
    destruct (((i + 1) mod discriminator_steps cfg =? 0)
              && lr_scheduler_args cfg).
    - apply (scheduler_step_calls _ _ _ Hsch).
    - rewrite Hsch, app_nil_r. reflexivity. }
  unfold transition_calls, transition_fires.
  apply Z.eqb_neq in Hw. rewrite Hw. simpl negb. simpl andb.
  destruct (i mod (iters_per_scale cfg * discriminator_steps cfg) =? 0).
  - apply enter_next_stage_Ok in Hent.
    destruct Hent as (g0 & d0 & _ & Hg0 & Hd0 & Hag & Had & Hc0 & _).
    rewrite Hg in Hg0. rewrite Hd in Hd0.
    injection Hg0 as <-. injection Hd0 as <-.
    split; [intros _; split; assumption | ].
    rewrite Hc4, Hc3, Hc2, Hc1, Hc0. rewrite <- !app_assoc. reflexivity.
  - subst s0. split; [discriminate | ].
    rewrite Hc4, Hc3, Hc2, Hc1. rewrite <- !app_assoc. reflexivity.
Qed.

End TickCalls.

Section Pyramids.

Context {env : Collaborators}.
Variable cfg : Config.

Lemma keeps_pyramids {A : Type} (m : M A) :
  keeps reals m -> keeps fixed_noises m -> keeps pyramids m.
Proof.
  intros Hr Hf s. unfold pyramids. rewrite Hr, Hf. reflexivity.
Qed.

Lemma train_gan_keeps_pyramids i inputs ow :
  keeps pyramids (train_gan cfg i inputs ow).
Proof.
  pose proof (keeps_attrs_proj _ (train_gan_keeps_attrs cfg i inputs ow))
    as (_ & _ & Hf & Hr & _).
  apply keeps_pyramids; assumption.
Qed.

(** After the setup of the pyramids, nothing in a tick writes them. *)
Lemma after_transition_keeps_pyramids i inputs ow s :
  i <> 0 -> reals s <> [] ->
  pyramids (final (after_transition cfg i inputs ow s)) = pyramids s.
Proof.
  intros Hi Hr. unfold after_transition.
  cbn [bind gets].
  unfold optim_get, of_option.
  destruct (ow !! gen_key (curr_stage s)); [ | reflexivity].
  cbn [bind ret].
  destruct (ow !! disc_key (curr_stage s)); [ | reflexivity].
  cbn [bind ret].
  apply Z.eqb_neq in Hi. rewrite Hi. cbn [orb bind gets].
  destruct (reals s) as [| r0 rest] eqn:Er; [contradiction | ].
  cbn [length Nat.eqb bind ret].
  match goal with
  | |- pyramids (final (?m ?s0)) = _ =>
      assert (Hk : keeps pyramids m); [ | rewrite Hk; reflexivity]
  end.
  apply keeps_bind; [apply train_gan_keeps_pyramids | intros lv].
  do 3 (apply keeps_bind; [keeps_prim | intros ?]).
  apply keeps_bind.
  { keeps_step; [ | apply keeps_ret].
    apply update_noise_weight_keeps; intros; reflexivity. }
  intros _. apply keeps_bind; [keeps_prim | intros ?].
  apply keeps_bind; [ | intros _; apply keeps_ret].
  keeps_step; [ | apply keeps_ret].
  keeps_step; [ | apply keeps_ret].
  apply scheduler_step_keeps; intros; reflexivity.
Qed.

Lemma train_step_keeps_pyramids i inputs ow s :
  i <> 0 -> reals s <> [] ->
  pyramids (final (train_step cfg i inputs ow s)) = pyramids s.
Proof.
  intros Hi Hr. rewrite train_step_unfold. unfold py_mod.
  destruct (iters_per_scale cfg * discriminator_steps cfg =? 0);
    [reflexivity | ].
  cbn [bind ret].
  destruct (i mod (iters_per_scale cfg * discriminator_steps cfg) =? 0);
    unfold bind, ret.
  - pose proof (enter_next_stage_keeps cfg pyramids ow
                  ltac:(reflexivity) ltac:(reflexivity) ltac:(reflexivity)
                  ltac:(reflexivity) ltac:(reflexivity) s) as Hent.
    destruct (enter_next_stage cfg ow s) as [[] s0 | e s0]; simpl in Hent.
    + rewrite after_transition_keeps_pyramids; [exact Hent | exact Hi | ].
      unfold pyramids in Hent. injection Hent as -> _. exact Hr.
    + exact Hent.
  - apply after_transition_keeps_pyramids; assumption.
Qed.

Lemma pyramids_reals_fixed i inputs ow s :
  i <> 0 -> reals s <> [] ->
  reals (final (train_step cfg i inputs ow s)) = reals s
  /\ fixed_noises (final (train_step cfg i inputs ow s)) = fixed_noises s.
Proof.
  intros Hi Hr.
  pose proof (train_step_keeps_pyramids i inputs ow s Hi Hr) as Hp.
  unfold pyramids in Hp. injection Hp as -> ->. split; reflexivity.
Qed.

End Pyramids.

Section Setup.

Context {env : Collaborators}.

Lemma last2_short {A : Type} (l : list A) :
  (length l < 2)%nat -> Py.last2 l = l.
Proof.
  intros Hl. unfold Py.last2.
  replace (length l - 2)%nat with 0%nat by lia. reflexivity.
Qed.

Lemma unpack_hw_short real s :
  ~ has_hw real -> unpack_hw real s = Raise ValueError s.
Proof.
  unfold has_hw, unpack_hw. intros Hl.
  rewrite last2_short by lia.
  destruct (shape real) as [| a [| b [| c t]]]; simpl in *;
    try reflexivity; lia.
Qed.

Lemma unpack_hw_Ok real s hw s' :
  unpack_hw real s = Ok hw s' -> has_hw real /\ s' = s.
Proof.
  intros H0. destruct (Nat.le_gt_cases 2 (length (shape real))) as [Hl | Hl].
  - split; [exact Hl | ]. unfold unpack_hw in H0.
    destruct (Py.last2 (shape real)) as [| a [| b [| c t]]];
      try discriminate H0.
    injection H0 as _ <-. reflexivity.
  - rewrite unpack_hw_short in H0 by (unfold has_hw; lia). discriminate H0.
Qed.

(** The loop appends one noise per image it gets through. *)
Lemma construct_from_Ok i rs s u s' :
  construct_from i rs s = Ok u s' ->
  Forall has_hw rs
  /\ reals s' = reals s
  /\ exists new,
      fixed_noises s' = fixed_noises s ++ new
      /\ length new = length rs.
Proof.
  revert i s. induction rs as [| real rest IH]; intros i s H0; simpl in H0.
  - injection H0 as _ <-. split; [constructor | ]. split; [reflexivity | ].
    exists []. rewrite app_nil_r. split; reflexivity.
  - apply bind_Ok in H0. destruct H0 as (hw & s1 & E1 & H0).
    apply unpack_hw_Ok in E1. destruct E1 as [Hhw ->].
    apply bind_Ok in H0. destruct H0 as (noise & s2 & E2 & H0).
    apply bind_Ok in H0. destruct H0 as ([] & s3 & E3 & H0).
    injection E3 as <-.
    apply IH in H0. destruct H0 as (Hall & Hr & new & Hnew & Hlen).
    assert (Hs2 : reals s2 = reals s /\ fixed_noises s2 = fixed_noises s).
    { destruct (i =? 0)%nat.
      - unfold randn, draw in E2. injection E2 as _ <-. split; reflexivity.
      - injection E2 as _ <-. split; reflexivity. }
    destruct Hs2 as [Hr2 Hf2]. simpl in Hr, Hnew.
    split; [constructor; assumption | ]. split; [congruence | ].
    exists (noise :: new). rewrite Hnew, Hf2, <- app_assoc. simpl.
    split; [reflexivity | ]. rewrite Hlen. reflexivity.
Qed.

(** It stops at the first image without a height and a width, with the
    noises of the images before it appended. *)
Lemma construct_from_Raise i pre real post s :
  Forall has_hw pre -> ~ has_hw real ->
  exists s' new,
    construct_from i (pre ++ real :: post) s = Raise ValueError s'
    /\ fixed_noises s' = fixed_noises s ++ new
    /\ length new = length pre
    /\ reals s' = reals s.
Proof.
  intros Hpre Hbad. revert i s.
  induction pre as [| p pre IH]; intros i s; simpl.
  - exists s, []. unfold bind. rewrite unpack_hw_short by exact Hbad.
    rewrite app_nil_r. repeat split; reflexivity.
  - inversion Hpre as [| ? ? Hp Hrest]; subst.
    destruct (last2_two _ Hp) as (h & w & Hhw).
    unfold bind at 1. unfold unpack_hw. rewrite Hhw. unfold ret at 1.
    destruct (i =? 0)%nat.
    + unfold bind at 1. unfold randn, draw.
      unfold bind at 1. unfold modify.
      destruct (IH Hrest (S i)
                  (set_fixed_noises
                     (fixed_noises s
                      ++ [mkTensor [1; 1; fst (h, w); snd (h, w)]%nat
                            (map randn_src
                               (seq (rng s)
                                  (Torch.numel
                                     [1; 1; fst (h, w); snd (h, w)]%nat)))])
                     (set_rng
                        (rng s
                         + Torch.numel [1; 1; fst (h, w); snd (h, w)]%nat)
                        s)))
        as (s' & new & Hrun & Hf & Hlen & Hr).
      exists s'. eexists. split; [exact Hrun | ].
      simpl in Hf, Hr. rewrite Hf, <- app_assoc.
      split; [reflexivity | ]. simpl. split; [congruence | exact Hr].
    + unfold bind at 1. unfold ret at 1.
      unfold bind at 1. unfold modify.
      destruct (IH Hrest (S i)
                  (set_fixed_noises
                     (fixed_noises s ++ [Torch.zeros_like p]) s))
        as (s' & new & Hrun & Hf & Hlen & Hr).
      exists s'. eexists. split; [exact Hrun | ].
      simpl in Hf, Hr. rewrite Hf, <- app_assoc.
      split; [reflexivity | ]. simpl. split; [congruence | exact Hr].
Qed.

Lemma collect_reals_Ok inputs ss s rs s' :
  collect_reals inputs ss s = Ok rs s' ->
  s' = s /\ Forall2 (fun k r => inputs !! real_key k = Some r) ss rs.
Proof.
  revert rs s'. induction ss as [| k rest IH]; intros rs s' H0;
    simpl in H0.
  - injection H0 as <- <-. split; [reflexivity | constructor].
  - apply bind_Ok in H0. destruct H0 as (r & s1 & E1 & H0).
    unfold dict_get, of_option in E1.
    destruct (inputs !! real_key k) eqn:Ek; [ | discriminate E1].
    injection E1 as <- <-.
    apply bind_Ok in H0. destruct H0 as (rs' & s2 & E2 & H0).
    injection H0 as <- <-. apply IH in E2. destruct E2 as [-> Hall].
    split; [reflexivity | ]. constructor; assumption.
Qed.

(** A missing key stops the collection at the first one missing, with
    nothing written. *)
Lemma collect_reals_missing inputs pre k post s :
  Forall (fun j => inputs !! real_key j <> None) pre ->
  inputs !! real_key k = None ->
  collect_reals inputs (pre ++ k :: post) s = Raise (KeyError (real_key k)) s.
Proof.
  intros Hpre Hk. induction pre as [| p pre IH]; simpl.
  - unfold bind, dict_get, of_option. rewrite Hk. reflexivity.
  - inversion Hpre as [| ? ? Hp Hrest]; subst.
    unfold bind at 1. unfold dict_get, of_option.
    destruct (inputs !! real_key p); [ | contradiction].
    unfold ret at 1. unfold bind at 1. rewrite (IH Hrest). reflexivity.
Qed.

End Setup.

Section SetupMore.

Context {env : Collaborators}.

Lemma Forall2_seq_nth (inputs : gmap string Tensor) (a n : nat)
    (rs : list Tensor) :
  Forall2 (fun k r => inputs !! real_key k = Some r) (seq a n) rs ->
  length rs = n
  /\ forall k, (k < n)%nat ->
               nth_error rs k = inputs !! real_key (a + k).
Proof.
  revert a rs. induction n as [| n IH]; intros a rs Hall; simpl in Hall.
  - inversion Hall; subst. split; [reflexivity | intros k Hk; lia].
  - inversion Hall as [| ? r ? rs' Hr Hrest]; subst.
    destruct (IH _ _ Hrest) as [Hlen Hnth].
    split; [simpl; rewrite Hlen; reflexivity | ].
    intros [| k] Hk; simpl.
    + rewrite Nat.add_0_r. symmetry. exact Hr.
    + rewrite Hnth by lia. f_equal. f_equal. lia.
Qed.

Lemma setup_pyramids_Ok inputs s u s' :
  setup_pyramids inputs s = Ok u s' ->
  length (reals s') = n_real_keys inputs
  /\ (forall k, (k < n_real_keys inputs)%nat ->
                nth_error (reals s') k = inputs !! real_key k)
  /\ Forall has_hw (reals s')
  /\ exists new,
      fixed_noises s' = fixed_noises s ++ new
      /\ length new = n_real_keys inputs.
Proof.
  intros H0. unfold setup_pyramids in H0. fold (n_real_keys inputs) in H0.
  apply bind_Ok in H0. destruct H0 as (rs & s1 & E1 & H0).
  apply collect_reals_Ok in E1. destruct E1 as [-> Hall].
  apply Forall2_seq_nth in Hall. destruct Hall as [Hlen Hnth].
  apply bind_Ok in H0. destruct H0 as ([] & s2 & E2 & H0).
  injection E2 as <-.
  unfold construct_fixed_noises in H0.
  apply bind_Ok in H0. destruct H0 as (rs' & s3 & E3 & H0).
  injection E3 as <- <-. simpl in H0.
  apply construct_from_Ok in H0.
  destruct H0 as (Hhw & Hr & new & Hnew & Hnlen). simpl in Hr, Hnew.
  rewrite Hr. split; [exact Hlen | ]. split; [exact Hnth | ].
  split; [exact Hhw | ]. exists new. split; [exact Hnew | ].
  rewrite Hnlen. exact Hlen.
Qed.

Lemma setup_pyramids_missing inputs s j :
  (j < n_real_keys inputs)%nat ->
  (forall k, (k < j)%nat -> inputs !! real_key k <> None) ->
  inputs !! real_key j = None ->
  setup_pyramids inputs s = Raise (KeyError (real_key j)) s.
Proof.
  intros Hj Hpre Hmiss. unfold setup_pyramids. fold (n_real_keys inputs).
  replace (seq 0 (n_real_keys inputs))
    with (seq 0 j ++ j :: seq (S j) (n_real_keys inputs - S j)).
  - unfold bind. rewrite collect_reals_missing; [reflexivity | | exact Hmiss].
    apply List.Forall_forall. intros k Hk. apply in_seq in Hk.
    apply Hpre. lia.
  - replace (n_real_keys inputs) with (j + S (n_real_keys inputs - S j))%nat
      at 2 by lia.
    rewrite seq_app. simpl. reflexivity.
Qed.

End SetupMore.

Section AppendOnly.

Context {env : Collaborators}.
Variable cfg : Config.

Lemma appends_weight_keeps {A : Type} (m : M A) :
  keeps noise_weights m -> appends_weight m.
Proof. intros Hk s. left. apply Hk. Qed.

Lemma appends_weight_after {A B : Type} (m : M A) (k : A -> M B) :
  keeps noise_weights m -> (forall a, appends_weight (k a)) ->
  appends_weight (bind m k).
Proof.
  intros Hm Hk s. unfold bind. specialize (Hm s).
  destruct (m s) as [a s1 | e s1]; simpl in Hm.
  - rewrite <- Hm. apply Hk.
  - left. exact Hm.
Qed.

Lemma appends_weight_before {A B : Type} (m : M A) (k : A -> M B) :
  appends_weight m -> (forall a, keeps noise_weights (k a)) ->
  appends_weight (bind m k).
Proof.
  intros Hm Hk s. unfold bind. specialize (Hm s).
  destruct (m s) as [a s1 | e s1]; simpl in Hm.
  - rewrite Hk. exact Hm.
  - exact Hm.
Qed.

Lemma update_noise_weight_appends inputs :
  appends_weight (update_noise_weight cfg inputs).
Proof.
  unfold update_noise_weight.
  apply appends_weight_after; [keeps_prim | intros ?].
  apply appends_weight_after;
    [apply call_generator_keeps; intros; reflexivity | intros ?].
  do 4 (apply appends_weight_after; [keeps_prim | intros ?]).
  intros s. right. eexists. reflexivity.
Qed.

Lemma after_transition_appends i inputs ow :
  appends_weight (after_transition cfg i inputs ow).
Proof.
  unfold after_transition.
  do 4 (apply appends_weight_after; [keeps_prim | intros ?]).
  apply appends_weight_after.
  { keeps_step; [ | apply keeps_ret].
    apply setup_pyramids_keeps; intros; reflexivity. }
  intros _. apply appends_weight_after.
  { apply (keeps_attrs_proj _ (train_gan_keeps_attrs cfg i inputs _)). }
  intros lv. do 3 (apply appends_weight_after; [keeps_prim | intros ?]).
  apply appends_weight_before.
  { match goal with
    | |- appends_weight (if ?c then _ else _) => destruct c
    end.
    - apply update_noise_weight_appends.
    - apply appends_weight_keeps, keeps_ret. }
  intros _. apply keeps_bind; [keeps_prim | intros ?].
  apply keeps_bind; [ | intros _; apply keeps_ret].
  keeps_step; [ | apply keeps_ret].
  keeps_step; [ | apply keeps_ret].
  apply scheduler_step_keeps; intros; reflexivity.
Qed.

Lemma train_step_appends i inputs ow :
  appends_weight (train_step cfg i inputs ow).
Proof.
  rewrite train_step_unfold.
  apply appends_weight_after; [keeps_prim | intros m].
  apply appends_weight_after; [ | intros _; apply after_transition_appends].
  keeps_step; [ | apply keeps_ret].
  apply enter_next_stage_keeps; intros; reflexivity.
Qed.

End AppendOnly.

Section WeightsAlongRuns.

Context {env : Collaborators}.
Variable cfg : Config.

(** One returning tick at an index [i >= 0] that found [1 + i / window]
    weights leaves [1 + min((i + 1) / window, len(reals) - 1)]. *)
Lemma train_step_weights_length i inputs ow s lv s' :
  0 < iters_per_scale cfg * discriminator_steps cfg ->
  0 <= i ->
  train_step cfg i inputs ow s = Ok lv s' ->
  curr_stage s' = i / (iters_per_scale cfg * discriminator_steps cfg) ->
  Z.of_nat (length (noise_weights s))
  = 1 + i / (iters_per_scale cfg * discriminator_steps cfg) ->
  Z.of_nat (length (noise_weights s'))
  = 1 + Z.min ((i + 1) / (iters_per_scale cfg * discriminator_steps cfg))
              (Z.of_nat (length (reals s')) - 1).
Proof.
  intros Hw Hi Hrun Hst Hlen.
  apply train_step_Ok in Hrun. destruct Hrun as (s1 & Hrun & Hn1 & _).
  apply after_transition_Ok in Hrun.
  destruct Hrun as (_ & Hget & _ & Hcal).
  apply getitem_in_range in Hget.
  rewrite Hn1 in Hcal. unfold calibration_fires in Hcal.
  pose proof (div_step (i + 1) _ Hw) as Hdiv.
  replace (i + 1 - 1) with i in Hdiv by lia.
  assert (Hq : 0 <= i / (iters_per_scale cfg * discriminator_steps cfg))
    by (apply Z.div_pos; lia).
  destruct ((i + 1) mod (iters_per_scale cfg * discriminator_steps cfg)
            =? 0);
    (destruct (curr_stage s' <? Z.of_nat (length (reals s')) - 1) eqn:El;
     [apply Z.ltb_lt in El | apply Z.ltb_ge in El]); simpl in Hcal.
  - destruct Hcal as (? & ? & ? & _ & _ & _ & Hnw).
    rewrite Hnw, length_app. simpl. lia.
  - rewrite Hcal. lia.
  - rewrite Hcal. lia.
  - rewrite Hcal. lia.
Qed.

Lemma train_loop_weights n batch ow g d e seed s' :
  0 < iters_per_scale cfg * discriminator_steps cfg ->
  train_loop cfg (S n) batch ow (init_state g d e seed) = Ok tt s' ->
  Z.of_nat (length (noise_weights s'))
  = 1 + Z.min ((Z.of_nat n + 1)
               / (iters_per_scale cfg * discriminator_steps cfg))
              (Z.of_nat (length (reals s')) - 1).
Proof.
  intros Hw. revert s'. induction n as [| n IH]; intros s' Hrun.
  - pose proof (train_loop_stage cfg _ _ _ _ _ Hw Hrun) as Hst.
    simpl in Hrun.
    apply bind_Ok in Hrun. destruct Hrun as ([] & s1 & E1 & Hrun).
    injection E1 as <-.
    apply bind_Ok in Hrun. destruct Hrun as (lv & s2 & E2 & Hrun).
    injection Hrun as <-.
    apply (train_step_weights_length 0 _ _ _ _ _ Hw ltac:(lia) E2).
    + rewrite Hst. simpl. reflexivity.
    + simpl. rewrite Z.div_0_l by lia. reflexivity.
  - pose proof (train_loop_stage cfg _ _ _ _ _ Hw Hrun) as Hst.
    replace (Z.of_nat (S (S n)) - 1) with (Z.of_nat (S n)) in Hst by lia.
    pose proof (getitem_in_range _ _
                  (train_loop_in_range cfg _ _ _ _ _ Hrun)) as Hrange.
    remember (S n) as k eqn:Hk. simpl in Hrun.
    apply bind_Ok in Hrun. destruct Hrun as ([] & s1 & E1 & Hrun).
    apply bind_Ok in Hrun. destruct Hrun as (lv & s2 & E2 & Hrun).
    injection Hrun as <-. subst k.
    pose proof (IH _ E1) as Hlen1.
    pose proof (getitem_in_range _ _
                  (train_loop_in_range cfg _ _ _ _ _ E1)) as Hrange1.
    pose proof (train_loop_stage cfg _ _ _ _ _ Hw E1) as Hst1.
    replace (Z.of_nat (S n) - 1) with (Z.of_nat n) in Hst1 by lia.
    simpl init_state in Hst1. simpl curr_stage in Hst1.
    assert (Hq : 0 <= Z.of_nat n
                      / (iters_per_scale cfg * discriminator_steps cfg))
      by (apply Z.div_pos; lia).
    assert (Hr1 : reals s1 <> []).
    { intros Hnil. rewrite Hnil in Hrange1. simpl in Hrange1. lia. }
    destruct (pyramids_reals_fixed cfg (Z.of_nat (S n)) (batch (S n)) ow s1
                ltac:(lia) Hr1) as [Hreals _].
    rewrite E2 in Hreals. simpl in Hreals.
    simpl init_state in Hst. simpl curr_stage in Hst.
    replace (Z.of_nat (S n) + 1) with (Z.of_nat (S n) + 1) by lia.
    apply (train_step_weights_length (Z.of_nat (S n)) _ _ _ _ _ Hw
             ltac:(lia) E2).
    + lia.
    + rewrite Hlen1. rewrite Hreals in Hrange.
      replace (Z.of_nat n + 1) with (Z.of_nat (S n)) by lia.
      rewrite Hst in Hrange. lia.
Qed.

End WeightsAlongRuns.

Section RoundCounts.

Context {env : Collaborators}.
Variable cfg : Config.











End RoundCounts.

Section Logs.





End Logs.

Section Reports.

Context {env : Collaborators}.
Variable cfg : Config.



End Reports.

Section Freezing.

Context {env : Collaborators}.
Variable cfg : Config.

Lemma train_generator_keeps_flag inputs w :
  keeps disc_requires_grad (train_generator inputs w).
Proof.
  unfold train_generator, as_tensor, update_params.
  repeat first
    [ apply call_generator_keeps; intros; reflexivity
    | apply gen_loss_keeps
    | progress keeps_prim ].
Qed.

Lemma gen_rounds_keeps_flag n inputs w :
  keeps disc_requires_grad (gen_rounds n inputs w).
Proof.
  induction n as [| n IH]; simpl.
  - apply keeps_ret.
  - apply keeps_bind; [apply train_generator_keeps_flag | intros ?].
    apply keeps_bind; [exact IH | intros ?]. apply keeps_ret.
Qed.

(** The part under "only do ema after generator update" always
    returns. *)
Lemma ema_after_generator_returns i acc s :
  exists s', ema_after_generator cfg i acc s = Ok tt s'.
Proof.
  unfold ema_after_generator, ema_update_parameters, ema_sync_buffers,
    ema_sync_parameters.
  unfold_prims_goal.
  destruct (with_ema_gen cfg && _); [destruct (update_buffers cfg) | ];
    [ | | destruct (with_ema_gen cfg)]; simpl; eexists; reflexivity.
Qed.

(** Once the discriminator round has returned and the counter fires, a
    [train_gan] that raises does so with the discriminator frozen. *)
Lemma train_gan_raise_frozen i inputs ow s lvd sd e s' :
  train_discriminator inputs (optim_discriminator ow) s = Ok lvd sd ->
  discriminator_steps cfg * accumulative_counts (optim_discriminator ow)
  <> 0 ->
  (i + 1) mod (discriminator_steps cfg
               * accumulative_counts (optim_discriminator ow)) = 0 ->
  train_gan cfg i inputs ow s = Raise e s' ->
  disc_requires_grad s' = false.
Proof.
  intros Hd Hne Hmod Hrun. unfold train_gan in Hrun.
  unfold bind at 1 in Hrun. rewrite Hd in Hrun.
  unfold py_mod in Hrun. apply Z.eqb_neq in Hne. rewrite Hne in Hrun.
  unfold bind at 1 in Hrun. unfold ret at 1 in Hrun.
  rewrite Hmod in Hrun. simpl (0 =? 0) in Hrun. cbv iota in Hrun.
  unfold set_requires_grad in Hrun.
  unfold bind at 1 in Hrun. unfold bind at 1 in Hrun.
  unfold modify at 1 in Hrun. unfold emit at 1 in Hrun.
  unfold modify at 1 in Hrun.
  unfold bind at 1 in Hrun. unfold emit at 1 in Hrun.
  unfold modify at 1 in Hrun.
  unfold bind at 1 in Hrun.
  match type of Hrun with
  | context [gen_rounds ?n ?inp ?w ?s0] =>
      pose proof (gen_rounds_keeps_flag n inp w s0) as Hflag;
      destruct (gen_rounds n inp w s0) as [l s1 | e1 s1]
  end; simpl in Hflag.
  - unfold bind at 1 in Hrun. unfold of_option in Hrun.
    destruct (gather_log_vars l).
    + exfalso. unfold ret at 1 in Hrun.
      unfold bind at 1 in Hrun. unfold bind at 1 in Hrun.
      unfold modify at 1 in Hrun. unfold emit at 1 in Hrun.
      unfold modify at 1 in Hrun. unfold bind at 1 in Hrun.
      match type of Hrun with
      | context [ema_after_generator cfg ?a ?b ?s0] =>
          destruct (ema_after_generator_returns a b s0) as [sx Hx];
          rewrite Hx in Hrun
      end.
      discriminate Hrun.
    + injection Hrun as _ <-. exact Hflag.
  - injection Hrun as _ <-. exact Hflag.
Qed.

End Freezing.

Section Indexing.

Lemma getitem_last {A : Type} (pre : list A) (t : A) :
  Py.getitem (pre ++ [t]) (-1) = Some t.
Proof.
  unfold Py.getitem. rewrite length_app. simpl length.
  replace (0 <=? -1) with false by reflexivity. simpl andb.
  replace ((- Z.of_nat (length pre + 1) <=? -1) && (-1 <? 0)) with true
    by (symmetry; apply andb_true_iff; split;
        [apply Z.leb_le; lia | reflexivity]).
  replace (Z.to_nat (Z.of_nat (length pre + 1) + -1)) with (length pre)
    by lia.
  rewrite nth_error_app2 by lia. rewrite Nat.sub_diag. reflexivity.
Qed.

Lemma getitem_out_of_range {A : Type} (l : list A) (i : Z) :
  i < - Z.of_nat (length l) \/ Z.of_nat (length l) <= i ->
  Py.getitem l i = None.
Proof.
  intros Hi. unfold Py.getitem.
  replace ((0 <=? i) && (i <? Z.of_nat (length l))) with false
    by (symmetry; apply andb_false_iff;
        destruct Hi; [left; apply Z.leb_gt | right; apply Z.ltb_ge]; lia).
  replace ((- Z.of_nat (length l) <=? i) && (i <? 0)) with false
    by (symmetry; apply andb_false_iff;
        destruct Hi; [left; apply Z.leb_gt | right; apply Z.ltb_ge]; lia).
  reflexivity.
Qed.

End Indexing.

(** ** Inference *)

Lemma set_fixed_noises_same (s : State) :
  set_fixed_noises (fixed_noises s) s = s.
Proof. destruct s; reflexivity. Qed.

Lemma passed_kwargs_popped (d : gmap string PyVal) (k : string) :
  In k popped_keys -> passed_kwargs d !! k = None.
Proof.
  unfold passed_kwargs, popped_keys. simpl.
  intros [<- | [<- | [<- | [<- | []]]]].
  - rewrite !lookup_delete_ne by discriminate. apply lookup_delete_eq.
  - rewrite !lookup_delete_ne by discriminate. apply lookup_delete_eq.
  - rewrite !lookup_delete_ne by discriminate. apply lookup_delete_eq.
  - apply lookup_delete_eq.
Qed.

Lemma passed_kwargs_other (d : gmap string PyVal) (k : string) :
  ~ In k popped_keys -> passed_kwargs d !! k = d !! k.
Proof.
  unfold passed_kwargs, popped_keys. simpl. intros Hk.
  rewrite !lookup_delete_ne; [reflexivity | | | | ];
    intros <-; apply Hk; tauto.
Qed.

Lemma passed_kwargs_insert (d : gmap string PyVal) (k : string) (v : PyVal) :
  In k popped_keys -> passed_kwargs (<[k := v]> d) = passed_kwargs d.
Proof.
  intros Hk. apply map_eq. intros k'.
  destruct (in_dec string_dec k' popped_keys) as [Hin | Hout].
  - rewrite !passed_kwargs_popped by exact Hin. reflexivity.
  - rewrite !passed_kwargs_other by exact Hout.
    apply lookup_insert_ne. intros <-. exact (Hout Hk).
Qed.

Section ForwardRuns.

Context {D : Type} {inf : Inference D}.
Variable cfg : Config.

(** [forward] on a dict, with what it pops resolved. *)
Lemma forward_run (d : gmap string PyVal) (ds : option (list D))
    (mode : PyVal) (s : State) :
  forward cfg (InDict d) ds mode s =
  if py_eq_one (default (VInt 1) (d !! "num_batches"))
  then
    match get_valid_model cfg s d with
    | Some m =>
        if String.eqb m "ema" || String.eqb m "orig"
        then sample_single cfg m (resolved_mode d mode)
               (resolved_scale d s) (passed_kwargs d) ds s
        else sample_both cfg m (resolved_mode d mode)
               (resolved_scale d s) (passed_kwargs d) ds s
    | None => Raise (CollaboratorError "_get_valid_model") s
    end
  else
    Raise (AssertionError
             ("SinGAN only support 'num_batches' as 1, but receive "
              +:+ py_format (default (VInt 1) (d !! "num_batches"))
              +:+ ".")) s.
Proof.
  unfold forward, dict_pop, py_assert.
  destruct (py_eq_one (default (VInt 1) (d !! "num_batches")));
    [ | reflexivity].
  unfold bind at 1. unfold ret at 1.
  unfold bind at 1.
  destruct (get_valid_model cfg s d) as [m | ]; [ | reflexivity].
  unfold of_option, ret at 1.
  unfold bind at 1, gets at 1. unfold bind at 1, modify at 1.
  rewrite set_fixed_noises_same.
  unfold resolved_mode, resolved_scale, passed_kwargs.
  rewrite !lookup_delete_ne by discriminate.
  destruct (String.eqb m "ema" || String.eqb m "orig"); reflexivity.
Qed.

End ForwardRuns.

Lemma commutes_ret {A : Type} f (a : A) : commutes f (ret a).
Proof. intros s. reflexivity. Qed.

Lemma commutes_raise {A : Type} f e : commutes f (@raise A e).
Proof. intros s. reflexivity. Qed.

Lemma commutes_of_option {A : Type} f (o : option A) e :
  commutes f (of_option o e).
Proof. destruct o; intros s; reflexivity. Qed.

Lemma commutes_gets {A : Type} f (g : State -> A) :
  (forall s, g (f s) = g s) -> commutes f (gets g).
Proof. intros H s. unfold gets. rewrite H. reflexivity. Qed.

Lemma commutes_bind {A B : Type} f (m : M A) (k : A -> M B) :
  commutes f m -> (forall a, commutes f (k a)) -> commutes f (bind m k).
Proof.
  intros Hm Hk s. unfold bind. rewrite Hm.
  destruct (m s) as [a s1 | e s1]; simpl.
  - apply Hk.
  - reflexivity.
Qed.

Ltac commutes_step :=
  lazymatch goal with
  | |- commutes _ (bind _ _) => apply commutes_bind; [ | intros ? ]
  | |- commutes _ (ret _) => apply commutes_ret
  | |- commutes _ (raise _) => apply commutes_raise
  | |- commutes _ (of_option _ _) => apply commutes_of_option
  | |- commutes _ (if ?c then _ else _) => destruct c
  | |- commutes _ (match ?x with _ => _ end) => destruct x
  end.

Section ForwardFrames.

Context {D : Type} {inf : Inference D}.
Variable cfg : Config.

Lemma call_for_sample_keeps {B : Type} (f : State -> B) net mode scale kw :
  (forall n s, f (set_rng n s) = f s) ->
  keeps f (call_for_sample net mode scale kw).
Proof.
  intros H s. unfold call_for_sample.
  destruct (repeated_keyword kw); [reflexivity | ].
  destruct (gen_sample _ _ _ _ _ _ _) as [[o | ] n]; simpl; apply H.
Qed.

Lemma destruct_all_keeps {B : Type} (f : State -> B) l (ds : option (list D)) :
  keeps f (destruct_all l ds).
Proof.
  induction l as [ | r l IH]; simpl; [apply keeps_ret | ].
  unfold destruct_one.
  apply keeps_bind; [apply keeps_of_option | intros ?].
  apply keeps_bind; [exact IH | intros ?]. apply keeps_ret.
Qed.

Lemma first_of_all_keeps {B : Type} (f : State -> B) l :
  keeps f (first_of_all l).
Proof.
  induction l as [ | r l IH]; simpl; [apply keeps_ret | ].
  unfold first_of.
  apply keeps_bind; [apply keeps_of_option | intros ?].
  apply keeps_bind; [exact IH | intros ?]. apply keeps_ret.
Qed.

Lemma fields_of_keeps {B : Type} (f : State -> B) o :
  keeps f (fields_of o).
Proof.
  destruct o; simpl; unfold first_of.
  - apply keeps_bind; [apply keeps_of_option | intros ?]. apply keeps_ret.
  - apply keeps_bind; [apply keeps_of_option | intros ?].
    apply keeps_bind; [apply first_of_all_keeps | intros ?].
    apply keeps_ret.
Qed.

Lemma get_generator_ema_keeps {B : Type} (f : State -> B) :
  keeps f (get_generator_ema cfg).
Proof. unfold get_generator_ema. repeat keeps_step. Qed.

Ltac forward_keeps H :=
  repeat first
    [ apply call_for_sample_keeps; exact H
    | apply destruct_all_keeps
    | apply fields_of_keeps
    | apply get_generator_ema_keeps
    | progress (unfold destruct_one)
    | keeps_step ].

Lemma sample_single_keeps {B : Type} (f : State -> B) m mode scale kw
    (ds : option (list D)) :
  (forall n s, f (set_rng n s) = f s) ->
  keeps f (sample_single cfg m mode scale kw ds).
Proof. intros H. unfold sample_single. forward_keeps H. Qed.

Lemma sample_both_keeps {B : Type} (f : State -> B) m mode scale kw
    (ds : option (list D)) :
  (forall n s, f (set_rng n s) = f s) ->
  keeps f (sample_both cfg m mode scale kw ds).
Proof. intros H. unfold sample_both. forward_keeps H. Qed.

Lemma forward_keeps {B : Type} (f : State -> B) inputs
    (ds : option (list D)) mode :
  (forall n s, f (set_rng n s) = f s) ->
  keeps f (forward cfg inputs ds mode).
Proof.
  intros H s. destruct inputs as [d | t]; [ | reflexivity].
  rewrite forward_run.
  destruct (py_eq_one _); [ | reflexivity].
  destruct (get_valid_model cfg s d) as [m | ]; [ | reflexivity].
  destruct (String.eqb m "ema" || String.eqb m "orig").
  - apply sample_single_keeps, H.
  - apply sample_both_keeps, H.
Qed.

(** The steps after the generator calls leave the state alone. *)
Lemma destruct_all_Ok l (ds : option (list D)) s l' s' :
  destruct_all l ds s = Ok l' s' -> s' = s /\ length l' = length l.
Proof.
  revert s l' s'. induction l as [ | r l IH]; simpl; intros s l' s' H.
  - injection H as <- <-. split; reflexivity.
  - apply bind_Ok in H. destruct H as (r' & s1 & Hr & H).
    apply bind_Ok in H. destruct H as (l'' & s2 & Hl & H).
    injection H as <- <-.
    unfold destruct_one in Hr.
    assert (s1 = s)
      by exact (keeps_Ok (fun x => x) _ _ _ _ (keeps_of_option _ _ _) Hr).
    subst s1.
    apply IH in Hl. destruct Hl as [-> Hlen].
    split; [reflexivity | simpl; congruence].
Qed.

Lemma first_of_all_Ok l s l' s' :
  first_of_all l s = Ok l' s' -> s' = s /\ length l' = length l.
Proof.
  revert s l' s'. induction l as [ | r l IH]; simpl; intros s l' s' H.
  - injection H as <- <-. split; reflexivity.
  - apply bind_Ok in H. destruct H as (r' & s1 & Hr & H).
    apply bind_Ok in H. destruct H as (l'' & s2 & Hl & H).
    injection H as <- <-.
    unfold first_of in Hr.
    assert (s1 = s)
      by exact (keeps_Ok (fun x => x) _ _ _ _ (keeps_of_option _ _ _) Hr).
    subst s1.
    apply IH in Hl. destruct Hl as [-> Hlen].
    split; [reflexivity | simpl; congruence].
Qed.

Lemma of_option_Ok {A : Type} (o : option A) e s a s' :
  of_option o e s = Ok a s' -> o = Some a /\ s' = s.
Proof.
  destruct o as [x | ]; simpl; intros H; [ | discriminate H].
  injection H as <- <-. split; reflexivity.
Qed.

Lemma call_for_sample_Ok net mode scale kw s o s' :
  call_for_sample net mode scale kw s = Ok o s' ->
  repeated_keyword kw = false
  /\ exists n,
      gen_sample net (fixed_noises s) (noise_weights s) mode scale kw
        (rng s) = (Some o, n)
      /\ s' = set_rng (rng s + n)%nat s.
Proof.
  unfold call_for_sample.
  destruct (repeated_keyword kw); [discriminate | ].
  destruct (gen_sample _ _ _ _ _ _ _) as [[out | ] n]; [ | discriminate].
  intros H. injection H as <- <-.
  split; [reflexivity | ]. exists n. split; reflexivity.
Qed.

Lemma fields_of_tensor t s f s' :
  fields_of (OutTensor t) s = Ok f s' ->
  s' = s /\ tensor_first t = Some (fake_img f) /\ prev_res_list f = None.
Proof.
  simpl. intros H.
  apply bind_Ok in H. destruct H as (t0 & s1 & Ht & H).
  injection H as <- <-.
  apply of_option_Ok in Ht. destruct Ht as [Ht ->].
  repeat split. exact Ht.
Qed.

Lemma fields_of_dict fk pv s f s' :
  fields_of (OutDict fk pv) s = Ok f s' ->
  s' = s /\ tensor_first fk = Some (fake_img f)
  /\ exists pv', prev_res_list f = Some pv' /\ length pv' = length pv.
Proof.
  simpl. intros H.
  apply bind_Ok in H. destruct H as (t0 & s1 & Ht & H).
  apply bind_Ok in H. destruct H as (p0 & s2 & Hp & H).
  injection H as <- <-.
  apply of_option_Ok in Ht. destruct Ht as [Ht ->].
  apply first_of_all_Ok in Hp. destruct Hp as [-> Hlen].
  repeat split; [exact Ht | ]. exists p0. split; [reflexivity | exact Hlen].
Qed.

Lemma sample_single_Ok m mode scale kw (ds : option (list D)) s l s' :
  sample_single cfg m mode scale kw ds s = Ok l s' ->
  (m = "ema" -> with_ema_gen cfg = true)
  /\ repeated_keyword kw = false
  /\ exists o n f,
      gen_sample (if String.eqb m "ema" then generator_ema s
                  else generator s)
        (fixed_noises s) (noise_weights s) mode scale kw (rng s)
      = (Some o, n)
      /\ s' = set_rng (rng s + n)%nat s
      /\ l = [mkSample (update_source ds) (Single f) m]
      /\ read_from ds o f.
Proof.
  unfold sample_single. intros H.
  apply bind_Ok in H. destruct H as (net & s1 & Hnet & H).
  apply bind_Ok in H. destruct H as (o & s2 & Hcall & H).
  apply bind_Ok in H. destruct H as (o' & s3 & Hdes & H).
  apply bind_Ok in H. destruct H as (f & s4 & Hf & H).
  injection H as <- <-.
  assert (Hn : (m = "ema" -> with_ema_gen cfg = true)
               /\ s1 = s
               /\ net = (if String.eqb m "ema" then generator_ema s
                         else generator s)).
  { destruct (String.eqb m "ema") eqn:Em.
    - unfold get_generator_ema in Hnet.
      destruct (with_ema_gen cfg); [ | discriminate Hnet].
      injection Hnet as <- <-. repeat split.
    - injection Hnet as <- <-. repeat split.
      intros ->. discriminate Em. }
  destruct Hn as (Hema & -> & ->).
  apply call_for_sample_Ok in Hcall.
  destruct Hcall as (Hkw & n & Hgen & ->).
  split; [exact Hema | ]. split; [exact Hkw | ].
  exists o, n, f.
  destruct o as [t | fk pv].
  - apply bind_Ok in Hdes. destruct Hdes as (t' & s5 & Ht & Hdes).
    injection Hdes as <- <-.
    apply of_option_Ok in Ht. destruct Ht as [Ht ->].
    apply fields_of_tensor in Hf. destruct Hf as (-> & Hfirst & Hprev).
    repeat split; [exact Hgen | ].
    exists t'. repeat split; assumption.
  - apply bind_Ok in Hdes. destruct Hdes as (fk' & s5 & Hfk & Hdes).
    apply bind_Ok in Hdes. destruct Hdes as (pv' & s6 & Hpv & Hdes).
    apply bind_Ok in Hdes. destruct Hdes as (again & s7 & Hag & Hdes).
    injection Hdes as <- <-.
    apply of_option_Ok in Hfk. destruct Hfk as [Hfk ->].
    apply destruct_all_Ok in Hpv. destruct Hpv as [-> Hlen].
    apply of_option_Ok in Hag. destruct Hag as [Hag ->].
    apply fields_of_dict in Hf.
    destruct Hf as (-> & Hfirst & pv0 & Hprev & Hlen0).
    repeat split; [exact Hgen | ].
    exists fk', pv0. repeat split; try assumption. congruence.
Qed.

Lemma sample_both_Ok m mode scale kw (ds : option (list D)) s l s' :
  sample_both cfg m mode scale kw ds s = Ok l s' ->
  with_ema_gen cfg = true
  /\ repeated_keyword kw = false
  /\ exists oo n1 oe n2 fe fo,
      gen_sample (generator s) (fixed_noises s) (noise_weights s) mode
        scale kw (rng s) = (Some oo, n1)
      /\ gen_sample (generator_ema s) (fixed_noises s) (noise_weights s)
           mode scale kw (rng s + n1)%nat = (Some oe, n2)
      /\ s' = set_rng (rng s + n1 + n2)%nat s
      /\ l = [mkSample (update_source ds) (Dual fe fo) m]
      /\ read_from ds oo fo
      /\ read_from ds oe fe.
Proof.
  unfold sample_both. intros H.
  apply bind_Ok in H. destruct H as (net & s1 & Hnet & H).
  injection Hnet as <- <-.
  apply bind_Ok in H. destruct H as (oo & s2 & Hcall & H).
  apply bind_Ok in H. destruct H as (nete & s3 & Hnete & H).
  apply bind_Ok in H. destruct H as (oe & s4 & Hcalle & H).
  apply bind_Ok in H. destruct H as ([oo' oe'] & s5 & Hdes & H).
  apply bind_Ok in H. destruct H as (fe & s6 & Hfe & H).
  apply bind_Ok in H. destruct H as (fo & s7 & Hfo & H).
  injection H as <- <-. simpl in Hfe, Hfo.
  apply call_for_sample_Ok in Hcall.
  destruct Hcall as (Hkw & n1 & Hgen & ->).
  unfold get_generator_ema in Hnete.
  destruct (with_ema_gen cfg); [ | discriminate Hnete].
  injection Hnete as <- <-.
  apply call_for_sample_Ok in Hcalle.
  destruct Hcalle as (_ & n2 & Hgene & ->).
  simpl in Hgene.
  split; [reflexivity | ]. split; [exact Hkw | ].
  exists oo, n1, oe, n2, fe, fo.
  split; [exact Hgen | ]. split; [exact Hgene | ].
  destruct oo as [t | fk pv].
  - apply bind_Ok in Hdes. destruct Hdes as (t' & s8 & Ht & Hdes).
    apply of_option_Ok in Ht. destruct Ht as [Ht ->].
    destruct oe as [te | efk epv]; [ | discriminate Hdes].
    apply bind_Ok in Hdes. destruct Hdes as (te' & s9 & Hte & Hdes).
    apply of_option_Ok in Hte. destruct Hte as [Hte ->].
    injection Hdes as <- <- <-.
    apply fields_of_tensor in Hfe. destruct Hfe as (-> & Hfe1 & Hfe2).
    apply fields_of_tensor in Hfo. destruct Hfo as (-> & Hfo1 & Hfo2).
    repeat split.
    + exists t'. repeat split; assumption.
    + exists te'. repeat split; assumption.
  - apply bind_Ok in Hdes. destruct Hdes as (fk' & s8 & Hfk & Hdes).
    apply of_option_Ok in Hfk. destruct Hfk as [Hfk ->].
    apply bind_Ok in Hdes. destruct Hdes as (pv' & s9 & Hpv & Hdes).
    apply destruct_all_Ok in Hpv. destruct Hpv as [-> Hlen].
    destruct oe as [te | efk epv]; [discriminate Hdes | ].
    apply bind_Ok in Hdes. destruct Hdes as (efk' & s10 & Hefk & Hdes).
    apply of_option_Ok in Hefk. destruct Hefk as [Hefk ->].
    apply bind_Ok in Hdes. destruct Hdes as (epv' & s11 & Hepv & Hdes).
    apply destruct_all_Ok in Hepv. destruct Hepv as [-> Helen].
    injection Hdes as <- <- <-.
    apply fields_of_dict in Hfe.
    destruct Hfe as (-> & Hfe1 & p1 & Hfe2 & Hfe3).
    apply fields_of_dict in Hfo.
    destruct Hfo as (-> & Hfo1 & p2 & Hfo2 & Hfo3).
    repeat split.
    + exists fk', p2. repeat split; try assumption. congruence.
    + exists efk', p1. repeat split; try assumption. congruence.
Qed.

End ForwardFrames.

Section ForwardIndependence.

Context {D : Type} {inf : Inference D}.
Variable cfg : Config.

Lemma call_for_sample_commutes f net mode scale kw :
  unseen f -> commutes f (call_for_sample net mode scale kw).
Proof.
  intros (Hfn & Hnw & Hrng & Hset) s. unfold call_for_sample.
  destruct (repeated_keyword kw); [reflexivity | ].
  rewrite Hfn, Hnw, Hrng.
  destruct (gen_sample _ _ _ _ _ _ _) as [[o | ] n]; simpl;
    rewrite Hset; reflexivity.
Qed.

Lemma destruct_all_commutes f l (ds : option (list D)) :
  commutes f (destruct_all l ds).
Proof.
  induction l as [ | r l IH]; simpl; [apply commutes_ret | ].
  unfold destruct_one.
  apply commutes_bind; [apply commutes_of_option | intros ?].
  apply commutes_bind; [exact IH | intros ?]. apply commutes_ret.
Qed.

Lemma first_of_all_commutes f l : commutes f (first_of_all l).
Proof.
  induction l as [ | r l IH]; simpl; [apply commutes_ret | ].
  unfold first_of.
  apply commutes_bind; [apply commutes_of_option | intros ?].
  apply commutes_bind; [exact IH | intros ?]. apply commutes_ret.
Qed.

Lemma fields_of_commutes f o : commutes f (fields_of o).
Proof.
  destruct o; simpl; unfold first_of.
  - apply commutes_bind; [apply commutes_of_option | intros ?].
    apply commutes_ret.
  - apply commutes_bind; [apply commutes_of_option | intros ?].
    apply commutes_bind; [apply first_of_all_commutes | intros ?].
    apply commutes_ret.
Qed.

(** The single branch commutes with a change that the network it takes
    does not see either. *)
Lemma sample_single_commutes f m mode scale kw (ds : option (list D)) :
  unseen f ->
  commutes f (if String.eqb m "ema" then get_generator_ema cfg
              else gets generator) ->
  commutes f (sample_single cfg m mode scale kw ds).
Proof.
  intros Hf Hnet. unfold sample_single.
  apply commutes_bind; [exact Hnet | intros net].
  apply commutes_bind; [apply call_for_sample_commutes, Hf | intros o].
  apply commutes_bind; [ | intros o'].
  - destruct o; unfold destruct_one.
    + apply commutes_bind; [apply commutes_of_option | intros ?].
      apply commutes_ret.
    + apply commutes_bind; [apply commutes_of_option | intros ?].
      apply commutes_bind; [apply destruct_all_commutes | intros ?].
      apply commutes_bind; [apply commutes_of_option | intros ?].
      apply commutes_ret.
  - apply commutes_bind; [apply fields_of_commutes | intros ?].
    apply commutes_ret.
Qed.

Lemma unseen_set_generator net : unseen (set_generator net).
Proof. repeat split. Qed.

Lemma unseen_set_generator_ema net : unseen (set_generator_ema net).
Proof. repeat split. Qed.

End ForwardIndependence.

(** * Further properties of the code *)

(** ** The order of the calls within a tick *)

(** X1. A tick that returns has made its calls in this order: on entering
    a stage, the two networks load the previous weights and, with a
    learning-rate schedule configured, fresh schedulers are built for the
    new stage; then the update rounds of [train_gan] with the optimizers of
    the stage the tick ends in; then, when
    [(i + 1) mod discriminator_steps = 0] and a schedule is configured, one
    step of the discriminator's scheduler and one of the generator's. *)
Theorem train_step_call_order `{Collaborators} (cfg : Config)
    (i : Z) (inputs : gmap string Tensor) (ow : gmap string OptimWrapper)
    (s : State) (lv : Py.dict) (s' : State) :
  train_step cfg i inputs ow s = Ok lv s' ->
  exists g d,
    ow !! gen_key (curr_stage s') = Some g
    /\ ow !! disc_key (curr_stage s') = Some d
    /\ calls s' =
       calls s
       ++ (if i mod (iters_per_scale cfg * discriminator_steps cfg) =? 0
           then [CheckAndLoadPrevWeight Generator (curr_stage s');
                 CheckAndLoadPrevWeight Discriminator (curr_stage s')]
                ++ (if lr_scheduler_args cfg
                    then [BuildSchedulers (curr_stage s')] else [])
           else [])
       ++ train_gan_calls cfg i (mkPair g d)
       ++ (if ((i + 1) mod discriminator_steps cfg =? 0)
              && lr_scheduler_args cfg
           then [SchedulerStep Discriminator; SchedulerStep Generator]
           else []).
Proof.
  intros Hrun.
  destruct (train_step_inv cfg _ _ _ _ _ _ Hrun) as (Hw & _).
  destruct (train_step_calls_inv cfg _ _ _ _ _ _ Hrun)
    as (g & d & Hg & Hd & _ & Hc).
  exists g, d. split; [exact Hg | ]. split; [exact Hd | ].
  rewrite Hc. unfold transition_calls, transition_fires, scheduler_calls.
  apply Z.eqb_neq in Hw. rewrite Hw. reflexivity.
Qed.

(** The second tick of the instance, the last of the first window. *)
Lemma train_step_call_order_witness :
  exists lv s',
    @train_step demo_env (demo_cfg 2 1 2 (1 / 10) false 0) 1 demo_batch
      (demo_optims 1) demo_trained = Ok lv s'
    /\ calls s' =
       [UpdateParams Discriminator; SetRequiresGrad Discriminator false;
        InitializeCountStatus 2; UpdateParams Generator;
        UpdateParams Generator; SetRequiresGrad Discriminator true].
Proof.
  destruct (@train_step demo_env (demo_cfg 2 1 2 (1 / 10) false 0) 1
              demo_batch (demo_optims 1) demo_trained)
    as [lv s' | e s'] eqn:E.
  - exists lv, s'. split; [reflexivity | ].
    destruct (@train_step_call_order demo_env _ _ _ _ _ _ _ E)
      as (g & d & Hg & Hd & Hc).
    assert (Hst : curr_stage s' = 0).
    { vm_compute in E. injection E as _ <-. reflexivity. }
    rewrite Hst in Hg, Hd.
    vm_compute in Hg. vm_compute in Hd.
    injection Hg as <-. injection Hd as <-.
    rewrite Hc. reflexivity.
  - vm_compute in E. discriminate E.
Defined.

(** ** The pyramids once they are set *)

(** X2. A tick at an index other than 0, on an object whose real pyramid is
    not empty, leaves the real pyramid and the fixed noises as they are,
    whether it returns or raises, and whatever the batch holds. *)
Theorem pyramids_set_once `{Collaborators} (cfg : Config)
    (i : Z) (inputs : gmap string Tensor) (ow : gmap string OptimWrapper)
    (s : State) :
  i <> 0 ->
  reals s <> [] ->
  reals (final (train_step cfg i inputs ow s)) = reals s
  /\ fixed_noises (final (train_step cfg i inputs ow s)) = fixed_noises s.
Proof.
  intros Hi Hr. apply pyramids_reals_fixed; assumption.
Qed.

(** The second tick of the instance, fed a batch without any image. *)
Lemma pyramids_set_once_witness :
  reals (final (@train_step demo_env (demo_cfg 1 1 2 (1 / 10) false 0) 1
                  (<["input_sample" := demo_real0]> ∅) (demo_optims 1)
                  demo_trained))
  = [demo_real0; demo_real1].
Proof.
  destruct (@pyramids_set_once demo_env (demo_cfg 1 1 2 (1 / 10) false 0) 1
              (<["input_sample" := demo_real0]> ∅) (demo_optims 1)
              demo_trained) as [Hr _].
  - discriminate.
  - discriminate.
  - rewrite Hr. reflexivity.
Defined.

(** ** Building the pyramids *)

(** X3. [construct_fixed_noises] returns exactly when every real image has
    a height and a width. It appends: the noises it leaves are the ones
    the object had, followed by one per real image. At the first image
    without a height and a width it raises [ValueError], and the noises of
    the images before that one stay appended. *)
Theorem construct_fixed_noises_appends `{Collaborators} (s : State) :
  (Forall has_hw (reals s) <-> exists s', construct_fixed_noises s = Ok tt s')
  /\ (forall u s',
         construct_fixed_noises s = Ok u s' ->
         reals s' = reals s
         /\ exists new,
             fixed_noises s' = fixed_noises s ++ new
             /\ length new = length (reals s))
  /\ (forall pre real post,
         reals s = pre ++ real :: post ->
         Forall has_hw pre -> ~ has_hw real ->
         exists s' new,
           construct_fixed_noises s = Raise ValueError s'
           /\ fixed_noises s' = fixed_noises s ++ new
           /\ length new = length pre).
Proof.
  assert (Hok : forall u s',
             construct_fixed_noises s = Ok u s' ->
             Forall has_hw (reals s)
             /\ reals s' = reals s
             /\ exists new,
                 fixed_noises s' = fixed_noises s ++ new
                 /\ length new = length (reals s)).
  { intros u s' H0. unfold construct_fixed_noises in H0.
    apply bind_Ok in H0. destruct H0 as (rs & s1 & E & H0).
    injection E as <- <-. exact (construct_from_Ok _ _ _ _ _ H0). }
  split; [ | split].
  - split.
    + intros Hall. destruct (reals s) as [| real0 rest] eqn:Hr.
      * exists s. unfold construct_fixed_noises, bind, gets. rewrite Hr.
        reflexivity.
      * inversion Hall as [| ? ? Hreal0 Hrest]; subst.
        destruct (last2_two _ Hreal0) as (h & w & Hhw).
        eexists.
        apply (construct_fixed_noises_value s real0 rest h w Hr Hhw Hrest).
    + intros [s' H0]. apply Hok in H0. tauto.
  - intros u s' H0. apply Hok in H0. tauto.
  - intros pre real post Hr Hpre Hbad.
    destruct (construct_from_Raise 0 pre real post s Hpre Hbad)
      as (s' & new & Hrun & Hf & Hlen & _).
    exists s', new. unfold construct_fixed_noises, bind, gets.
    rewrite Hr. split; [exact Hrun | ]. split; assumption.
Qed.

(** X4. When the pyramids are set from a batch, the real pyramid gets as
    many images as the batch has keys containing ['real_scale'], its k-th
    image is the entry [real_scale<k>] of the batch, and one fixed noise per
    image is appended. When one of the keys [real_scale0 ..] up to that
    count is missing, the first missing one is the [KeyError] raised, and
    nothing of the object has changed. *)
Theorem setup_pyramids_reads_batch `{Collaborators}
    (inputs : gmap string Tensor) (s : State) :
  (forall u s',
      setup_pyramids inputs s = Ok u s' ->
      length (reals s') = n_real_keys inputs
      /\ (forall k, (k < n_real_keys inputs)%nat ->
                    nth_error (reals s') k = inputs !! real_key k)
      /\ length (fixed_noises s')
         = (length (fixed_noises s) + n_real_keys inputs)%nat)
  /\ (forall j,
         (j < n_real_keys inputs)%nat ->
         (forall k, (k < j)%nat -> inputs !! real_key k <> None) ->
         inputs !! real_key j = None ->
         setup_pyramids inputs s = Raise (KeyError (real_key j)) s).
Proof.
  split.
  - intros u s' H0. apply setup_pyramids_Ok in H0.
    destruct H0 as (Hlen & Hnth & _ & new & Hnew & Hnlen).
    split; [exact Hlen | ]. split; [exact Hnth | ].
    rewrite Hnew, length_app, Hnlen. reflexivity.
  - intros j. apply setup_pyramids_missing.
Qed.

(** A batch whose only image is under [real_scale1]: the pyramid asks for
    [real_scale0]. *)
Lemma setup_pyramids_reads_batch_witness :
  @setup_pyramids demo_env (<["real_scale1" := demo_real1]> ∅) demo_init
  = Raise (KeyError "real_scale0") demo_init.
Proof.
  destruct (@setup_pyramids_reads_batch demo_env
              (<["real_scale1" := demo_real1]> ∅) demo_init) as [_ Hmiss].
  apply (Hmiss 0%nat).
  - vm_compute. lia.
  - intros k Hk. lia.
  - reflexivity.
Defined.

(** ** The snapshot for inference *)

(** X5. With a pickle file configured and readable, the first [test_step]
    loads it: the fixed noises, the noise weights and the stage become the
    file's, the load is logged, [loaded_test_pkl] becomes true, the real
    pyramid and the networks are untouched, and the inference of the base
    class runs on that state. From any state with [loaded_test_pkl] true,
    [test_step] is the inference of the base class alone: the file is not
    read again. *)
Theorem test_step_loads_once `{Collaborators} (cfg : Config)
    {Data Samples : Type} (base_test_step : Data -> M Samples)
    (data : Data) (path : string) (d : PklData) (s : State) :
  pkl_data cfg = Some path ->
  read_pkl path = Some d ->
  loaded_test_pkl s = false ->
  (exists s1,
      load_test_pkl cfg s = Ok tt s1
      /\ test_step cfg base_test_step data s = base_test_step data s1
      /\ fixed_noises s1 = pkl_fixed_noises d
      /\ noise_weights s1 = pkl_noise_weights d
      /\ curr_stage s1 = pkl_curr_stage d
      /\ loaded_test_pkl s1 = true
      /\ reals s1 = reals s
      /\ generator s1 = generator s
      /\ generator_ema s1 = generator_ema s
      /\ calls s1 = calls s ++ [PrintLog ("Load pkl data from " +:+ path)])
  /\ (forall data2 s2,
         loaded_test_pkl s2 = true ->
         test_step cfg base_test_step data2 s2 = base_test_step data2 s2).
Proof.
  intros Hpkl Hread Hloaded. split.
  - eexists. split.
    { unfold load_test_pkl. rewrite Hpkl. unfold_prims_goal.
      rewrite Hread. reflexivity. }
    split.
    { unfold test_step, load_test_pkl. rewrite Hpkl. unfold_prims_goal.
      rewrite Hloaded, Hread. reflexivity. }
    simpl. repeat split; reflexivity.
  - intros data2 s2 H2. unfold test_step. unfold_prims_goal.
    rewrite H2. reflexivity.
Qed.

(** Loading the snapshot of the instance into the fresh object. *)
Lemma test_step_loads_once_witness :
  @test_step demo_env_pkl (demo_cfg_pkl "singan.pkl") unit Z
    (fun _ => gets curr_stage) tt demo_init
  = Ok 1
      (set_loaded_test_pkl true
         (set_calls [PrintLog "Load pkl data from singan.pkl"]
            (set_curr_stage 1
               (set_noise_weights [1%R; 2%R]
                  (set_fixed_noises [demo_real0; demo_real1] demo_init))))).
Proof.
  destruct (@test_step_loads_once demo_env_pkl (demo_cfg_pkl "singan.pkl")
              unit Z (fun _ => gets curr_stage) tt "singan.pkl" demo_pkl
              demo_init eq_refl eq_refl eq_refl)
    as [(s1 & Hload & Hrun & _) _].
  rewrite Hrun. injection Hload as <-. reflexivity.
Defined.

(** X6. With a pickle file configured that cannot be read, [test_step]
    raises the error of the read: nothing of the object has changed, the
    inference has not run, and [loaded_test_pkl] is still false, so that
    the next call reads again. *)
Theorem test_step_missing_pkl `{Collaborators} (cfg : Config)
    {Data Samples : Type} (base_test_step : Data -> M Samples)
    (data : Data) (path : string) (s : State) :
  pkl_data cfg = Some path ->
  read_pkl path = None ->
  loaded_test_pkl s = false ->
  test_step cfg base_test_step data s = Raise (FileNotFoundError path) s.
Proof.
  intros Hpkl Hread Hloaded.
  unfold test_step, load_test_pkl. rewrite Hpkl. unfold_prims_goal.
  rewrite Hloaded, Hread. reflexivity.
Qed.

(** A path at which the instance has no file. *)
Lemma test_step_missing_pkl_witness :
  @test_step demo_env_pkl (demo_cfg_pkl "other.pkl") unit Z
    (fun _ => gets curr_stage) tt demo_init
  = Raise (FileNotFoundError "other.pkl") demo_init.
Proof.
  apply (@test_step_missing_pkl demo_env_pkl (demo_cfg_pkl "other.pkl")
           unit Z); reflexivity.
Defined.

(** ** The noise weights along the ticks *)

(** X7. A tick never drops or rewrites a noise weight: whether it returns
    or raises, the sequence it leaves is the one it found, or that one with
    a single weight more at its end. *)
Theorem noise_weights_append_only `{Collaborators} (cfg : Config)
    (i : Z) (inputs : gmap string Tensor) (ow : gmap string OptimWrapper)
    (s : State) :
  appended_at_most_one (noise_weights s)
    (noise_weights (final (train_step cfg i inputs ow s))).
Proof. apply train_step_appends. Qed.

(** X8. After a run of the ticks [0..n] from a fresh object that all
    returned, with a positive window, the noise-weight sequence has
    [1 + min((n + 1) / window, len(reals) - 1)] elements: one per completed
    window, up to one per scale. So it always holds a weight for the
    current stage and never more weights than scales. *)
Theorem noise_weights_follow_stage `{Collaborators} (cfg : Config)
    (n : nat) (batch : nat -> gmap string Tensor)
    (ow : gmap string OptimWrapper) (g d e : Net) (seed : nat)
    (s' : State) :
  0 < iters_per_scale cfg * discriminator_steps cfg ->
  train_loop cfg (S n) batch ow (init_state g d e seed) = Ok tt s' ->
  Z.of_nat (length (noise_weights s'))
  = 1 + Z.min ((Z.of_nat n + 1)
               / (iters_per_scale cfg * discriminator_steps cfg))
              (Z.of_nat (length (reals s')) - 1)
  /\ curr_stage s' + 1 <= Z.of_nat (length (noise_weights s'))
     <= Z.of_nat (length (reals s')).
Proof.
  intros Hw Hrun.
  pose proof (train_loop_weights cfg _ _ _ _ _ _ _ _ Hw Hrun) as Hlen.
  pose proof (train_loop_stage cfg _ _ _ _ _ Hw Hrun) as Hst.
  pose proof (getitem_in_range _ _ (train_loop_in_range cfg _ _ _ _ _ Hrun))
    as Hrange.
  simpl in Hst. replace (Z.of_nat (S n) - 1) with (Z.of_nat n) in Hst by lia.
  split; [exact Hlen | ].
  assert (Hmono : Z.of_nat n / (iters_per_scale cfg * discriminator_steps cfg)
                  <= (Z.of_nat n + 1)
                     / (iters_per_scale cfg * discriminator_steps cfg))
    by (apply Z.div_le_mono; lia).
  lia.
Qed.

(** Four ticks of the two-scale instance with a window of 2: two weights. *)
Lemma noise_weights_follow_stage_witness :
  exists s',
    @train_loop demo_env (demo_cfg 1 1 2 (1 / 10) false 0) 4
      (fun _ => demo_batch) (demo_optims 1) demo_init = Ok tt s'
    /\ length (noise_weights s') = 2%nat.
Proof.
  destruct (@train_loop demo_env (demo_cfg 1 1 2 (1 / 10) false 0) 4
              (fun _ => demo_batch) (demo_optims 1) demo_init)
    as [[] s' | e s'] eqn:E.
  - exists s'. split; [reflexivity | ].
    destruct (@noise_weights_follow_stage demo_env
                (demo_cfg 1 1 2 (1 / 10) false 0) 3 _ _ _ _ _ _ s'
                ltac:(reflexivity) E) as [Hlen _].
    assert (Hr : length (reals s') = 2%nat).
    { vm_compute in E. injection E as <-. reflexivity. }
    rewrite Hr in Hlen.
    assert (H2 : Z.of_nat (length (noise_weights s')) = 2)
      by (rewrite Hlen; reflexivity).
    lia.
  - vm_compute in E. discriminate E.
Defined.

(** ** The update rounds along a run *)



(** ** What a tick reports *)



(** ** The image the generator loss compares with *)

(** X11. [gen_loss] takes its target by [self.reals[self.curr_stage]]: at
    the untrained stage [-1], with a pyramid that is not empty, the target
    is the last image of the pyramid; with a stage outside
    [[-len(reals), len(reals))] it raises [IndexError]. In neither case
    does it change the object. *)
Theorem gen_loss_target (d r : Tensor) (s : State) :
  (forall pre t,
      curr_stage s = -1 ->
      reals s = pre ++ [t] ->
      shape r = shape t ->
      exists log_vars,
        gen_loss d r s =
        Ok ((- Torch.mean d + 10 * Torch.rmean (Torch.sq_diff r t))%R,
            log_vars) s)
  /\ (curr_stage s < - Z.of_nat (length (reals s))
      \/ Z.of_nat (length (reals s)) <= curr_stage s ->
      gen_loss d r s = Raise IndexError s).
Proof.
  split.
  - intros pre t Hst Hr Hshape.
    assert (Ht : Py.getitem (reals s) (curr_stage s) = Some t)
      by (rewrite Hst, Hr; apply getitem_last).
    unfold gen_loss. unfold_prims_goal.
    rewrite Ht. unfold Torch.same_shape.
    rewrite bool_decide_eq_true_2 by exact Hshape.
    unfold parse_losses. simpl.
    eexists. f_equal. f_equal. ring.
  - intros Hout. unfold gen_loss. unfold_prims_goal.
    rewrite getitem_out_of_range by exact Hout. reflexivity.
Qed.

(** On the fresh object nothing is at any index. *)
Lemma gen_loss_target_witness :
  gen_loss demo_scores demo_real0 demo_init = Raise IndexError demo_init.
Proof.
  apply (proj2 (gen_loss_target demo_scores demo_real0 demo_init)).
  left. simpl. lia.
Defined.

(** ** Failures *)

(** X12. [train_gan] does not unfreeze the discriminator on a failure:
    when the discriminator round has returned, the counter fires, and the
    call raises, be it in a generator round or in the gathering of their
    logs, the discriminator is left with [requires_grad] false. *)
Theorem train_gan_leaves_frozen `{Collaborators} (cfg : Config)
    (i : Z) (inputs : gmap string Tensor) (ow : OptimPair) (s : State)
    (lvd : Py.dict) (sd : State) (e : Exn) (s' : State) :
  train_discriminator inputs (optim_discriminator ow) s = Ok lvd sd ->
  discriminator_steps cfg * accumulative_counts (optim_discriminator ow)
  <> 0 ->
  (i + 1) mod (discriminator_steps cfg
               * accumulative_counts (optim_discriminator ow)) = 0 ->
  train_gan cfg i inputs ow s = Raise e s' ->
  disc_requires_grad s' = false.
Proof. apply train_gan_raise_frozen. Qed.

(** With a log gathering that raises. *)
Lemma train_gan_leaves_frozen_witness :
  exists e s',
    @train_gan demo_env_nogather (demo_cfg 1 1 2 (1 / 10) false 0) 0
      demo_batch (mkPair (mkOptim 1) (mkOptim 1)) demo_trained = Raise e s'
    /\ disc_requires_grad demo_trained = true
    /\ disc_requires_grad s' = false.
Proof.
  destruct (@train_gan demo_env_nogather (demo_cfg 1 1 2 (1 / 10) false 0) 0
              demo_batch (mkPair (mkOptim 1) (mkOptim 1)) demo_trained)
    as [lv s' | e s'] eqn:E.
  - vm_compute in E. discriminate E.
  - exists e, s'. split; [reflexivity | ]. split; [reflexivity | ].
    destruct (@train_discriminator demo_env_nogather demo_batch (mkOptim 1)
                demo_trained) as [lvd sd | e0 s0] eqn:Ed.
    + apply (@train_gan_leaves_frozen demo_env_nogather
               (demo_cfg 1 1 2 (1 / 10) false 0) 0 demo_batch
               (mkPair (mkOptim 1) (mkOptim 1)) demo_trained lvd sd e s').
      * exact Ed.
      * simpl. lia.
      * reflexivity.
      * exact E.
    + vm_compute in Ed. discriminate Ed.
Defined.

(** X13. With [iters_per_scale * discriminator_steps = 0], every tick
    raises [ZeroDivisionError] at its first line: the stage is not
    incremented, no collaborator is called, nothing has changed. *)
Theorem train_step_zero_window `{Collaborators} (cfg : Config)
    (i : Z) (inputs : gmap string Tensor) (ow : gmap string OptimWrapper)
    (s : State) :
  iters_per_scale cfg * discriminator_steps cfg = 0 ->
  train_step cfg i inputs ow s = Raise ZeroDivisionError s.
Proof.
  intros Hw. rewrite train_step_unfold. unfold py_mod. rewrite Hw.
  reflexivity.
Qed.

(** With [iters_per_scale = 0]. *)
Lemma train_step_zero_window_witness :
  @train_step demo_env (demo_cfg 1 1 0 (1 / 10) false 0) 0 demo_batch
    (demo_optims 1) demo_init = Raise ZeroDivisionError demo_init.
Proof.
  apply (@train_step_zero_window demo_env (demo_cfg 1 1 0 (1 / 10) false 0)).
  reflexivity.
Defined.

(** ** Inference *)

(** X14. [forward] refuses, with an [AssertionError] and before anything
    else happens, inputs that are no dict and a dict whose ['num_batches']
    is not 1; the message of the second names the value received. The
    object is unchanged. *)
Theorem forward_num_batches {D : Type} {inf : Inference D} (cfg : Config)
    (ds : option (list D)) (mode : PyVal) (s : State) :
  (forall t,
      forward cfg (InTensor t) ds mode s =
      Raise (AssertionError
               "SinGAN only support dict type inputs in forward function.")
            s)
  /\ (forall d v,
         d !! "num_batches" = Some v ->
         v <> VInt 1 ->
         forward cfg (InDict d) ds mode s =
         Raise (AssertionError
                  ("SinGAN only support 'num_batches' as 1, but receive "
                   +:+ py_format v +:+ ".")) s).
Proof.
  split; [reflexivity | ].
  intros d v Hd Hv. rewrite forward_run, Hd. simpl default.
  replace (py_eq_one v) with false; [reflexivity | ].
  destruct v as [ | n | | ]; try reflexivity.
  simpl. symmetry. apply Z.eqb_neq. intros ->. apply Hv. reflexivity.
Qed.

(** A batch of two. *)
Lemma forward_num_batches_witness :
  @forward unit demo_inference (demo_cfg 1 1 2 (1 / 10) false 0)
    (InDict (<["num_batches" := VInt 2]> ∅)) None VNone demo_trained =
  Raise (AssertionError
           "SinGAN only support 'num_batches' as 1, but receive 2.")
        demo_trained.
Proof.
  apply (proj2 (@forward_num_batches unit demo_inference
                  (demo_cfg 1 1 2 (1 / 10) false 0) None VNone demo_trained)
           (<["num_batches" := VInt 2]> ∅) (VInt 2)).
  - reflexivity.
  - discriminate.
Defined.

(** X15. The generator call spells out [fixed_noises], [noise_weights] and
    [rand_mode] and adds the rest of the dict with [**]: a dict that holds
    one of these three keys makes [forward] raise [TypeError] before any
    network runs, with the object unchanged. (The mode is given under
    ['mode'].) *)
Theorem forward_repeated_keyword {D : Type} {inf : Inference D}
    (cfg : Config) (d : gmap string PyVal) (k : string)
    (ds : option (list D)) (mode : PyVal) (s : State) (m : string) :
  In k spelled_keywords ->
  is_Some (d !! k) ->
  py_eq_one (default (VInt 1) (d !! "num_batches")) = true ->
  get_valid_model cfg s d = Some m ->
  (m = "ema" -> with_ema_gen cfg = true) ->
  forward cfg (InDict d) ds mode s = Raise TypeError s.
Proof.
  intros Hk Hd Hnb Hm Hema.
  assert (Hrep : repeated_keyword (passed_kwargs d) = true).
  { unfold repeated_keyword. apply existsb_exists. exists k.
    split; [exact Hk | ]. apply bool_decide_eq_true.
    rewrite passed_kwargs_other; [exact Hd | ].
    unfold spelled_keywords, popped_keys in *. simpl in *.
    intros Hp.
    destruct Hk as [<- | [<- | [<- | []]]];
      destruct Hp as [Hp | [Hp | [Hp | [Hp | []]]]]; discriminate Hp. }
  rewrite forward_run, Hnb, Hm.
  destruct (String.eqb m "ema" || String.eqb m "orig").
  - unfold sample_single.
    destruct (String.eqb m "ema") eqn:Em.
    + apply String.eqb_eq in Em. unfold get_generator_ema.
      rewrite (Hema Em). unfold bind, gets, call_for_sample.
      rewrite Hrep. reflexivity.
    + unfold bind, gets, call_for_sample. rewrite Hrep. reflexivity.
  - unfold sample_both, bind, gets, call_for_sample.
    rewrite Hrep. reflexivity.
Qed.

(** The mode given under the generator's own keyword. *)
Lemma forward_repeated_keyword_witness :
  @forward unit demo_inference (demo_cfg 1 1 2 (1 / 10) false 0)
    (InDict (<["rand_mode" := VStr "recon"]> ∅)) None VNone demo_trained =
  Raise TypeError demo_trained.
Proof.
  apply (@forward_repeated_keyword unit demo_inference
           (demo_cfg 1 1 2 (1 / 10) false 0)
           (<["rand_mode" := VStr "recon"]> ∅) "rand_mode" None VNone
           demo_trained "orig").
  - simpl. tauto.
  - exists (VStr "recon"). reflexivity.
  - reflexivity.
  - reflexivity.
  - discriminate.
Defined.

(** X16. How [forward] fills what the dict leaves out, for a base class
    whose [_get_valid_model] reads ['sample_model'] alone: a missing
    ['num_batches'] is 1; a missing ['mode'] is the [mode] argument, and
    ['rand'] when that is [None]; a missing ['curr_scale'] is
    [self.curr_stage]; and a ['mode'] entry of the dict, be it [None],
    overrides the argument. *)
Theorem forward_defaults {D : Type} {inf : Inference D} (cfg : Config)
    (d : gmap string PyVal) (ds : option (list D)) (mode : PyVal)
    (s : State) :
  (forall d', d' !! "sample_model" = d !! "sample_model" ->
              get_valid_model cfg s d' = get_valid_model cfg s d) ->
  (d !! "num_batches" = None ->
   forward cfg (InDict (<["num_batches" := VInt 1]> d)) ds mode s =
   forward cfg (InDict d) ds mode s)
  /\ (d !! "mode" = None ->
      forall mode',
        forward cfg (InDict (<["mode" := resolved_mode d mode]> d)) ds
          mode' s =
        forward cfg (InDict d) ds mode s)
  /\ (d !! "curr_scale" = None ->
      forward cfg (InDict (<["curr_scale" := VInt (curr_stage s)]> d)) ds
        mode s =
      forward cfg (InDict d) ds mode s)
  /\ (is_Some (d !! "mode") ->
      forall mode',
        forward cfg (InDict d) ds mode' s =
        forward cfg (InDict d) ds mode s).
Proof.
  intros Hvalid.
  split; [ | split; [ | split]].
  - intros Hnone. rewrite !forward_run.
    rewrite Hvalid by (apply lookup_insert_ne; discriminate).
    rewrite passed_kwargs_insert by (simpl; tauto).
    unfold resolved_mode, resolved_scale.
    rewrite lookup_insert_eq, Hnone.
    rewrite !lookup_insert_ne by discriminate. reflexivity.
  - intros Hnone mode'. rewrite !forward_run.
    rewrite Hvalid by (apply lookup_insert_ne; discriminate).
    rewrite passed_kwargs_insert by (simpl; tauto).
    assert (Hmode : resolved_mode (<["mode" := resolved_mode d mode]> d)
                      mode' = resolved_mode d mode).
    { unfold resolved_mode at 1. rewrite lookup_insert_eq. simpl.
      unfold resolved_mode. rewrite Hnone. simpl.
      destruct mode; reflexivity. }
    rewrite Hmode. unfold resolved_scale.
    rewrite !lookup_insert_ne by discriminate. reflexivity.
  - intros Hnone. rewrite !forward_run.
    rewrite Hvalid by (apply lookup_insert_ne; discriminate).
    rewrite passed_kwargs_insert by (simpl; tauto).
    unfold resolved_mode, resolved_scale.
    rewrite lookup_insert_eq, Hnone.
    rewrite !lookup_insert_ne by discriminate. reflexivity.
  - intros [v Hv] mode'. rewrite !forward_run.
    unfold resolved_mode. rewrite Hv. reflexivity.
Qed.

(** The empty dict is a batch of 1. *)
Lemma forward_defaults_witness :
  @forward unit demo_inference (demo_cfg 1 1 2 (1 / 10) false 0)
    (InDict (<["num_batches" := VInt 1]> ∅)) None VNone demo_trained =
  @forward unit demo_inference (demo_cfg 1 1 2 (1 / 10) false 0)
    (InDict ∅) None VNone demo_trained.
Proof.
  apply (@forward_defaults unit demo_inference
           (demo_cfg 1 1 2 (1 / 10) false 0) ∅ None VNone demo_trained).
  - intros d' Hd'. simpl. rewrite Hd'. reflexivity.
  - reflexivity.
Defined.

(** X17. Whatever it is given, and whether it returns or raises,
    [forward] leaves the stage, the noise weights, the fixed noises, the
    real pyramid, the networks and the call log of the object as they
    were: only the position of the random stream may have moved. *)
Theorem forward_keeps_object {D : Type} {inf : Inference D} (cfg : Config)
    (inputs : ForwardInputs) (ds : option (list D)) (mode : PyVal)
    (s : State) :
  but_rng (final (forward cfg inputs ds mode s)) = but_rng s.
Proof.
  apply (forward_keeps cfg but_rng inputs ds mode). intros n s0.
  reflexivity.
Qed.

(** X18. With ['orig'] as the sample model the EMA network is not read:
    from an object with another [generator_ema], [forward] has the same
    outcome. With ['ema'] the same holds of the generator. *)
Theorem forward_one_network {D : Type} {inf : Inference D} (cfg : Config)
    (d : gmap string PyVal) (ds : option (list D)) (mode : PyVal)
    (s : State) (net : Net) :
  (get_valid_model cfg s d = Some "orig" ->
   get_valid_model cfg (set_generator_ema net s) d = Some "orig" ->
   forward cfg (InDict d) ds mode (set_generator_ema net s) =
   res_with (set_generator_ema net) (forward cfg (InDict d) ds mode s))
  /\ (get_valid_model cfg s d = Some "ema" ->
      get_valid_model cfg (set_generator net s) d = Some "ema" ->
      forward cfg (InDict d) ds mode (set_generator net s) =
      res_with (set_generator net) (forward cfg (InDict d) ds mode s)).
Proof.
  split; intros Hm Hm'; rewrite !forward_run, Hm, Hm';
    (destruct (py_eq_one _); [ | reflexivity]); simpl orb; cbv iota.
  - change (resolved_scale d (set_generator_ema net s))
      with (resolved_scale d s).
    apply sample_single_commutes; [apply unseen_set_generator_ema | ].
    simpl. apply commutes_gets. reflexivity.
  - change (resolved_scale d (set_generator net s))
      with (resolved_scale d s).
    apply sample_single_commutes; [apply unseen_set_generator | ].
    simpl. unfold get_generator_ema.
    destruct (with_ema_gen cfg);
      [apply commutes_gets; reflexivity | apply commutes_raise].
Qed.

(** The sample from the generator, whatever the shadow. *)
Lemma forward_one_network_witness :
  @forward unit demo_inference (demo_cfg 1 1 2 (1 / 10) false 0)
    (InDict ∅) None VNone (set_generator_ema demo_net demo_trained) =
  res_with (set_generator_ema demo_net)
    (@forward unit demo_inference (demo_cfg 1 1 2 (1 / 10) false 0)
       (InDict ∅) None VNone demo_trained).
Proof.
  apply (proj1 (@forward_one_network unit demo_inference
                  (demo_cfg 1 1 2 (1 / 10) false 0) ∅ None VNone
                  demo_trained demo_net)); reflexivity.
Defined.

(** X19. A [forward] that returns with ['ema'] or ['orig'] as the sample
    model has called that one network once, with the fixed noises and
    noise weights of the object, the resolved mode and scale and the
    entries of the dict other than ['num_batches'], ['sample_model'],
    ['mode'] and ['curr_scale']; it returns one sample, tagged with the
    sample model and updated from the first data sample if there is one,
    whose image is the network's, destructed once, at index 0. *)
Theorem forward_single_sample {D : Type} {inf : Inference D} (cfg : Config)
    (d : gmap string PyVal) (ds : option (list D)) (mode : PyVal)
    (s : State) (m : string) (l : list (GenSample D)) (s' : State) :
  get_valid_model cfg s d = Some m ->
  m = "ema" \/ m = "orig" ->
  forward cfg (InDict d) ds mode s = Ok l s' ->
  exists o n f,
    gen_sample (if String.eqb m "ema" then generator_ema s
                else generator s)
      (fixed_noises s) (noise_weights s) (resolved_mode d mode)
      (resolved_scale d s) (passed_kwargs d) (rng s) = (Some o, n)
    /\ (forall k, In k popped_keys -> passed_kwargs d !! k = None)
    /\ s' = set_rng (rng s + n)%nat s
    /\ l = [mkSample (update_source ds) (Single f) m]
    /\ read_from ds o f.
Proof.
  intros Hm Hsingle Hrun. rewrite forward_run, Hm in Hrun.
  destruct (py_eq_one _); [ | discriminate Hrun].
  replace (String.eqb m "ema" || String.eqb m "orig") with true in Hrun
    by (destruct Hsingle as [-> | ->]; reflexivity).
  apply sample_single_Ok in Hrun.
  destruct Hrun as (_ & _ & o & n & f & Hgen & Hs' & Hl & Hread).
  exists o, n, f. split; [exact Hgen | ].
  split; [apply passed_kwargs_popped | ].
  split; [exact Hs' | ]. split; [exact Hl | exact Hread].
Qed.

(** The sample of the generator in the instance. *)
Lemma forward_single_sample_witness :
  exists l s',
    @forward unit demo_inference (demo_cfg 1 1 2 (1 / 10) false 0)
      (InDict ∅) None VNone demo_trained = Ok l s'
    /\ length l = 1%nat.
Proof.
  destruct (@forward unit demo_inference (demo_cfg 1 1 2 (1 / 10) false 0)
              (InDict ∅) None VNone demo_trained) as [l s' | e s'] eqn:E.
  - exists l, s'. split; [reflexivity | ].
    assert (Hm : @get_valid_model unit demo_inference
                   (demo_cfg 1 1 2 (1 / 10) false 0) demo_trained ∅
                 = Some "orig") by reflexivity.
    destruct (@forward_single_sample unit demo_inference
                (demo_cfg 1 1 2 (1 / 10) false 0) ∅ None VNone
                demo_trained "orig" l s' Hm (or_intror eq_refl) E)
      as (o & n & f & _ & _ & _ & -> & _).
    reflexivity.
  - vm_compute in E. discriminate E.
Defined.

(** X20. A [forward] that returns with any other sample model (that is,
    ['ema/orig']) has called the generator first and the EMA network
    second, the second from where the first left the random stream, with
    the same arguments; it returns one sample holding the image of each
    under [orig] and [ema]. *)
Theorem forward_both_samples {D : Type} {inf : Inference D} (cfg : Config)
    (d : gmap string PyVal) (ds : option (list D)) (mode : PyVal)
    (s : State) (m : string) (l : list (GenSample D)) (s' : State) :
  get_valid_model cfg s d = Some m ->
  m <> "ema" ->
  m <> "orig" ->
  forward cfg (InDict d) ds mode s = Ok l s' ->
  exists oo n1 oe n2 fe fo,
    gen_sample (generator s) (fixed_noises s) (noise_weights s)
      (resolved_mode d mode) (resolved_scale d s) (passed_kwargs d)
      (rng s) = (Some oo, n1)
    /\ gen_sample (generator_ema s) (fixed_noises s) (noise_weights s)
         (resolved_mode d mode) (resolved_scale d s) (passed_kwargs d)
         (rng s + n1)%nat = (Some oe, n2)
    /\ s' = set_rng (rng s + n1 + n2)%nat s
    /\ l = [mkSample (update_source ds) (Dual fe fo) m]
    /\ read_from ds oo fo
    /\ read_from ds oe fe.
Proof.
  intros Hm Hema Horig Hrun. rewrite forward_run, Hm in Hrun.
  destruct (py_eq_one _); [ | discriminate Hrun].
  replace (String.eqb m "ema" || String.eqb m "orig") with false in Hrun
    by (symmetry; apply orb_false_iff; split; apply String.eqb_neq;
        assumption).
  apply sample_both_Ok in Hrun.
  destruct Hrun as (_ & _ & Hrest). exact Hrest.
Qed.

(** Both networks of the instance, two draws. *)
Lemma forward_both_samples_witness :
  exists l s',
    @forward unit demo_inference (demo_cfg 1 1 2 (1 / 10) true 0)
      (InDict demo_inputs) None VNone demo_trained = Ok l s'
    /\ length l = 1%nat.
Proof.
  destruct (@forward unit demo_inference (demo_cfg 1 1 2 (1 / 10) true 0)
              (InDict demo_inputs) None VNone demo_trained)
    as [l s' | e s'] eqn:E.
  - exists l, s'. split; [reflexivity | ].
    assert (Hm : @get_valid_model unit demo_inference
                   (demo_cfg 1 1 2 (1 / 10) true 0) demo_trained demo_inputs
                 = Some "ema/orig") by reflexivity.
    assert (Hema : "ema/orig" <> "ema") by discriminate.
    assert (Horig : "ema/orig" <> "orig") by discriminate.
    destruct (@forward_both_samples unit demo_inference
                (demo_cfg 1 1 2 (1 / 10) true 0) demo_inputs None VNone
                demo_trained "ema/orig" l s' Hm Hema Horig E)
      as (oo & n1 & oe & n2 & fe & fo & _ & _ & _ & -> & _).
    reflexivity.
  - vm_compute in E. discriminate E.
Defined.
